(** * The one-shot prune pass of [src/purge.cpp] ([PurgeDB])

    A shallow embedding of [PurgeDB] and of the pieces of the C library it
    relies on, followed by the properties of the pass: which blocks are
    classified as prunable, which files are protected, what the index
    mutation and the file deletion loops do, and how the pass ends.

    Conventions.
    - [int] and [unsigned int] values are modelled by [Z].  The only
      arithmetic of the function is [nHeight + MIN_HISTORY]; signed
      overflow is undefined behaviour in C++ and outside of the model.
    - [uint256] (block hashes, transaction ids) is modelled by [N].
    - [mapBlockIndex] is a [std::map<uint256, CBlockIndex*>]; every entry
      owns its own [CBlockIndex] object, so a [CBlockIndex*] is identified
      with the key of its entry and [set<CBlockIndex*>] becomes a set of
      keys.  The map is iterated by key and the set by address; the model
      iterates in the order of [map_to_list] and [elements], and no result
      below depends on that order.
    - Everything [PurgeDB] does to the outside world is recorded, in order,
      in a trace of events. *)

From Stdlib Require Import ZArith String Ascii List Lia Bool.
From stdpp Require Import base gmap sets list strings.

Local Open Scope Z_scope.

Abbreviation uint256 := N (only parsing).

(** ** Data *)

(** The fields of [CBlockIndex] (declared in main.h) that [PurgeDB] reads or
    writes.  The block hash is the key of the entry in [mapBlockIndex]. *)
Record CBlockIndex := mkBlockIndex {
  nHeight : Z;
  nFile : Z;
  nStatus : Z
}.

Inductive Event : Type :=
| EvLog (fmt : string) (args : list Z)
| EvReadBlock (hash : uint256)
| EvEraseTxIndex (txid : uint256)
| EvWriteBlockIndex (hash : uint256) (rec : CBlockIndex)
| EvRemove (fname : string)
| EvUnlock
| EvExit (status : Z).

(** What the collaborators of [PurgeDB] answer during one run. *)
Record Env := mkEnv {
  try_lock : bool;
  LoadBlockIndex_ok : bool;
  ActivateBestChain_ok : bool;
  Height : Z;
  disk_block : uint256 -> bool * list uint256
}.

(** The data the pass reads and writes: the in-memory index, the block tree
    database (block records and transaction index), the entries of the
    blocks directory ([None]: the directory does not exist), and the trace
    of the events so far. *)
Record State := mkState {
  mapBlockIndex : gmap uint256 CBlockIndex;
  blocktree : gmap uint256 CBlockIndex;
  txindex : gset uint256;
  blocks : option (list string);
  trace : list Event
}.

Definition set_mapBlockIndex (m : gmap uint256 CBlockIndex) (s : State) : State :=
  mkState m (blocktree s) (txindex s) (blocks s) (trace s).

Definition set_blocktree (m : gmap uint256 CBlockIndex) (s : State) : State :=
  mkState (mapBlockIndex s) m (txindex s) (blocks s) (trace s).

Definition set_txindex (t : gset uint256) (s : State) : State :=
  mkState (mapBlockIndex s) (blocktree s) t (blocks s) (trace s).

Definition set_blocks (d : option (list string)) (s : State) : State :=
  mkState (mapBlockIndex s) (blocktree s) (txindex s) d (trace s).

Definition add_trace (t : list Event) (s : State) : State :=
  mkState (mapBlockIndex s) (blocktree s) (txindex s) (blocks s) (trace s ++ t).

(** ** The part of the C library used on file names *)

Module CLib.

(** [isspace] and [isdigit] in the C locale. *)
Definition isspace (c : ascii) : bool :=
  let n := N_of_ascii c in
  ((n =? 32) || ((9 <=? n) && (n <=? 13)))%N.

Definition isdigit (c : ascii) : bool :=
  let n := N_of_ascii c in
  ((48 <=? n) && (n <=? 57))%N.

Definition digit_val (c : ascii) : Z := Z.of_N (N_of_ascii c - 48).

Fixpoint skip_space (s : string) : string :=
  match s with
  | String c r => if isspace c then skip_space r else s
  | EmptyString => s
  end.

Fixpoint scan_digits (acc : Z) (s : string) : Z :=
  match s with
  | String c r => if isdigit c then scan_digits (10 * acc + digit_val c) r else acc
  | EmptyString => acc
  end.

(** The conversion [%d] of [sscanf]: white space is skipped, then an
    optional sign and a non-empty run of decimal digits is read.
    [None] when no digit is found. *)
Definition scan_d (s : string) : option Z :=
  let s1 := skip_space s in
  let '(neg, s2) :=
    match s1 with
    | String "-" r => (true, r)
    | String "+" r => (false, r)
    | _ => (false, s1)
    end in
  match s2 with
  | String c _ =>
      if isdigit c
      then Some (if neg : bool then - scan_digits 0 s2 else scan_digits 0 s2)
      else None
  | EmptyString => None
  end.

(** [sscanf(s, "%d.dat", &idx)].  The return value counts the conversions
    that were stored, so it is 1 as soon as [%d] has converted, whatever
    follows the digits; [Some idx] stands for the return value 1 with
    [idx] stored, [None] for any other return value (0 or EOF). *)
Definition sscanf_d_dat (s : string) : option Z := scan_d s.

(** [p + n] on a C string. *)
Fixpoint advance (n : nat) (s : string) : string :=
  match n, s with
  | S n', String _ r => advance n' r
  | _, _ => s
  end.

(** [fname.compare(0, 3, tag)] for a three-letter [tag]: [true] stands
    for a non-zero result (the first three characters differ from
    [tag]). *)
Definition compare3 (fname tag : string) : bool :=
  negb (String.eqb (substring 0 3 fname) tag).

End CLib.

(** ** Control flow: a state monad with a jump to the label [fail] *)

Inductive Flow (A : Type) : Type :=
| Next (a : A)
| GotoFail.
Arguments Next {A} a.
Arguments GotoFail {A}.

Definition M (A : Type) : Type := State -> Flow A * State.

#[global] Instance M_ret : MRet M := fun A a s => (Next a, s).

#[global] Instance M_bind : MBind M := fun A B k m s =>
  match m s with
  | (Next a, s') => k a s'
  | (GotoFail, s') => (GotoFail, s')
  end.

Definition goto_fail {A} : M A := fun s => (GotoFail, s).

Definition emit (ev : Event) : M unit := fun s => (Next tt, add_trace [ev] s).

Definition LogPrintf (fmt : string) (args : list Z) : M unit := emit (EvLog fmt args).

(** [BOOST_FOREACH] over a sequence, threading the loop-carried value. *)
Fixpoint foreach {A B} (body : B -> A -> M B) (l : list A) (b : B) : M B :=
  match l with
  | [] => mret b
  | x :: l' => b' ← body b x; foreach body l' b'
  end.

(** ** The constants of main.h

    [MIN_HISTORY], [BLOCK_HAVE_DATA] and [BLOCK_HAVE_UNDO] are declared in
    main.h; the development is parametric in their values. *)
Class Consts := mkConsts {
  MIN_HISTORY : Z;
  BLOCK_HAVE_DATA : Z;
  BLOCK_HAVE_UNDO : Z
}.

Section Purge.
Context `{Consts}.

(** [pindex->nStatus & BLOCK_HAVE_DATA || pindex->nStatus & BLOCK_HAVE_UNDO] *)
Definition have_data_or_undo (pindex : CBlockIndex) : bool :=
  negb (Z.land (nStatus pindex) BLOCK_HAVE_DATA =? 0)
  || negb (Z.land (nStatus pindex) BLOCK_HAVE_UNDO =? 0).

(** The value of [nStatus & ~(BLOCK_HAVE_DATA | BLOCK_HAVE_UNDO)], in a record. *)
Definition clear_data_undo (pindex : CBlockIndex) : CBlockIndex :=
  mkBlockIndex (nHeight pindex) (nFile pindex)
    (Z.land (nStatus pindex) (Z.lnot (Z.lor BLOCK_HAVE_DATA BLOCK_HAVE_UNDO))).

(** *** The collaborators *)

(** Modelled from the spec: [LoadBlockIndex] (main.cpp) populates the
    in-memory mapping of block identifier to Block Record from the
    persistent index store, or fails and reports it. *)
Definition LoadBlockIndex (e : Env) : M bool := fun s =>
  if LoadBlockIndex_ok e
  then (Next true, set_mapBlockIndex (blocktree s) s)
  else (Next false, s).

(** Modelled from the spec: [ActivateBestChain] (main.cpp) computes the
    chain tip, exposed afterwards by [chainActive.Height()], or fails and
    reports it. *)
Definition ActivateBestChain (e : Env) : M bool := mret (ActivateBestChain_ok e).

(** Modelled from the spec: [ReadBlockFromDisk] loads the serialized bytes
    of a block and parses its transaction list; it reports a failure
    through its result and leaves the transactions it has read in
    [block.vtx]. *)
Definition ReadBlockFromDisk (e : Env) (pindex : uint256) : M (bool * list uint256) :=
  emit (EvReadBlock pindex);; mret (disk_block e pindex).

(** Modelled from the spec: [EraseTxIndex] removes a transaction index
    entry; removing an absent entry is not an error. *)
Definition EraseTxIndex (txid : uint256) : M unit := fun s =>
  (Next tt, add_trace [EvEraseTxIndex txid] (set_txindex (txindex s ∖ {[ txid ]}) s)).

(** Modelled from the spec: [WriteBlockIndex] persists the record of a
    block under the hash of the block.  [pindex] that is not the key of an
    entry does not occur: the pointers come from [mapBlockIndex]. *)
Definition WriteBlockIndex (pindex : uint256) : M unit := fun s =>
  match mapBlockIndex s !! pindex with
  | Some r =>
      (Next tt, add_trace [EvWriteBlockIndex pindex r]
                  (set_blocktree (<[pindex := r]> (blocktree s)) s))
  | None => (Next tt, s)
  end.

(** Line 93, [pindex->nStatus &= ~(BLOCK_HAVE_DATA | BLOCK_HAVE_UNDO)]: the
    record is updated in place, in the object [mapBlockIndex] points to. *)
Definition clear_status (pindex : uint256) : M unit := fun s =>
  (Next tt, set_mapBlockIndex (alter clear_data_undo pindex (mapBlockIndex s)) s).

(** [remove(iter->path())] on an entry of the blocks directory. *)
Definition remove (fname : string) : M unit := fun s =>
  (Next tt, add_trace [EvRemove fname]
              (set_blocks (filter (fun f => f ≠ fname) <$> blocks s) s)).

(** *** The passes of [PurgeDB] *)

(** Lines 61-69: the body and the loop of the first pass. *)
Definition first_pass_body (tip : Z) (setNeed : gset Z)
    (item : uint256 * CBlockIndex) : M (gset Z) :=
  let pindex := item.2 in
  if nHeight pindex + MIN_HISTORY >=? tip then
    (if have_data_or_undo pindex
     then LogPrintf "Block cannot be deleted" []
     else mret tt);;
    mret (setNeed ∪ {[ nFile pindex ]})
  else mret setNeed.

Definition first_pass (tip : Z) : M (gset Z) := fun s =>
  foreach (first_pass_body tip) (map_to_list (mapBlockIndex s)) ∅ s.

(** Lines 72-82.  The [LogPrintf] of line 80 is not governed by the two
    inner [if]s: it runs for every block below the window. *)
Definition second_pass_body (tip : Z) (setNeed : gset Z) (setDelete : gset uint256)
    (item : uint256 * CBlockIndex) : M (gset uint256) :=
  let pindex := item.2 in
  if nHeight pindex + MIN_HISTORY <? tip then
    let setDelete' :=
      if have_data_or_undo pindex
      then (if bool_decide (nFile pindex ∈ setNeed) then setDelete
            else setDelete ∪ {[ item.1 ]})
      else setDelete in
    LogPrintf "Added to delete" [];;
    mret setDelete'
  else mret setDelete.

Definition second_pass (tip : Z) (setNeed : gset Z) : M (gset uint256) := fun s =>
  foreach (second_pass_body tip setNeed) (map_to_list (mapBlockIndex s)) ∅ s.

(** Lines 85-95.  The value returned by [ReadBlockFromDisk] is dropped. *)
Definition third_pass_body (e : Env) (_ : unit) (pindex : uint256) : M unit :=
  LogPrintf "add telete tx" [];;
  '(_, vtx) ← ReadBlockFromDisk e pindex;
  foreach (fun _ txid => EraseTxIndex txid;; LogPrintf "telete tx" []) vtx tt;;
  clear_status pindex;;
  WriteBlockIndex pindex.

Definition third_pass (e : Env) (setDelete : gset uint256) : M unit :=
  foreach (third_pass_body e) (elements setDelete) tt.

(** Lines 104-120: the body of the loop over the blocks directory; each
    [continue] ends the body. *)
Definition final_body (setNeed : gset Z) (_ : unit) (fname : string) : M unit :=
  if negb (String.length fname =? 12)%nat then mret tt else
  LogPrintf "12" [];;
  if CLib.compare3 fname "rev" && CLib.compare3 fname "blk" then mret tt else
  LogPrintf "blk" [];;
  match CLib.sscanf_d_dat (CLib.advance 3 fname) with
  | None => mret tt
  | Some idx =>
      LogPrintf "dat" [];;
      if bool_decide (idx ∈ setNeed) then mret tt else
      LogPrintf "idx" [];;
      remove fname
  end.

(** Lines 98-120. *)
Definition final_operation (setNeed : gset Z) : M unit := fun s =>
  match blocks s with
  | None => (LogPrintf "Could not open blocks directory" [];; goto_fail) s
  | Some entries => foreach (final_body setNeed) entries tt s
  end.

(** Lines 26-120: everything before the label [fail].  Lines 37-39 set the
    loading flag and open the database handles; the databases are part of
    [State] from the start. *)
Definition PurgeDB_body (e : Env) : M unit :=
  (if negb (try_lock e)
   then LogPrintf "Cannot obtain a lock on data directory. FeedBackCoin Core is probably already running." [];;
        goto_fail
   else mret tt);;
  LogPrintf "Are you sure you want to purge?!!!!" [];;
  LogPrintf "Loading databases" [];;
  loaded ← LoadBlockIndex e;
  (if negb loaded
   then LogPrintf "Error loading block database" [];; goto_fail
   else mret tt);;
  activated ← ActivateBestChain e;
  (if negb activated
   then LogPrintf "Could not activate best chain" [];; goto_fail
   else mret tt);;
  LogPrintf "Tip is block %ld\n" [Height e];;
  (if Height e <=? MIN_HISTORY
   then LogPrintf "Not enough history to prune" [];; goto_fail
   else mret tt);;
  setNeed ← first_pass (Height e);
  setDelete ← second_pass (Height e) setNeed;
  third_pass e setDelete;;
  final_operation setNeed.

(** Lines 122-124: the code at the label [fail], reached by every jump and
    by falling through from the last loop. *)
Definition at_fail : M unit := emit EvUnlock;; emit (EvExit 0).

Definition PurgeDB (e : Env) (s : State) : State :=
  (at_fail (PurgeDB_body e s).2).2.

End Purge.

(** * The units of [src/qt/bitcoinunits.cpp]

    A [QString] is a sequence of UTF-16 code units, modelled by a list of
    [N]; [qint64] and [int] values are modelled by [Z].  The enumerators
    [FBC], [mFBC] and [uFBC] are declared in bitcoinunits.h: the model is
    parametric in their values, and a [switch] over them becomes a chain of
    tests in the order of its [case] labels. *)

Module BitcoinUnits.

Class UnitCodes := mkUnitCodes {
  FBC : Z;
  mFBC : Z;
  uFBC : Z
}.

(** [QString(const char * )] for the 8-bit literals of the file. *)
Definition qs (s : string) : list N := N_of_ascii <$> list_ascii_of_string s.

(** *** The functions of Qt that the file calls *)

Definition is_digit (c : N) : bool := ((48 <=? c) && (c <=? 57))%N.

(** [QChar::isSpace]: the white space of ASCII, NEL, the no-break space
    and the separators of Unicode. *)
Definition isSpace (c : N) : bool :=
  ((c =? 32) || ((9 <=? c) && (c <=? 13)) || (c =? 133) || (c =? 160)
   || (c =? 5760) || (c =? 6158) || ((8192 <=? c) && (c <=? 8202))
   || (c =? 8232) || (c =? 8233) || (c =? 8239) || (c =? 8287) || (c =? 12288))%N.

Definition digit_char (d : Z) : N := Z.to_N (48 + d).

Fixpoint number_digits (fuel : nat) (n : Z) (acc : list N) : list N :=
  match fuel with
  | O => acc
  | S fuel' =>
      let acc' := digit_char (n mod 10) :: acc in
      if n <? 10 then acc' else number_digits fuel' (n / 10) acc'
  end.

(** [QString::number(qint64)]: the decimal digits of [n], after a minus
    sign when [n] is negative.  A number below [2 ^ k] has at most [k]
    digits, which bounds the recursion. *)
Definition number (n : Z) : list N :=
  if n <? 0
  then 45%N :: number_digits (S (Z.to_nat (Z.log2 (- n)))) (- n) []
  else number_digits (S (Z.to_nat (Z.log2 n))) n [].

(** [rightJustified(width, fill)] and [leftJustified(width, fill)]: a
    string that is already [width] long or longer is returned as it is. *)
Definition rightJustified (width : Z) (fill : N) (s : list N) : list N :=
  replicate (Z.to_nat (width - Z.of_nat (length s))) fill ++ s.

Definition leftJustified (width : Z) (fill : N) (s : list N) : list N :=
  s ++ replicate (Z.to_nat (width - Z.of_nat (length s))) fill.

(** [chop(n)] removes [n] characters from the end. *)
Definition chop (n : nat) (s : list N) : list N := take (length s - n) s.

(** [split(sep)] for a separator of one character; empty parts are kept. *)
Fixpoint split (sep : N) (s : list N) : list (list N) :=
  match s with
  | [] => [[]]
  | c :: r =>
      if (c =? sep)%N then [] :: split sep r
      else match split sep r with
           | p :: ps => (c :: p) :: ps
           | [] => [[c]]
           end
  end.

Fixpoint skip_spaces (s : list N) : list N :=
  match s with
  | c :: r => if isSpace c then skip_spaces r else s
  | [] => []
  end.

Fixpoint digits_value (acc : Z) (s : list N) : Z :=
  match s with
  | c :: r => digits_value (10 * acc + (Z.of_N c - 48)) r
  | [] => acc
  end.

Fixpoint leading_digits (s : list N) : list N * list N :=
  match s with
  | c :: r => if is_digit c
              then let '(ds, rest) := leading_digits r in (c :: ds, rest)
              else ([], s)
  | [] => ([], [])
  end.

(** [QString::toLongLong(&ok)]: base 10 in the C locale.  White space
    around the number is ignored; the number is an optional sign and one
    or more decimal digits, and it has to fit a [qint64].  The result is
    0 when the conversion fails. *)
Definition toLongLong (s : list N) : bool * Z :=
  let s1 := skip_spaces s in
  let '(neg, s2) :=
    match s1 with
    | 45%N :: r => (true, r)
    | 43%N :: r => (false, r)
    | _ => (false, s1)
    end in
  let '(ds, rest) := leading_digits s2 in
  let v := if neg : bool then - digits_value 0 ds else digits_value 0 ds in
  if negb (bool_decide (ds = [])) && forallb isSpace rest
     && (- 2 ^ 63 <=? v) && (v <? 2 ^ 63)
  then (true, v) else (false, 0).

(** *** The functions of the file *)

(** The value of an expression of type [qint64], wrapped to 64 bits. *)
Definition wrap64 (z : Z) : Z := (z + 2 ^ 63) mod 2 ^ 64 - 2 ^ 63.

Section Units.
Context `{UnitCodes}.

(** Lines 16-23. *)
Definition availableUnits : list Z := [FBC; mFBC; uFBC].

(** Lines 25-36. *)
Definition valid (unit : Z) : bool :=
  if unit =? FBC then true
  else if unit =? mFBC then true
  else if unit =? uFBC then true
  else false.

(** Lines 60-69. *)
Definition factor (unit : Z) : Z :=
  if unit =? FBC then 10000000000
  else if unit =? mFBC then 10000000
  else if unit =? uFBC then 10000
  else 10000000000.

(** Lines 93-102. *)
Definition decimals (unit : Z) : Z :=
  if unit =? FBC then 10
  else if unit =? mFBC then 7
  else if unit =? uFBC then 5
  else 0.

(** Lines 119-121: the number of characters the loop counts, for the loop
    index [i] below [bound]. *)
Fixpoint count_trim (bound : nat) (s : list N) : nat :=
  match bound with
  | O => O
  | S i => if (2 <=? i)%nat && bool_decide (s !! i = Some 48%N)
           then S (count_trim i s) else O
  end.

(** Lines 104-129, for a [qint64] [n].  [- n] overflows for the least
    [qint64]: the model has the value of two's complement there. *)
Definition format (unit : Z) (n : Z) (fPlus : bool) : list N :=
  if negb (valid unit) then [] else
  let coin := factor unit in
  let num_decimals := decimals unit in
  let n_abs := if n >? 0 then n else wrap64 (- n) in
  let quotient := Z.quot n_abs coin in
  let remainder := Z.rem n_abs coin in
  let quotient_str := number quotient in
  let remainder_str := rightJustified num_decimals 48 (number remainder) in
  let nTrim := count_trim (length remainder_str) remainder_str in
  let remainder_str := chop nTrim remainder_str in
  let quotient_str :=
    if n <? 0 then 45%N :: quotient_str
    else if fPlus && (n >? 0) then 43%N :: quotient_str
    else quotient_str in
  quotient_str ++ qs "." ++ remainder_str.

(** Lines 136-171.  [val_out] is [None] for the null pointer and
    [Some old] for a pointer to a [qint64] that holds [old].  The first
    component is the value returned, the second what [val_out] points to
    when the function returns: [retvalue] is stored only under the test
    of line 166, and not at all when the function returns before. *)
Definition parse (unit : Z) (value : list N) (val_out : option Z) : bool * option Z :=
  if negb (valid unit) || bool_decide (value = []) then (false, val_out) else
  let num_decimals := decimals unit in
  let parts := split 46 value in
  if (2 <? length parts)%nat then (false, val_out) else
  let whole := default [] (parts !! 0%nat) in
  let decimals_ := if (1 <? length parts)%nat then default [] (parts !! 1%nat) else [] in
  if num_decimals <? Z.of_nat (length decimals_) then (false, val_out) else
  let str := whole ++ leftJustified num_decimals 48 decimals_ in
  if 18 <? Z.of_nat (length str) then (false, val_out) else
  let '(ok, retvalue) := toLongLong str in
  (ok, match val_out with
       | Some _ => Some retvalue
       | None => None
       end).

(** The text that line 159 builds from [value] and that line 165
    converts. *)
Definition padded_text (unit : Z) (value : list N) : list N :=
  let parts := split 46 value in
  default [] (parts !! 0%nat)
  ++ leftJustified (decimals unit) 48
       (if (1 <? length parts)%nat then default [] (parts !! 1%nat) else []).

End Units.

(** *** Vocabulary of the statements about the units *)

(** What [val_out] points to after [if(val_out) *val_out = v], when
    there is such a thing: a null pointer has nothing stored. *)
Definition stored (val_out : option Z) (v : Z) : option Z :=
  match val_out with Some _ => Some v | None => None end.

(** A text without the dot (code 46). *)
Definition no_dot (s : list N) : Prop := Forall (fun c => c ≠ 46%N) s.

(** The sign in front of a number: none, [-] (code 45) or [+] (code 43). *)
Inductive sign : Type := NoSign | Minus | Plus.

Definition sign_str (sg : sign) : list N :=
  match sg with NoSign => [] | Minus => [45%N] | Plus => [43%N] end.

Definition apply_sign (sg : sign) (v : Z) : Z :=
  match sg with Minus => - v | _ => v end.

(** The sign that lines 124-127 put in front of the quotient. *)
Definition sign_of (n : Z) (fPlus : bool) : sign :=
  if n <? 0 then Minus else if fPlus && (n >? 0) then Plus else NoSign.

End BitcoinUnits.

(** * The parameter conversion of [src/rpcclient.cpp]

    The values are those of json_spirit, a library the file includes: a
    [Value] carries one of seven types.  The library's parser
    [read_string] and its typed accessor [get_value<T>] are parameters of
    the model.  A C++ exception is an outcome of its own. *)

Module RpcClient.

Inductive Value : Type :=
| VObj (o : list (string * Value))
| VArr (a : list Value)
| VStr (s : string)
| VBool (b : bool)
| VInt (i : Z)
| VReal (d : Z)
| VNull.

(** The template arguments with which [ConvertTo] is instantiated. *)
Inductive Target : Type := T_bool | T_int64 | T_uint64 | T_Object | T_Array.

(** How a call ends: it returns, it throws a [runtime_error] with its
    [what()], the model's bound on the nesting of [ConvertTo] is used up, or
    a vector is indexed outside its elements. *)
Inductive Outcome (A : Type) : Type :=
| Ok (a : A)
| Throw (what : string)
| Unfinished
| OutOfBounds.

Arguments Ok {A} a.
Arguments Throw {A} what.
Arguments Unfinished {A}.
Arguments OutOfBounds {A}.

(** [value.type() == null_type] *)
Definition is_null (value : Value) : bool :=
  match value with VNull => true | _ => false end.

(** [value.type() == str_type] *)
Definition is_str (value : Value) : bool :=
  match value with VStr _ => true | _ => false end.

(** [int n = params.size()]: the size converted to a 32-bit [int]. *)
Definition int_of_size (k : nat) : Z :=
  let z := Z.of_nat k mod 2 ^ 32 in
  if z <? 2 ^ 31 then z else z - 2 ^ 32.

(** A line [if (strMethod == m && n > i) ConvertTo<T>(params[i], fAllowNull)]
    of [RPCConvertValues]. *)
Definition Rule : Type := string * nat * Target * bool.

(** The lines 135-187 of [RPCConvertValues], in their order (the
    commented-out line 149 left out). *)
Definition conversions : list Rule :=
  [
    ("stop", 0%nat, T_bool, false);
    ("getaddednodeinfo", 0%nat, T_bool, false);
    ("setgenerate", 0%nat, T_bool, false);
    ("setgenerate", 1%nat, T_int64, false);
    ("getnetworkhashps", 0%nat, T_int64, false);
    ("getnetworkhashps", 1%nat, T_int64, false);
    ("getreceivedbyaddress", 1%nat, T_int64, false);
    ("getreceivedbyaccount", 1%nat, T_int64, false);
    ("listreceivedbyaddress", 0%nat, T_int64, false);
    ("listreceivedbyaddress", 1%nat, T_bool, false);
    ("listreceivedbyaccount", 0%nat, T_int64, false);
    ("listreceivedbyaccount", 1%nat, T_bool, false);
    ("getbalance", 1%nat, T_int64, false);
    ("getblockhash", 0%nat, T_int64, false);
    ("move", 3%nat, T_int64, false);
    ("sendfrom", 3%nat, T_int64, false);
    ("sendfrom", 4%nat, T_uint64, false);
    ("sendtoaddress", 2%nat, T_uint64, false);
    ("listtransactions", 1%nat, T_int64, false);
    ("listtransactions", 2%nat, T_int64, false);
    ("listaccounts", 0%nat, T_int64, false);
    ("walletpassphrase", 1%nat, T_int64, false);
    ("listsinceblock", 1%nat, T_int64, false);
    ("sendmany", 1%nat, T_Object, false);
    ("sendmany", 2%nat, T_int64, false);
    ("sendmany", 3%nat, T_uint64, false);
    ("addmultisigaddress", 0%nat, T_int64, false);
    ("addmultisigaddress", 1%nat, T_Array, false);
    ("createmultisig", 0%nat, T_int64, false);
    ("createmultisig", 1%nat, T_Array, false);
    ("listbalances", 0%nat, T_int64, false);
    ("listbalances", 1%nat, T_Array, false);
    ("getblock", 1%nat, T_bool, false);
    ("getblockheader", 1%nat, T_bool, false);
    ("getrawtransaction", 1%nat, T_int64, false);
    ("balancesat", 0%nat, T_int64, false);
    ("createrawtransaction", 0%nat, T_Object, false);
    ("createrawtransaction", 1%nat, T_Object, false);
    ("createrawtransaction", 2%nat, T_int64, false);
    ("createrawtransaction", 5%nat, T_int64, false);
    ("decoderawtransaction", 1%nat, T_Object, false);
    ("setuprawtransaction", 1%nat, T_Object, false);
    ("signrawtransaction", 1%nat, T_Object, true);
    ("signrawtransaction", 2%nat, T_Array, true);
    ("sendrawtransaction", 1%nat, T_bool, true);
    ("gettxout", 1%nat, T_int64, false);
    ("gettxout", 2%nat, T_bool, false);
    ("importprivkey", 2%nat, T_bool, false);
    ("verifychain", 0%nat, T_int64, false);
    ("verifychain", 1%nat, T_int64, false);
    ("keypoolrefill", 0%nat, T_int64, false);
    ("getrawmempool", 0%nat, T_bool, false)
  ]%string.

Section Json.

(** [read_string(s, value)]: the parsed value, or [None] when it returns
    false. *)
Variable read_string : string → option Value.

(** [Value(value.get_value<T>())]: the value built from the typed content,
    or the [what()] of the exception of the type check. *)
Variable get_value : Target → Value → Value + string.

(** [ConvertTo<T>(value, fAllowNull)], lines 102-121: the new content of
    [value].  A string is parsed and the conversion is applied to the
    result, which may be a string again: [fuel] bounds this nesting. *)
Fixpoint ConvertTo_rec (fuel : nat) (T : Target) (fAllowNull : bool)
    (value : Value) : Outcome Value :=
  match fuel with
  | O => Unfinished
  | S fuel' =>
      if fAllowNull && is_null value then Ok value
      else match value with
           | VStr strJSON =>
               match read_string strJSON with
               | None => Throw ("Error parsing JSON:" +:+ strJSON)
               | Some value2 => ConvertTo_rec fuel' T fAllowNull value2
               end
           | _ =>
               match get_value T value with
               | inl value' => Ok value'
               | inr what => Throw what
               end
           end
  end.

(** A bound on the nesting for a parser whose string results are shorter
    than its input. *)
Definition nesting_bound (value : Value) : nat :=
  match value with VStr s => S (String.length s) | _ => O end.

Definition ConvertTo (T : Target) (fAllowNull : bool) (value : Value) : Outcome Value :=
  ConvertTo_rec (S (nesting_bound value)) T fAllowNull value.

(** [ConvertTo<T>(params[i], fAllowNull)] on the array. *)
Definition convert_at (T : Target) (fAllowNull : bool) (i : nat)
    (params : list Value) : Outcome (list Value) :=
  match params !! i with
  | None => OutOfBounds
  | Some value =>
      match ConvertTo T fAllowNull value with
      | Ok value' => Ok (<[i := value']> params)
      | Throw what => Throw what
      | Unfinished => Unfinished
      | OutOfBounds => OutOfBounds
      end
  end.

Definition apply_rule (strMethod : string) (n : Z) (r : Rule)
    (params : list Value) : Outcome (list Value) :=
  let '(m, i, T, fAllowNull) := r in
  if String.eqb strMethod m && (Z.of_nat i <? n)
  then convert_at T fAllowNull i params
  else Ok params.

Fixpoint apply_rules (strMethod : string) (n : Z) (rs : list Rule)
    (params : list Value) : Outcome (list Value) :=
  match rs with
  | [] => Ok params
  | r :: rs' =>
      match apply_rule strMethod n r params with
      | Ok params' => apply_rules strMethod n rs' params'
      | Throw what => Throw what
      | Unfinished => Unfinished
      | OutOfBounds => OutOfBounds
      end
  end.

(** [RPCConvertValues(strMethod, strParams)], lines 124-190. *)
Definition RPCConvertValues (strMethod : string) (strParams : list string)
    : Outcome (list Value) :=
  let params := VStr <$> strParams in
  let n := int_of_size (length params) in
  apply_rules strMethod n conversions params.

End Json.

(** *** [CommandLineRPC], lines 257-321 *)

(** The exceptions that the handlers of [CommandLineRPC] tell apart: a
    [std::exception] with its [what()], [boost::thread_interrupted], and
    any other. *)
Inductive Exn : Type :=
| StdException (what : string)
| ThreadInterrupted
| OtherException.

(** How the body of the [try] block, or a call in it, ends.  [Undefined]
    is [abs] of the least [int]; [Stuck] is a conversion of the model that
    does not end in a value or an exception. *)
Inductive Status (A : Type) : Type :=
| Normal (a : A)
| Raised (e : Exn)
| Hang
| Undefined
| Stuck.

Arguments Normal {A} a.
Arguments Raised {A} e.
Arguments Hang {A}.
Arguments Undefined {A}.
Arguments Stuck {A}.

Inductive Stream : Type := stdout | stderr.

(** How [CommandLineRPC] ends: it returns [nRet] after the [fprintf], if
    any, of [strPrint] on a stream; or an exception leaves it, after
    [PrintExceptionContinue] in the last handler. *)
Inductive Run : Type :=
| Exits (nRet : Z) (printed : option (Stream * string))
| Propagates (e : Exn) (logged : bool)
| Hangs
| UndefinedBehaviour
| StuckRun.

(** [argv[1][0]]: the first character of a C string, the terminating
    zero when it is empty. *)
Definition first_char (s : string) : ascii :=
  match s with String c _ => c | EmptyString => zero end.

(** [abs(code)] on [int]. *)
Definition abs (code : Z) : option Z :=
  if code =? - 2 ^ 31 then None else Some (Z.abs code).

(** Lines 316-320. *)
Definition finish (strPrint : string) (nRet : Z) : Run :=
  Exits nRet
    (if String.eqb strPrint "" then None
     else Some (if nRet =? 0 then stdout else stderr, strPrint)).

Section CommandLine.

Variable read_string : string → option Value.
Variable get_value : Target → Value → Value + string.

(** [IsSwitchChar] of util.h and [RPC_MISC_ERROR] of rpcprotocol.h. *)
Variable IsSwitchChar : ascii → bool.
Variable RPC_MISC_ERROR : Z.

(** [CallRPC(strMethod, params)], lines 34-96: the exchange with the
    server, taken as given. *)
Variable CallRPC : string → list Value → Status (list (string * Value)).

(** json_spirit: [find_value(obj, name)], [write_string(value, pretty)],
    and the accessors [get_obj()] and [get_int()], which give the content
    or the [what()] of the exception of their type check. *)
Variable find_value : list (string * Value) → string → Value.
Variable write_string : Value → bool → string.
Variable get_obj : Value → list (string * Value) + string.
Variable get_int : Value → Z + string.

(** Lines 264-269: [argv] after the loop, from [argv[0]] and the rest. *)
Fixpoint skip_switches (argv0 : string) (rest : list string) : list string :=
  match rest with
  | argv1 :: rest' =>
      if IsSwitchChar (first_char argv1)
      then skip_switches argv1 rest'
      else argv0 :: rest
  | [] => [argv0]
  end.

(** Lines 283-299: the reply turned into [strPrint] and [nRet]. *)
Definition parse_reply (reply : list (string * Value)) : Status (string * Z) :=
  let result := find_value reply "result" in
  let error := find_value reply "error" in
  if negb (is_null error) then
    let strPrint := "error: " +:+ write_string error false in
    match get_obj error with
    | inr what => Raised (StdException what)
    | inl obj =>
        match get_int (find_value obj "code") with
        | inr what => Raised (StdException what)
        | inl code =>
            match abs code with
            | Some nRet => Normal (strPrint, nRet)
            | None => Undefined
            end
        end
    end
  else
    Normal (match result with
            | VNull => ""
            | VStr s => s
            | _ => write_string result true
            end, 0).

(** Lines 264-299: the [try] block. *)
Definition try_block (argv : list string) : Status (string * Z) :=
  let argv' := match argv with
               | [] => []
               | argv0 :: rest => skip_switches argv0 rest
               end in
  match argv' with
  | _ :: strMethod :: strParams =>
      match RPCConvertValues read_string get_value strMethod strParams with
      | Ok params =>
          match CallRPC strMethod params with
          | Normal reply => parse_reply reply
          | Raised e => Raised e
          | Hang => Hang
          | Undefined => Undefined
          | Stuck => Stuck
          end
      | Throw what => Raised (StdException what)
      | Unfinished => Stuck
      | OutOfBounds => Stuck
      end
  | _ => Raised (StdException "too few parameters")
  end.

(** [CommandLineRPC(argc, argv)], with [argc] the length of [argv]. *)
Definition CommandLineRPC (argv : list string) : Run :=
  match try_block argv with
  | Normal (strPrint, nRet) => finish strPrint nRet
  | Raised ThreadInterrupted => Propagates ThreadInterrupted false
  | Raised (StdException what) =>
      match abs RPC_MISC_ERROR with
      | Some nRet => finish ("error: " +:+ what) nRet
      | None => UndefinedBehaviour
      end
  | Raised OtherException => Propagates OtherException true
  | Hang => Hangs
  | Undefined => UndefinedBehaviour
  | Stuck => StuckRun
  end.

End CommandLine.

(** An argument that the loop of lines 264-269 skips. *)
Definition is_switch (IsSwitchChar : ascii → bool) (arg : string) : bool :=
  IsSwitchChar (first_char arg).

(** The rules of a method, and the positions they convert. *)
Definition rule_method (r : Rule) : string := r.1.1.1.
Definition rule_index (r : Rule) : nat := r.1.1.2.
Definition rule_key (r : Rule) : string * nat := (rule_method r, rule_index r).

Definition is_Ok {A} (o : Outcome A) : Prop :=
  match o with Ok _ => True | _ => False end.

(** The outcomes that are not the given one, as predicates. *)
Definition finished {A} (o : Outcome A) : Prop :=
  match o with Unfinished => False | _ => True end.

Definition in_bounds {A} (o : Outcome A) : Prop :=
  match o with OutOfBounds => False | _ => True end.

(** A parser whose string results are shorter than what it reads. *)
Definition unwraps (read_string : string → option Value) : Prop :=
  ∀ s s', read_string s = Some (VStr s') → (String.length s' < String.length s)%nat.

End RpcClient.

(** ** Vocabulary of the statements *)

Definition is_log (ev : Event) : bool :=
  match ev with EvLog _ _ => true | _ => false end.

Definition is_remove (ev : Event) : bool :=
  match ev with EvRemove _ => true | _ => false end.

(** The events of the index mutation: reading a block, erasing a
    transaction index entry, writing a block record. *)
Definition is_index_event (ev : Event) : bool :=
  match ev with
  | EvReadBlock _ | EvEraseTxIndex _ | EvWriteBlockIndex _ _ => true
  | _ => false
  end.

Definition not_remove (ev : Event) : bool := negb (is_remove ev).

Definition not_index_event (ev : Event) : bool := negb (is_index_event ev).

(** The messages logged before a jump to the label [fail]. *)
Definition failure_message (fmt : string) : bool :=
  String.eqb fmt "Cannot obtain a lock on data directory. FeedBackCoin Core is probably already running."
  || String.eqb fmt "Error loading block database"
  || String.eqb fmt "Could not activate best chain"
  || String.eqb fmt "Not enough history to prune"
  || String.eqb fmt "Could not open blocks directory".

Definition is_failure (ev : Event) : bool :=
  match ev with EvLog fmt _ => failure_message fmt | _ => false end.

(** A log line that is not one of the failure messages. *)
Definition plain_log (ev : Event) : bool := is_log ev && negb (is_failure ev).

(** What the index mutation loop may emit, and what the loop over the
    blocks directory may emit. *)
Definition mutation_event (ev : Event) : bool := plain_log ev || is_index_event ev.

Definition reap_event (ev : Event) : bool := plain_log ev || is_remove ev.

(** The exit status of a finished run: the argument of the [exit] that
    ends its trace. *)
Definition exit_status (s : State) : option Z :=
  match last (trace s) with
  | Some (EvExit n) => Some n
  | _ => None
  end.

(** The condition under which line 119 removes a directory entry. *)
Definition reap_condition (setNeed : gset Z) (fname : string) : Prop :=
  String.length fname = 12%nat
  ∧ (substring 0 3 fname = "blk"%string ∨ substring 0 3 fname = "rev"%string)
  ∧ ∃ idx, CLib.sscanf_d_dat (CLib.advance 3 fname) = Some idx ∧ idx ∉ setNeed.

(** A zero-padded decimal index followed by the extension: one or more
    decimal digits, then [.dat], and nothing else. *)
Fixpoint decimal_index_dat (s : string) : bool :=
  match s with
  | String c r =>
      CLib.isdigit c && (decimal_index_dat r || String.eqb r ".dat")
  | EmptyString => false
  end.

Section Vocabulary.
Context `{Consts}.

(** The File Identifier Set in the words of the spec: the file-ids of the
    records with [height + RetentionWindow >= tipHeight]. *)
Definition File_Identifier_Set (tip : Z) (m : gmap uint256 CBlockIndex) : gset Z :=
  map_to_set (fun _ r => nFile r)
    (filter (fun kr : uint256 * CBlockIndex => tip ≤ nHeight kr.2 + MIN_HISTORY) m).

(** The Prunable Block Set in the words of the spec. *)
Definition Prunable_Block_Set (tip : Z) (m : gmap uint256 CBlockIndex) : gset uint256 :=
  dom (filter (fun kr : uint256 * CBlockIndex =>
                 nHeight kr.2 + MIN_HISTORY < tip
                 ∧ have_data_or_undo kr.2 = true
                 ∧ nFile kr.2 ∉ File_Identifier_Set tip m) m).

(** The index once the records of the set [D] have lost their data and
    undo flags. *)
Definition flipped (D : gset uint256) (m : gmap uint256 CBlockIndex)
    : gmap uint256 CBlockIndex :=
  map_imap (fun k r => Some (if bool_decide (k ∈ D) then clear_data_undo r else r)) m.

(** The conjunction of the tests a directory entry passes before line 119
    removes it. *)
Definition reaped (setNeed : gset Z) (fname : string) : bool :=
  (String.length fname =? 12)%nat
  && negb (CLib.compare3 fname "rev" && CLib.compare3 fname "blk")
  && match CLib.sscanf_d_dat (CLib.advance 3 fname) with
     | Some idx => negb (bool_decide (idx ∈ setNeed))
     | None => false
     end.

(** Two records that differ at most by the data and undo flags. *)
Definition same_but_flags (r r' : CBlockIndex) : Prop :=
  nHeight r' = nHeight r ∧ nFile r' = nFile r
  ∧ ∀ i, Z.testbit (Z.lor BLOCK_HAVE_DATA BLOCK_HAVE_UNDO) i = false →
         Z.testbit (nStatus r') i = Z.testbit (nStatus r) i.

(** The checks of lines 27-55 all pass: the run reaches the first pass. *)
Definition prelude_ok (e : Env) : bool :=
  try_lock e && LoadBlockIndex_ok e && ActivateBestChain_ok e
  && negb (Height e <=? MIN_HISTORY).

(** The message of the check that stops the run, if one does. *)
Definition failure_of (e : Env) (s : State) : option string :=
  if negb (try_lock e)
  then Some "Cannot obtain a lock on data directory. FeedBackCoin Core is probably already running."%string
  else if negb (LoadBlockIndex_ok e) then Some "Error loading block database"%string
  else if negb (ActivateBestChain_ok e) then Some "Could not activate best chain"%string
  else if Height e <=? MIN_HISTORY then Some "Not enough history to prune"%string
  else match blocks s with
       | None => Some "Could not open blocks directory"%string
       | Some _ => None
       end.

(** The state in which the first pass starts. *)
Definition after_prelude (e : Env) (s : State) : State :=
  mkState (blocktree s) (blocktree s) (txindex s) (blocks s)
    (trace s ++ [EvLog "Are you sure you want to purge?!!!!" [];
                 EvLog "Loading databases" [];
                 EvLog "Tip is block %ld\n" [Height e]]).

(** A record that the classification of a run on the index [m] selects:
    below the window, with data or undo, and in a file that no record
    inside the window shares. *)
Definition is_prunable (tip : Z) (m : gmap uint256 CBlockIndex) (k : uint256) : Prop :=
  ∃ r, m !! k = Some r
       ∧ nHeight r + MIN_HISTORY < tip
       ∧ (Z.land (nStatus r) BLOCK_HAVE_DATA ≠ 0 ∨ Z.land (nStatus r) BLOCK_HAVE_UNDO ≠ 0)
       ∧ ¬ ∃ k' r', m !! k' = Some r' ∧ tip <= nHeight r' + MIN_HISTORY
                    ∧ nFile r' = nFile r.

(** What an event of the index mutation is about: a read or a write names
    a block of [D], an erase names a transaction of a block of [D]. *)
Definition event_within (e : Env) (D : uint256 → Prop) (ev : Event) : Prop :=
  match ev with
  | EvReadBlock k | EvWriteBlockIndex k _ => D k
  | EvEraseTxIndex txid => ∃ k, D k ∧ txid ∈ (disk_block e k).2
  | _ => True
  end.

End Vocabulary.

(** ** Concrete data for the examples

    The retention window of the examples is 1000, the window of the
    scenario of the spec; the two flags are given the distinct bits 8 and
    16. *)
Definition example_consts : Consts := mkConsts 1000 8 16.

(** Block A (height 3900) and block B (height 4200) share file 7; the tip
    is at height 5000. *)
Definition blockA : CBlockIndex := mkBlockIndex 3900 7 24.

Definition blockB : CBlockIndex := mkBlockIndex 4200 7 0.

Definition scenario_index : gmap uint256 CBlockIndex :=
  <[1%N := blockA]> (<[2%N := blockB]> ∅).

Definition scenario_state : State :=
  mkState scenario_index scenario_index ∅ (Some []) [].

(** Two old blocks in files 1 and 2 of their own, with data and undo. *)
Definition old_index : gmap uint256 CBlockIndex :=
  <[1%N := mkBlockIndex 100 1 24]> (<[2%N := mkBlockIndex 200 2 24]> ∅).

Definition old_state : State :=
  mkState ∅ old_index {[ 11%N; 12%N ]}
    (Some ["blk00001.dat"; "rev00001.dat"; "blk00002.dat"; "readme.txt"]%string) [].

(** Every collaborator succeeds; block [h] holds the transaction [h + 10]. *)
Definition env_ok (tip : Z) : Env :=
  mkEnv true true true tip (fun h => (true, [(h + 10)%N])).

(** Another process holds the lock. *)
Definition env_locked (tip : Z) : Env :=
  mkEnv false true true tip (fun h => (true, [(h + 10)%N])).

(** No block can be read from disk. *)
Definition env_unreadable (tip : Z) : Env :=
  mkEnv true true true tip (fun _ => (false, [])).

(** The scenario with a third block, old and alone in file 1, and a
    blocks directory. *)
Definition mixed_index : gmap uint256 CBlockIndex :=
  <[3%N := mkBlockIndex 100 1 24]> scenario_index.

Definition mixed_state : State :=
  mkState ∅ mixed_index {[ 13%N; 11%N ]}
    (Some ["blk00001.dat"; "rev00001.dat"; "blk00007.dat"; "readme.txt"]%string) [].

(** The enumerators of the units, numbered in the order of lines 19-21. *)
Definition unit_codes : BitcoinUnits.UnitCodes := BitcoinUnits.mkUnitCodes 0 1 2.

(** A small parser and typed accessor for the examples of the parameter
    conversion: the literals true, false and null, decimal numbers, and a
    text between double quotes (code 34). *)
Definition quote : ascii := ascii_of_nat 34.

Definition quoted (s : string) : string :=
  String quote (s +:+ String quote EmptyString).

Fixpoint strip_closing_quote (s : string) : option string :=
  match s with
  | EmptyString => None
  | String c rest =>
      match rest with
      | EmptyString => if Ascii.eqb c quote then Some EmptyString else None
      | _ => option_map (String c) (strip_closing_quote rest)
      end
  end.

Fixpoint all_digits (s : string) : bool :=
  match s with
  | EmptyString => true
  | String c rest => CLib.isdigit c && all_digits rest
  end.

Definition example_read_string (s : string) : option RpcClient.Value :=
  if String.eqb s "true" then Some (RpcClient.VBool true)
  else if String.eqb s "false" then Some (RpcClient.VBool false)
  else if String.eqb s "null" then Some RpcClient.VNull
  else match s with
       | EmptyString => None
       | String c rest =>
           if Ascii.eqb c quote
           then option_map RpcClient.VStr (strip_closing_quote rest)
           else if all_digits s
                then Some (RpcClient.VInt (CLib.scan_digits 0 s))
                else None
       end.

Definition example_get_value (T : RpcClient.Target) (value : RpcClient.Value)
    : RpcClient.Value + string :=
  match T, value with
  | RpcClient.T_bool, RpcClient.VBool _
  | RpcClient.T_int64, RpcClient.VInt _
  | RpcClient.T_uint64, RpcClient.VInt _
  | RpcClient.T_Object, RpcClient.VObj _
  | RpcClient.T_Array, RpcClient.VArr _ => inl value
  | _, _ => inr "value is of another type"%string
  end.

(** A command line, a server and the accessors of json_spirit for the
    examples of [CommandLineRPC]. *)
Definition example_IsSwitchChar (c : ascii) : bool := Ascii.eqb c "-".

Definition example_CallRPC (strMethod : string) (params : list RpcClient.Value)
    : RpcClient.Status (list (string * RpcClient.Value)) :=
  if String.eqb strMethod "getblockcount"
  then RpcClient.Normal [("result", RpcClient.VStr "7 blocks");
                         ("error", RpcClient.VNull)]%string
  else if String.eqb strMethod "stop"
  then RpcClient.Raised RpcClient.ThreadInterrupted
  else RpcClient.Normal
         [("result", RpcClient.VNull);
          ("error", RpcClient.VObj [("code", RpcClient.VInt (-32601))])]%string.

Fixpoint example_find_value (obj : list (string * RpcClient.Value)) (name : string)
    : RpcClient.Value :=
  match obj with
  | [] => RpcClient.VNull
  | (n, v) :: obj' => if String.eqb n name then v else example_find_value obj' name
  end.

Definition example_write_string (value : RpcClient.Value) (pretty : bool) : string :=
  match value with
  | RpcClient.VNull => "null"
  | RpcClient.VBool true => "true"
  | RpcClient.VBool false => "false"
  | RpcClient.VStr s => quoted s
  | _ => "(json)"
  end.

Definition example_get_obj (value : RpcClient.Value)
    : list (string * RpcClient.Value) + string :=
  match value with
  | RpcClient.VObj o => inl o
  | _ => inr "value is of another type"%string
  end.

Definition example_get_int (value : RpcClient.Value) : Z + string :=
  match value with
  | RpcClient.VInt i => inl i
  | _ => inr "value is of another type"%string
  end.

Definition example_CommandLineRPC (argv : list string) : RpcClient.Run :=
  RpcClient.CommandLineRPC example_read_string example_get_value
    example_IsSwitchChar (-1) example_CallRPC example_find_value
    example_write_string example_get_obj example_get_int argv.

(** ** Reasoning about runs *)

Lemma bind_next {A B} (m : M A) (k : A -> M B) s a s1 :
  m s = (Next a, s1) -> (m ≫= k) s = k a s1.
Proof. intros E. unfold mbind, M_bind. now rewrite E. Qed.

Lemma bind_fail {A B} (m : M A) (k : A -> M B) s s1 :
  m s = (GotoFail, s1) -> (m ≫= k) s = (GotoFail, s1).
Proof. intros E. unfold mbind, M_bind. now rewrite E. Qed.

Lemma add_trace_nil s : add_trace [] s = s.
Proof. destruct s. unfold add_trace. simpl. now rewrite app_nil_r. Qed.

Lemma add_trace_app t1 t2 s : add_trace t2 (add_trace t1 s) = add_trace (t1 ++ t2) s.
Proof. unfold add_trace. simpl. now rewrite app_assoc. Qed.

Ltac run_step := erewrite bind_next by reflexivity.

Lemma LogPrintf_run fmt args s :
  LogPrintf fmt args s = (Next tt, add_trace [EvLog fmt args] s).
Proof. reflexivity. Qed.

Section Passes.
Context `{Consts}.

(** *** The first pass *)

Lemma first_pass_body_run tip acc item s :
  ∃ t, first_pass_body tip acc item s =
         (Next (if nHeight item.2 + MIN_HISTORY >=? tip
                then acc ∪ {[ nFile item.2 ]} else acc), add_trace t s)
       ∧ forallb plain_log t = true.
Proof.
  unfold first_pass_body.
  destruct (nHeight item.2 + MIN_HISTORY >=? tip).
  - destruct (have_data_or_undo item.2).
    + exists [EvLog "Block cannot be deleted" []]. split; reflexivity.
    + exists []. rewrite add_trace_nil. split; reflexivity.
  - exists []. rewrite add_trace_nil. split; reflexivity.
Qed.

Lemma first_pass_loop tip l : ∀ acc s,
  ∃ need t, foreach (first_pass_body tip) l acc s = (Next need, add_trace t s)
    ∧ forallb plain_log t = true
    ∧ ∀ f, f ∈ need ↔
        f ∈ acc ∨ ∃ kr, kr ∈ l ∧ tip ≤ nHeight kr.2 + MIN_HISTORY ∧ nFile kr.2 = f.
Proof.
  induction l as [|item l IH]; intros acc s; simpl.
  - exists acc, []. rewrite add_trace_nil. split; [reflexivity|]. split; [reflexivity|].
    intros f. split; [auto|]. intros [?|(kr & Hin & _)]; [assumption|]. inversion Hin.
  - destruct (first_pass_body_run tip acc item s) as (t1 & E1 & L1).
    rewrite (bind_next _ _ _ _ _ E1).
    destruct (IH (if nHeight item.2 + MIN_HISTORY >=? tip
                  then acc ∪ {[ nFile item.2 ]} else acc) (add_trace t1 s))
      as (need & t2 & E2 & L2 & Hneed).
    exists need, (t1 ++ t2). rewrite E2, add_trace_app. split; [reflexivity|].
    split; [rewrite forallb_app, L1, L2; reflexivity|].
    intros f. rewrite Hneed. clear Hneed E1 E2 IH.
    destruct (Z.geb_spec (nHeight item.2 + MIN_HISTORY) tip) as [Hge|Hlt].
    + rewrite elem_of_union, elem_of_singleton. split.
      * intros [[? | ->] | (kr & Hin & ?)]; [left; assumption| |].
        -- right. exists item. split; [left|]. split; [lia|reflexivity].
        -- right. exists kr. split; [right; assumption|assumption].
      * intros [?|(kr & Hin & Hp & Hf)]; [left; left; assumption|].
        apply elem_of_cons in Hin as [-> | Hin].
        -- left. right. symmetry. assumption.
        -- right. exists kr. auto.
    + split.
      * intros [?|(kr & Hin & ?)]; [left; assumption|].
        right. exists kr. split; [right; assumption|assumption].
      * intros [?|(kr & Hin & Hp & Hf)]; [left; assumption|].
        apply elem_of_cons in Hin as [-> | Hin]; [lia|].
        right. exists kr. auto.
Qed.

Lemma elem_of_File_Identifier_Set tip m f :
  f ∈ File_Identifier_Set tip m ↔
  ∃ k r, m !! k = Some r ∧ tip ≤ nHeight r + MIN_HISTORY ∧ nFile r = f.
Proof.
  unfold File_Identifier_Set. rewrite elem_of_map_to_set. split.
  - intros (k & r & Hl & Hf). apply map_lookup_filter_Some in Hl as [Hl Hp].
    exists k, r. auto.
  - intros (k & r & Hl & Hp & Hf). exists k, r. split; [|assumption].
    apply map_lookup_filter_Some. auto.
Qed.

Lemma first_pass_run tip s :
  ∃ t, first_pass tip s = (Next (File_Identifier_Set tip (mapBlockIndex s)), add_trace t s)
       ∧ forallb plain_log t = true.
Proof.
  unfold first_pass.
  destruct (first_pass_loop tip (map_to_list (mapBlockIndex s)) ∅ s)
    as (need & t & E & L & Hneed).
  exists t. split; [|assumption]. rewrite E. f_equal. f_equal.
  apply set_eq. intros f. rewrite Hneed, elem_of_File_Identifier_Set. split.
  - intros [Hf|([k r] & Hin & Hp & Hf)]; [set_solver|].
    apply elem_of_map_to_list in Hin. exists k, r. auto.
  - intros (k & r & Hl & Hp & Hf). right. exists (k, r).
    split; [apply elem_of_map_to_list; assumption|auto].
Qed.

(** *** The second pass *)

Lemma second_pass_body_run tip need acc item s :
  ∃ t, second_pass_body tip need acc item s =
         (Next (if (nHeight item.2 + MIN_HISTORY <? tip)
                   && have_data_or_undo item.2
                   && negb (bool_decide (nFile item.2 ∈ need))
                then acc ∪ {[ item.1 ]} else acc), add_trace t s)
       ∧ forallb plain_log t = true.
Proof.
  unfold second_pass_body.
  destruct (nHeight item.2 + MIN_HISTORY <? tip); simpl.
  - exists [EvLog "Added to delete" []]. split; [|reflexivity].
    destruct (have_data_or_undo item.2); simpl; [|reflexivity].
    destruct (bool_decide (nFile item.2 ∈ need)); reflexivity.
  - exists []. rewrite add_trace_nil. split; reflexivity.
Qed.

Lemma second_pass_loop tip need l : ∀ acc s,
  ∃ del t, foreach (second_pass_body tip need) l acc s = (Next del, add_trace t s)
    ∧ forallb plain_log t = true
    ∧ ∀ k, k ∈ del ↔
        k ∈ acc ∨ ∃ r, (k, r) ∈ l ∧ nHeight r + MIN_HISTORY < tip
                       ∧ have_data_or_undo r = true ∧ nFile r ∉ need.
Proof.
  induction l as [|item l IH]; intros acc s; simpl.
  - exists acc, []. rewrite add_trace_nil. split; [reflexivity|]. split; [reflexivity|].
    intros k. split; [auto|]. intros [?|(r & Hin & _)]; [assumption|]. inversion Hin.
  - destruct (second_pass_body_run tip need acc item s) as (t1 & E1 & L1).
    rewrite (bind_next _ _ _ _ _ E1).
    match type of E1 with _ = (Next ?a, _) =>
      destruct (IH a (add_trace t1 s)) as (del & t2 & E2 & L2 & Hdel) end.
    exists del, (t1 ++ t2). rewrite E2, add_trace_app. split; [reflexivity|].
    split; [rewrite forallb_app, L1, L2; reflexivity|].
    intros k. rewrite Hdel. clear Hdel E1 E2 IH. destruct item as [k0 r0]. simpl.
    destruct (Z.ltb_spec (nHeight r0 + MIN_HISTORY) tip) as [Hlt|Hge];
      destruct (have_data_or_undo r0) eqn:Hflag; simpl;
      try case_bool_decide; simpl;
      rewrite ?elem_of_union, ?elem_of_singleton;
      (split;
       [ intros [Hk|(r & Hin & Hr)];
         [ try (destruct Hk as [Hk | ->]);
           first [ left; assumption
                 | right; exists r0; split; [left|auto] ]
         | right; exists r; split; [right; assumption|assumption] ]
       | intros [Hk|(r & Hin & Hh & Hf & Hn)];
         [ auto
         | apply elem_of_cons in Hin as [Heq | Hin];
           [ inversion Heq; subst; first [ left; right; reflexivity
                                         | congruence | lia | tauto ]
           | right; exists r; auto ] ] ]).
Qed.

Lemma elem_of_Prunable_Block_Set tip m k :
  k ∈ Prunable_Block_Set tip m ↔
  ∃ r, m !! k = Some r ∧ nHeight r + MIN_HISTORY < tip
       ∧ have_data_or_undo r = true ∧ nFile r ∉ File_Identifier_Set tip m.
Proof.
  unfold Prunable_Block_Set. rewrite elem_of_dom. split.
  - intros [r Hl]. apply map_lookup_filter_Some in Hl as [Hl Hp]. exists r. auto.
  - intros (r & Hl & Hp). exists r. apply map_lookup_filter_Some. auto.
Qed.

Lemma second_pass_run tip s :
  ∃ t, second_pass tip (File_Identifier_Set tip (mapBlockIndex s)) s =
         (Next (Prunable_Block_Set tip (mapBlockIndex s)), add_trace t s)
       ∧ forallb plain_log t = true.
Proof.
  unfold second_pass.
  destruct (second_pass_loop tip (File_Identifier_Set tip (mapBlockIndex s))
              (map_to_list (mapBlockIndex s)) ∅ s) as (del & t & E & L & Hdel).
  exists t. split; [|assumption]. rewrite E. f_equal. f_equal.
  apply set_eq. intros k. rewrite Hdel, elem_of_Prunable_Block_Set. split.
  - intros [Hk|(r & Hin & Hp)]; [set_solver|].
    apply elem_of_map_to_list in Hin. exists r. auto.
  - intros (r & Hl & Hp). right. exists r.
    split; [apply elem_of_map_to_list; assumption|auto].
Qed.

(** *** The third pass *)

Lemma erase_loop vtx : ∀ s,
  ∃ s', foreach (fun (_ : unit) txid => EraseTxIndex txid;; LogPrintf "telete tx" [])
          vtx tt s = (Next tt, s')
    ∧ mapBlockIndex s' = mapBlockIndex s ∧ blocktree s' = blocktree s
    ∧ blocks s' = blocks s ∧ txindex s' ⊆ txindex s
    ∧ ∃ t, trace s' = trace s ++ t ∧ forallb mutation_event t = true.
Proof.
  induction vtx as [|txid vtx IH]; intros s; simpl.
  - exists s. repeat split; try reflexivity. exists []. now rewrite app_nil_r.
  - unfold mbind at 1, M_bind at 1. simpl.
    match goal with |- context [foreach _ vtx tt ?s1] =>
      destruct (IH s1) as (s' & E & Hm & Hb & Hd & Hx & t & Ht & Hr) end.
    exists s'. split; [exact E|]. simpl in *.
    repeat split; try assumption.
    + set_solver.
    + exists (EvEraseTxIndex txid :: EvLog "telete tx" [] :: t).
      rewrite Ht, <- !app_assoc. split; [reflexivity|]. simpl. assumption.
Qed.

Lemma third_pass_body_run e k s :
  ∃ s', third_pass_body e tt k s = (Next tt, s')
    ∧ mapBlockIndex s' = alter clear_data_undo k (mapBlockIndex s)
    ∧ blocktree s' =
        match mapBlockIndex s !! k with
        | Some r => <[k := clear_data_undo r]> (blocktree s)
        | None => blocktree s
        end
    ∧ blocks s' = blocks s ∧ txindex s' ⊆ txindex s
    ∧ ∃ t, trace s' = trace s ++ t ∧ forallb mutation_event t = true
           ∧ ∀ r, mapBlockIndex s !! k = Some r →
                  EvWriteBlockIndex k (clear_data_undo r) ∈ t.
Proof.
  unfold third_pass_body.
  erewrite bind_next by reflexivity.
  erewrite bind_next by reflexivity.
  destruct (disk_block e k) as [ok vtx]. cbv beta iota.
  match goal with |- context [(foreach _ vtx tt ≫= _) ?s1] =>
    destruct (erase_loop vtx s1) as (s1' & E & Hm & Hb & Hd & Hx & t & Ht & Hr) end.
  erewrite bind_next by exact E.
  erewrite bind_next by reflexivity.
  clear E. simpl in *. unfold WriteBlockIndex. simpl.
  rewrite ?Hm, ?Hb, lookup_alter_eq. destruct (mapBlockIndex s !! k) as [r|] eqn:Hk; simpl.
  - eexists. split; [reflexivity|]. simpl. rewrite ?Hm, ?Hb, ?Hd.
    repeat split; try reflexivity; try assumption.
    exists (EvLog "add telete tx" [] :: EvReadBlock k :: t
            ++ [EvWriteBlockIndex k (clear_data_undo r)]).
    rewrite Ht, <- !app_assoc. split; [reflexivity|]. split.
    + simpl. rewrite forallb_app, Hr. reflexivity.
    + intros r' [= <-]. set_solver.
  - eexists. split; [reflexivity|]. simpl. rewrite ?Hm, ?Hb, ?Hd.
    repeat split; try reflexivity; try assumption.
    exists (EvLog "add telete tx" [] :: EvReadBlock k :: t).
    rewrite Ht, <- !app_assoc. split; [reflexivity|]. split; [assumption|].
    intros r' [=].
Qed.

Lemma clear_data_undo_idemp r : clear_data_undo (clear_data_undo r) = clear_data_undo r.
Proof.
  unfold clear_data_undo. simpl. f_equal.
  rewrite <- Z.land_assoc, Z.land_diag. reflexivity.
Qed.

Lemma flipped_empty m : flipped ∅ m = m.
Proof.
  apply map_eq. intros k. unfold flipped. rewrite map_lookup_imap.
  destruct (m !! k); reflexivity.
Qed.

Lemma flipped_step k D m :
  flipped D (alter clear_data_undo k m) = flipped ({[ k ]} ∪ D) m.
Proof.
  apply map_eq. intros j. unfold flipped. rewrite !map_lookup_imap.
  destruct (decide (k = j)) as [<-|Hne].
  - rewrite lookup_alter_eq. destruct (m !! k) as [r|]; simpl; [|reflexivity].
    rewrite (bool_decide_true (k ∈ {[k]} ∪ D)) by set_solver.
    case_bool_decide; [rewrite clear_data_undo_idemp|]; reflexivity.
  - rewrite lookup_alter_ne by assumption.
    destruct (m !! j) as [r|]; simpl; [|reflexivity].
    rewrite (bool_decide_ext (j ∈ D) (j ∈ {[k]} ∪ D)) by set_solver. reflexivity.
Qed.

Lemma alter_as_insert k (m : gmap uint256 CBlockIndex) :
  match m !! k with
  | Some r => <[k := clear_data_undo r]> m
  | None => m
  end = alter clear_data_undo k m.
Proof.
  apply map_eq. intros j. destruct (decide (k = j)) as [<-|Hne].
  - rewrite lookup_alter_eq. destruct (m !! k) eqn:E; simpl.
    + now rewrite lookup_insert_eq.
    + now rewrite E.
  - rewrite lookup_alter_ne by assumption.
    destruct (m !! k); [now rewrite lookup_insert_ne|reflexivity].
Qed.

Lemma same_but_flags_refl r : same_but_flags r r.
Proof. repeat split. Qed.

Lemma same_but_flags_clear r : same_but_flags r (clear_data_undo r).
Proof.
  split; [reflexivity|]. split; [reflexivity|]. intros i Hi. simpl.
  rewrite Z.land_spec. destruct (Z.lt_ge_cases i 0) as [Hneg|Hpos].
  - rewrite !(Z.testbit_neg_r _ i) by assumption. reflexivity.
  - rewrite Z.lnot_spec, Hi by assumption. apply andb_true_r.
Qed.

Lemma third_pass_loop e l : ∀ s,
  mapBlockIndex s = blocktree s →
  ∃ s', foreach (third_pass_body e) l tt s = (Next tt, s')
    ∧ mapBlockIndex s' = flipped (list_to_set l) (mapBlockIndex s)
    ∧ blocktree s' = flipped (list_to_set l) (mapBlockIndex s)
    ∧ blocks s' = blocks s ∧ txindex s' ⊆ txindex s
    ∧ ∃ t, trace s' = trace s ++ t ∧ forallb mutation_event t = true
           ∧ ∀ k r, k ∈ l → mapBlockIndex s !! k = Some r →
                    EvWriteBlockIndex k (clear_data_undo r) ∈ t.
Proof.
  induction l as [|k l IH]; intros s Hinv; simpl.
  - exists s. rewrite flipped_empty. repeat split; try reflexivity; try assumption.
    + symmetry. assumption.
    + exists []. rewrite app_nil_r. repeat split. intros k r Hk. inversion Hk.
  - destruct (third_pass_body_run e k s)
      as (s1 & E1 & Hm1 & Hb1 & Hd1 & Hx1 & t1 & Ht1 & Hr1 & Hw1).
    erewrite bind_next by exact E1.
    rewrite <- Hinv, alter_as_insert in Hb1.
    destruct (IH s1) as (s' & E & Hm & Hb & Hd & Hx & t & Ht & Hr & Hw);
      [congruence|].
    exists s'. split; [exact E|].
    rewrite Hm, Hb, Hd, Hm1, Hd1, flipped_step.
    repeat split; try reflexivity.
    + etrans; eassumption.
    + exists (t1 ++ t). rewrite Ht, Ht1, app_assoc. split; [reflexivity|].
      split; [rewrite forallb_app, Hr1, Hr; reflexivity|].
      intros k' r Hin Hl. apply elem_of_app.
      destruct (decide (k = k')) as [<-|Hne]; [left; auto|].
      right. apply elem_of_cons in Hin as [-> | Hin]; [congruence|].
      apply Hw; [assumption|]. rewrite Hm1, lookup_alter_ne; assumption.
Qed.

Lemma third_pass_run e D s :
  mapBlockIndex s = blocktree s →
  ∃ s', third_pass e D s = (Next tt, s')
    ∧ mapBlockIndex s' = flipped D (mapBlockIndex s)
    ∧ blocktree s' = flipped D (mapBlockIndex s)
    ∧ blocks s' = blocks s ∧ txindex s' ⊆ txindex s
    ∧ ∃ t, trace s' = trace s ++ t ∧ forallb mutation_event t = true
           ∧ ∀ k r, k ∈ D → mapBlockIndex s !! k = Some r →
                    EvWriteBlockIndex k (clear_data_undo r) ∈ t.
Proof.
  intros Hinv. unfold third_pass.
  destruct (third_pass_loop e (elements D) s Hinv)
    as (s' & E & Hm & Hb & Hd & Hx & t & Ht & Hr & Hw).
  rewrite list_to_set_elements_L in Hm, Hb.
  exists s'. repeat split; try assumption.
  exists t. repeat split; try assumption.
  intros k r Hk. apply Hw. apply elem_of_elements. assumption.
Qed.

Lemma third_pass_empty e s : third_pass e ∅ s = (Next tt, s).
Proof. unfold third_pass. rewrite elements_empty. reflexivity. Qed.

(** *** The final operation *)

Lemma filter_ext_in {A} (P Q : A → Prop) `{∀ x, Decision (P x)} `{∀ x, Decision (Q x)}
    (l : list A) :
  (∀ x, x ∈ l → (P x ↔ Q x)) → filter P l = filter Q l.
Proof.
  induction l as [|x l IH]; intros HPQ; [reflexivity|].
  rewrite !filter_cons. rewrite IH by (intros y Hy; apply HPQ; right; assumption).
  pose proof (HPQ x ltac:(left)) as Hx.
  destruct (decide (P x)) as [HP|HP], (decide (Q x)) as [HQ|HQ];
    try reflexivity; tauto.
Qed.

Lemma filter_all {A} (P : A → Prop) `{∀ x, Decision (P x)} (l : list A) :
  (∀ x, P x) → filter P l = l.
Proof.
  intros HP. induction l as [|x l IH]; [reflexivity|].
  rewrite filter_cons_True by apply HP. now rewrite IH.
Qed.

Ltac no_removal :=
  let g := fresh "g" in let Hg := fresh "Hg" in
  intros g; split;
  [ intros Hg; repeat (apply elem_of_cons in Hg as [Hg|Hg]; [discriminate|]);
    inversion Hg
  | intros [_ [=]] ].

Lemma final_body_run need f s :
  ∃ s', final_body need tt f s = (Next tt, s')
    ∧ mapBlockIndex s' = mapBlockIndex s ∧ blocktree s' = blocktree s
    ∧ txindex s' = txindex s
    ∧ blocks s' = (if reaped need f
                   then filter (fun g => g ≠ f) <$> blocks s else blocks s)
    ∧ ∃ t, trace s' = trace s ++ t ∧ forallb reap_event t = true
           ∧ ∀ g, EvRemove g ∈ t ↔ g = f ∧ reaped need f = true.
Proof.
  unfold final_body, reaped.
  generalize (CLib.sscanf_d_dat (CLib.advance 3 f)) as conv.
  generalize (CLib.compare3 f "rev" && CLib.compare3 f "blk") as other_tag.
  intros other_tag conv.
  destruct (String.length f =? 12)%nat; simpl.
  2:{ exists s. repeat (split; [reflexivity|]). exists []. rewrite app_nil_r.
      split; [reflexivity|]. split; [reflexivity|]. no_removal. }
  run_step.
  destruct other_tag; simpl.
  { eexists. split; [reflexivity|]. simpl. repeat (split; [reflexivity|]).
    exists [EvLog "12" []]. split; [reflexivity|]. split; [reflexivity|]. no_removal. }
  run_step.
  destruct conv as [idx|]; simpl.
  2:{ eexists. split; [reflexivity|]. simpl. repeat (split; [reflexivity|]).
      exists [EvLog "12" []; EvLog "blk" []]. rewrite <- app_assoc.
      split; [reflexivity|]. split; [reflexivity|]. no_removal. }
  run_step.
  destruct (bool_decide (idx ∈ need)); simpl.
  { eexists. split; [reflexivity|]. simpl. repeat (split; [reflexivity|]).
    exists [EvLog "12" []; EvLog "blk" []; EvLog "dat" []]. rewrite <- !app_assoc.
    split; [reflexivity|]. split; [reflexivity|]. no_removal. }
  run_step.
  eexists. split; [reflexivity|]. simpl. repeat (split; [reflexivity|]).
  exists [EvLog "12" []; EvLog "blk" []; EvLog "dat" []; EvLog "idx" []; EvRemove f].
  rewrite <- !app_assoc. split; [reflexivity|]. split; [reflexivity|].
  intros g. split.
  - intros Hg. repeat (apply elem_of_cons in Hg as [Hg|Hg]; [try discriminate|]).
    + injection Hg as ->. auto.
    + inversion Hg.
  - intros [-> _]. do 4 right. left.
Qed.

Lemma final_loop need l : ∀ s,
  ∃ s', foreach (final_body need) l tt s = (Next tt, s')
    ∧ mapBlockIndex s' = mapBlockIndex s ∧ blocktree s' = blocktree s
    ∧ txindex s' = txindex s
    ∧ blocks s' = filter (fun g => ¬ (g ∈ l ∧ reaped need g = true)) <$> blocks s
    ∧ ∃ t, trace s' = trace s ++ t ∧ forallb reap_event t = true
           ∧ ∀ g, EvRemove g ∈ t ↔ g ∈ l ∧ reaped need g = true.
Proof.
  induction l as [|f l IH]; intros s; simpl.
  - exists s. repeat split; try reflexivity.
    + destruct (blocks s) as [d|]; [|reflexivity]. simpl. f_equal.
      symmetry. apply filter_all. intros g [Hg _]. inversion Hg.
    + exists []. rewrite app_nil_r. split; [reflexivity|]. split; [reflexivity|].
      intros g. split; [intros Hg | intros [Hg _]]; inversion Hg.
  - destruct (final_body_run need f s)
      as (s1 & E1 & Hm1 & Hb1 & Hx1 & Hd1 & t1 & Ht1 & Hi1 & Hr1).
    erewrite bind_next by exact E1.
    destruct (IH s1) as (s' & E & Hm & Hb & Hx & Hd & t & Ht & Hi & Hr).
    exists s'. split; [exact E|]. rewrite Hm, Hb, Hx, Hd, Hm1, Hb1, Hx1, Hd1.
    repeat split.
    + destruct (blocks s) as [d|]; [|destruct (reaped need f); reflexivity].
      destruct (reaped need f) eqn:Hf; simpl; f_equal.
      * rewrite list_filter_filter. apply list_filter_iff. intros g.
        rewrite elem_of_cons. split.
        -- intros [Hn Hne] [[-> | Hg] Hrg]; [congruence | tauto].
        -- intros Hn. split; [tauto|]. intros ->. tauto.
      * apply list_filter_iff. intros g. rewrite elem_of_cons. split.
        -- intros Hn [[-> | Hg] Hrg]; [congruence | tauto].
        -- tauto.
    + exists (t1 ++ t). rewrite Ht, Ht1, app_assoc. split; [reflexivity|].
      split; [rewrite forallb_app, Hi1, Hi; reflexivity|].
      intros g. rewrite elem_of_app, Hr1, Hr, elem_of_cons. split.
      * intros [[-> ?] | [? ?]]; auto.
      * intros [[-> | ?] ?]; auto.
Qed.

Lemma final_operation_run need d s :
  blocks s = Some d →
  ∃ s', final_operation need s = (Next tt, s')
    ∧ mapBlockIndex s' = mapBlockIndex s ∧ blocktree s' = blocktree s
    ∧ txindex s' = txindex s
    ∧ blocks s' = Some (filter (fun g => reaped need g = false) d)
    ∧ ∃ t, trace s' = trace s ++ t ∧ forallb reap_event t = true
           ∧ ∀ g, EvRemove g ∈ t ↔ g ∈ d ∧ reaped need g = true.
Proof.
  intros Hd. unfold final_operation. rewrite Hd.
  destruct (final_loop need d s) as (s' & E & Hm & Hb & Hx & Hd' & t & Ht & Hi & Hr).
  exists s'. repeat split; try assumption.
  - rewrite Hd', Hd. simpl. f_equal. apply filter_ext_in. intros g Hg.
    destruct (reaped need g); intuition congruence.
  - exists t. auto.
Qed.

Lemma final_operation_missing need s :
  blocks s = None →
  final_operation need s =
    (GotoFail, add_trace [EvLog "Could not open blocks directory" []] s).
Proof. intros Hd. unfold final_operation. rewrite Hd. reflexivity. Qed.

End Passes.

(** ** Whole runs *)

Section Run.
Context `{Consts}.

Lemma PurgeDB_body_ok e s :
  prelude_ok e = true →
  PurgeDB_body e s =
    (setNeed ← first_pass (Height e);
     setDelete ← second_pass (Height e) setNeed;
     third_pass e setDelete;; final_operation setNeed) (after_prelude e s).
Proof.
  unfold prelude_ok. rewrite !andb_true_iff, negb_true_iff.
  intros [[[Hl Hi] Ha] Hh].
  unfold PurgeDB_body, LoadBlockIndex, ActivateBestChain. rewrite Hl, Hh. simpl.
  do 3 run_step. erewrite bind_next by (rewrite Hi; reflexivity). simpl.
  run_step. erewrite bind_next by reflexivity. rewrite Ha. simpl.
  do 3 run_step. unfold after_prelude, add_trace, set_mapBlockIndex. simpl.
  rewrite <- !app_assoc. reflexivity.
Qed.

Lemma PurgeDB_abort e s :
  prelude_ok e = false →
  ∃ msg t,
    failure_of e s = Some msg
    ∧ PurgeDB e s =
        add_trace (t ++ [EvLog msg []; EvUnlock; EvExit 0])
          (if try_lock e && LoadBlockIndex_ok e
           then set_mapBlockIndex (blocktree s) s else s)
    ∧ forallb plain_log t = true.
Proof.
  unfold prelude_ok, failure_of, PurgeDB, PurgeDB_body, LoadBlockIndex, ActivateBestChain.
  destruct (try_lock e); simpl.
  2:{ intros _. eexists; exists []. split; [reflexivity|]. split; [|reflexivity].
      unfold add_trace. simpl. rewrite <- !app_assoc. reflexivity. }
  destruct (LoadBlockIndex_ok e); simpl.
  2:{ intros _. eexists; exists [EvLog "Are you sure you want to purge?!!!!" []; EvLog "Loading databases" []]. split; [reflexivity|]. split; [|reflexivity].
      unfold add_trace. simpl. rewrite <- !app_assoc. reflexivity. }
  destruct (ActivateBestChain_ok e); simpl.
  2:{ intros _. eexists; exists [EvLog "Are you sure you want to purge?!!!!" []; EvLog "Loading databases" []]. split; [reflexivity|]. split; [|reflexivity].
      unfold add_trace. simpl. rewrite <- !app_assoc. reflexivity. }
  destruct (Height e <=? MIN_HISTORY); simpl; [|discriminate].
  intros _. eexists; exists [EvLog "Are you sure you want to purge?!!!!" []; EvLog "Loading databases" [];
                      EvLog "Tip is block %ld\n" [Height e]]. split; [reflexivity|]. split; [|reflexivity].
  unfold add_trace. simpl. rewrite <- !app_assoc. reflexivity.
Qed.

Lemma plain_log_mutation t : forallb plain_log t = true → forallb mutation_event t = true.
Proof.
  rewrite !forallb_forall. intros Hp ev Hev. unfold mutation_event.
  rewrite (Hp ev Hev). reflexivity.
Qed.

Lemma PurgeDB_ok e s :
  prelude_ok e = true →
  let m0 := blocktree s in
  let need := File_Identifier_Set (Height e) m0 in
  let D := Prunable_Block_Set (Height e) m0 in
  let s' := PurgeDB e s in
  ∃ t1 t2,
    mapBlockIndex s' = flipped D m0 ∧ blocktree s' = flipped D m0
    ∧ txindex s' ⊆ txindex s
    ∧ blocks s' = (filter (fun g => reaped need g = false) <$> blocks s)
    ∧ trace s' = trace s ++ t1 ++ t2 ++ [EvUnlock; EvExit 0]
    ∧ forallb mutation_event t1 = true
    ∧ (∀ k r, k ∈ D → m0 !! k = Some r →
              EvWriteBlockIndex k (clear_data_undo r) ∈ t1)
    ∧ (D = ∅ → txindex s' = txindex s ∧ forallb plain_log t1 = true)
    ∧ match blocks s with
      | Some d => forallb reap_event t2 = true
                  ∧ ∀ g, EvRemove g ∈ t2 ↔ g ∈ d ∧ reaped need g = true
      | None => t2 = [EvLog "Could not open blocks directory" []]
      end.
Proof.
  intros Hok m0 need D s'. subst s'. unfold PurgeDB.
  rewrite (PurgeDB_body_ok e s Hok).
  destruct (first_pass_run (Height e) (after_prelude e s)) as (ta & Ea & La).
  erewrite bind_next by exact Ea. clear Ea.
  destruct (second_pass_run (Height e) (add_trace ta (after_prelude e s)))
    as (tb & Eb & Lb).
  change (mapBlockIndex (add_trace ta (after_prelude e s))) with m0 in Eb.
  change (mapBlockIndex (after_prelude e s)) with m0.
  fold need D in Eb |- *.
  erewrite bind_next by exact Eb. clear Eb.
  destruct (third_pass_run e D (add_trace tb (add_trace ta (after_prelude e s))))
    as (s3 & E3 & Hm3 & Hb3 & Hd3 & Hx3 & tc & Ht3 & Lc & Hw3); [reflexivity|].
  erewrite bind_next by exact E3.
  change (mapBlockIndex (add_trace tb (add_trace ta (after_prelude e s)))) with m0 in *.
  simpl in Hd3, Hx3, Ht3.
  set (pre := [EvLog "Are you sure you want to purge?!!!!" [];
               EvLog "Loading databases" [];
               EvLog "Tip is block %ld\n" [Height e]]) in *.
  exists (pre ++ ta ++ tb ++ tc).
  assert (Hmut : forallb mutation_event (pre ++ ta ++ tb ++ tc) = true).
  { rewrite !forallb_app, (plain_log_mutation ta La), (plain_log_mutation tb Lb), Lc.
    reflexivity. }
  assert (Hwr : ∀ k r, k ∈ D → m0 !! k = Some r →
                  EvWriteBlockIndex k (clear_data_undo r) ∈ pre ++ ta ++ tb ++ tc).
  { intros k r Hk Hl. rewrite !elem_of_app. do 3 right. eauto. }
  assert (Hidle : D = ∅ → txindex s3 = txindex s
                          ∧ forallb plain_log (pre ++ ta ++ tb ++ tc) = true).
  { intros HD. rewrite HD, third_pass_empty in E3. injection E3 as <-.
    split; [reflexivity|]. simpl in Ht3.
    assert (tc = []) as ->.
    { apply (app_inv_head (((trace s ++ pre) ++ ta) ++ tb)).
      rewrite app_nil_r. symmetry. exact Ht3. }
    rewrite !forallb_app, La, Lb. reflexivity. }
  clear E3.
  destruct (blocks s) as [d|] eqn:Hd.
  - destruct (final_operation_run need d s3) as
      (s4 & E4 & Hm4 & Hb4 & Hx4 & Hd4 & td & Ht4 & Ld & Hr4); [congruence|].
    rewrite E4. simpl. exists td.
    rewrite Hm4, Hb4, Hx4, Hd4, Ht4, Ht3, Hm3, Hb3.
    split_and!; try assumption; try reflexivity.
    rewrite <- !app_assoc. reflexivity.
  - rewrite final_operation_missing by congruence. simpl.
    exists [EvLog "Could not open blocks directory" []].
    rewrite Hm3, Hb3, Hd3, Ht3.
    split_and!; try assumption; try reflexivity.
    rewrite <- !app_assoc. reflexivity.
Qed.

End Run.

(** ** The claims *)

(** *** The loop over the blocks directory *)

Lemma reaped_true need f : reaped need f = true ↔ reap_condition need f.
Proof.
  unfold reaped, reap_condition, CLib.compare3.
  rewrite !andb_true_iff, Nat.eqb_eq, negb_andb, orb_true_iff, !negb_involutive,
    !String.eqb_eq.
  destruct (CLib.sscanf_d_dat (CLib.advance 3 f)) as [idx|].
  - rewrite negb_true_iff, bool_decide_eq_false. split.
    + intros [[Hlen Htag] Hidx]. split; [exact Hlen|]. split; [tauto|]. eauto.
    + intros (Hlen & Htag & idx' & [= <-] & Hidx). tauto.
  - split; [intros [_ [=]] | intros (_ & _ & idx' & [=] & _)].
Qed.

Lemma reaped_false need f : reaped need f = false ↔ ¬ reap_condition need f.
Proof. rewrite <- reaped_true. destruct (reaped need f); split; congruence. Qed.

(** *** The conversion of the file index *)

Lemma isdigit_digit_val c : CLib.isdigit c = true → 0 <= CLib.digit_val c <= 9.
Proof.
  unfold CLib.isdigit, CLib.digit_val.
  rewrite andb_true_iff, !N.leb_le. lia.
Qed.

Lemma scan_digits_bound s : ∀ acc,
  0 <= acc →
  acc <= CLib.scan_digits acc s < (acc + 1) * 10 ^ Z.of_nat (String.length s).
Proof.
  induction s as [|c r IH]; intros acc Hacc; simpl CLib.scan_digits.
  - simpl. lia.
  - change (String.length (String c r)) with (S (String.length r)).
    rewrite Nat2Z.inj_succ, Z.pow_succ_r by lia.
    assert (Hpow : 0 < 10 ^ Z.of_nat (String.length r)) by (apply Z.pow_pos_nonneg; lia).
    destruct (CLib.isdigit c) eqn:Hc.
    + pose proof (isdigit_digit_val c Hc) as Hd.
      specialize (IH (10 * acc + CLib.digit_val c) ltac:(lia)). nia.
    + nia.
Qed.

Lemma skip_space_length s :
  (String.length (CLib.skip_space s) <= String.length s)%nat.
Proof.
  induction s as [|c r IH]; simpl; [lia|].
  destruct (CLib.isspace c); simpl; lia.
Qed.

(** [%d] on at most nine characters yields a value that fits an [int]. *)
Lemma scan_d_bound s z :
  (String.length s <= 9)%nat → CLib.scan_d s = Some z → - 1000000000 < z < 1000000000.
Proof.
  intros Hlen. unfold CLib.scan_d.
  pose proof (skip_space_length s) as Hskip.
  assert (Hrun : ∀ s2, (String.length s2 <= 9)%nat →
                       0 <= CLib.scan_digits 0 s2 < 1000000000).
  { intros s2 H2. pose proof (scan_digits_bound s2 0 ltac:(lia)) as Hb.
    assert (Hp : 10 ^ Z.of_nat (String.length s2) <= 10 ^ 9)
      by (apply Z.pow_le_mono_r; lia).
    change (10 ^ 9) with 1000000000 in Hp. lia. }
  destruct (CLib.skip_space s) as [|c r] eqn:Hs1; [discriminate|].
  simpl in Hskip.
  assert (Hplain : (if CLib.isdigit c
                    then Some (CLib.scan_digits 0 (String c r)) else None) = Some z →
                   - 1000000000 < z < 1000000000).
  { pose proof (Hrun (String c r) ltac:(simpl; lia)) as Hv. revert Hv.
    generalize (CLib.scan_digits 0 (String c r)). intros v Hv.
    destruct (CLib.isdigit c); [|discriminate]. intros [= <-]. lia. }
  assert (Hsigned : ∀ neg : bool,
            match r with
            | String c' _ =>
                if CLib.isdigit c'
                then Some (if neg then - CLib.scan_digits 0 r else CLib.scan_digits 0 r)
                else None
            | EmptyString => None
            end = Some z → - 1000000000 < z < 1000000000).
  { intros neg. destruct r as [|c' r']; [discriminate|].
    pose proof (Hrun (String c' r') ltac:(simpl in *; lia)) as Hv. revert Hv.
    generalize (CLib.scan_digits 0 (String c' r')). intros v Hv.
    destruct (CLib.isdigit c'); [|discriminate]. intros [= <-].
    destruct neg; lia. }
  destruct c as [[] [] [] [] [] [] [] []];
    first [exact Hplain | exact (Hsigned true) | exact (Hsigned false)].
Qed.

Lemma advance_length n s :
  String.length (CLib.advance n s) = (String.length s - n)%nat.
Proof.
  revert s. induction n as [|n IH]; intros s; simpl.
  - destruct s; simpl; lia.
  - destruct s as [|c r]; simpl; [reflexivity|apply IH].
Qed.

(** X7: the index stored by line 113 is the converted value: it fits [idx]. *)
Lemma reaper_index_fits_int fname idx :
  String.length fname = 12%nat →
  CLib.sscanf_d_dat (CLib.advance 3 fname) = Some idx →
  - 2 ^ 31 <= idx < 2 ^ 31.
Proof.
  intros Hlen Hconv.
  assert (- 1000000000 < idx < 1000000000); [|lia].
  apply (scan_d_bound (CLib.advance 3 fname)); [|exact Hconv].
  rewrite advance_length, Hlen. simpl. lia.
Qed.

(** On a decimal index followed by ".dat", [%d] converts the digits. *)
Lemma scan_d_decimal s :
  decimal_index_dat s = true → CLib.scan_d s = Some (CLib.scan_digits 0 s).
Proof.
  destruct s as [|c r]; [discriminate|]. simpl decimal_index_dat.
  rewrite andb_true_iff. intros [Hc _]. unfold CLib.scan_d.
  destruct c as [[] [] [] [] [] [] [] []]; try discriminate Hc; reflexivity.
Qed.

Lemma reaped_well_formed need f :
  String.length f = 12%nat →
  substring 0 3 f = "blk"%string ∨ substring 0 3 f = "rev"%string →
  decimal_index_dat (CLib.advance 3 f) = true →
  reaped need f = negb (bool_decide (CLib.scan_digits 0 (CLib.advance 3 f) ∈ need)).
Proof.
  intros Hlen Htag Hidx. unfold reaped, CLib.sscanf_d_dat, CLib.compare3.
  rewrite (scan_d_decimal _ Hidx), Hlen.
  destruct Htag as [-> | ->]; reflexivity.
Qed.

Lemma reaped_other_name need f :
  String.length f ≠ 12%nat
  ∨ (substring 0 3 f ≠ "blk"%string ∧ substring 0 3 f ≠ "rev"%string) →
  reaped need f = false.
Proof.
  intros Hother. apply reaped_false. intros (Hlen & Htag & _). tauto.
Qed.

(** C4, as the code has it: the file names the loop is written for have
    12 characters, a tag "blk" or "rev", five decimal digits and ".dat".
    Among the entries with such a name the loop removes exactly those whose
    index is not in the File Identifier Set.  An entry whose name is not 12
    characters long or starts with neither tag is never removed: so
    readme.txt, blk1.dat and the 16-character blk000000001.dat stay, whatever
    the set holds; the 12-character blk00001.dat stays when 1 is in the set
    and is removed when 1 is not. *)
Theorem C4_file_reaper (setNeed : gset Z) (d : list string) (s : State) :
  blocks s = Some d →
  ∃ s' t d',
    final_operation setNeed s = (Next tt, s')
    ∧ trace s' = trace s ++ t
    ∧ blocks s' = Some d'
    ∧ (∀ f, String.length f = 12%nat →
            substring 0 3 f = "blk"%string ∨ substring 0 3 f = "rev"%string →
            decimal_index_dat (CLib.advance 3 f) = true →
            (EvRemove f ∈ t ↔
               f ∈ d ∧ CLib.scan_digits 0 (CLib.advance 3 f) ∉ setNeed)
            ∧ (f ∈ d' ↔
               f ∈ d ∧ CLib.scan_digits 0 (CLib.advance 3 f) ∈ setNeed))
    ∧ (∀ f, String.length f ≠ 12%nat
            ∨ (substring 0 3 f ≠ "blk"%string ∧ substring 0 3 f ≠ "rev"%string) →
            ¬ EvRemove f ∈ t ∧ (f ∈ d' ↔ f ∈ d))
    ∧ (∀ f, f ∈ ["readme.txt"; "blk1.dat"; "blk000000001.dat"]%string →
            ¬ EvRemove f ∈ t ∧ (f ∈ d' ↔ f ∈ d))
    ∧ CLib.scan_digits 0 (CLib.advance 3 "blk00001.dat") = 1
    ∧ (EvRemove "blk00001.dat" ∈ t ↔ "blk00001.dat"%string ∈ d ∧ 1 ∉ setNeed)
    ∧ ("blk00001.dat"%string ∈ d' ↔ "blk00001.dat"%string ∈ d ∧ 1 ∈ setNeed).
Proof.
  intros Hd.
  destruct (final_operation_run setNeed d s Hd)
    as (s' & E & _ & _ & _ & Hd' & t & Ht & _ & Hr).
  exists s', t, (filter (fun g => reaped setNeed g = false) d).
  split; [exact E|]. split; [exact Ht|]. split; [exact Hd'|].
  assert (Hgood : ∀ f, String.length f = 12%nat →
            substring 0 3 f = "blk"%string ∨ substring 0 3 f = "rev"%string →
            decimal_index_dat (CLib.advance 3 f) = true →
            (EvRemove f ∈ t ↔
               f ∈ d ∧ CLib.scan_digits 0 (CLib.advance 3 f) ∉ setNeed)
            ∧ (f ∈ filter (fun g => reaped setNeed g = false) d ↔
               f ∈ d ∧ CLib.scan_digits 0 (CLib.advance 3 f) ∈ setNeed)).
  { intros f Hlen Htag Hidx.
    rewrite Hr, list_elem_of_filter, (reaped_well_formed setNeed f Hlen Htag Hidx).
    rewrite negb_true_iff, negb_false_iff, bool_decide_eq_false, bool_decide_eq_true.
    tauto. }
  assert (Hother : ∀ f, String.length f ≠ 12%nat
            ∨ (substring 0 3 f ≠ "blk"%string ∧ substring 0 3 f ≠ "rev"%string) →
            ¬ EvRemove f ∈ t
            ∧ (f ∈ filter (fun g => reaped setNeed g = false) d ↔ f ∈ d)).
  { intros f Hf. rewrite Hr, list_elem_of_filter, (reaped_other_name setNeed f Hf).
    split; [intros [_ [=]] | tauto]. }
  split; [exact Hgood|]. split; [exact Hother|]. split.
  { intros f Hf. apply Hother. left.
    repeat (apply elem_of_cons in Hf as [-> | Hf]; [discriminate|]). inversion Hf. }
  split; [reflexivity|].
  apply (Hgood "blk00001.dat"%string); [reflexivity | left; reflexivity | reflexivity].
Qed.

(** C10: the name blk-0001.dat has 12 characters and the tag "blk", what
    follows the tag is not a decimal index followed by ".dat", and yet [%d]
    converts it (to -1) and the loop removes the file whenever -1 is not in
    the File Identifier Set.  Leading white space and a plus sign are
    accepted in the same way. *)
Theorem C10_signed_index_is_reaped :
  ∃ fname idx,
    String.length fname = 12%nat
    ∧ substring 0 3 fname = "blk"%string
    ∧ decimal_index_dat (CLib.advance 3 fname) = false
    ∧ CLib.sscanf_d_dat (CLib.advance 3 fname) = Some idx
    ∧ (∀ (setNeed : gset Z) d s,
         blocks s = Some d → fname ∈ d → idx ∉ setNeed →
         ∃ s' t d', final_operation setNeed s = (Next tt, s')
                    ∧ trace s' = trace s ++ t
                    ∧ EvRemove fname ∈ t
                    ∧ blocks s' = Some d' ∧ fname ∉ d')
    ∧ CLib.sscanf_d_dat "   01.dat" = Some 1
    ∧ CLib.sscanf_d_dat "+0001.dat" = Some 1.
Proof.
  exists "blk-0001.dat"%string, (-1).
  split; [reflexivity|]. split; [reflexivity|]. split; [reflexivity|].
  split; [reflexivity|]. split; [|split; reflexivity].
  intros need d s Hd Hin Hidx.
  assert (Hreap : reaped need "blk-0001.dat" = true).
  { apply reaped_true. split; [reflexivity|]. split; [left; reflexivity|].
    exists (-1). split; [reflexivity|exact Hidx]. }
  destruct (final_operation_run need d s Hd)
    as (s' & E & _ & _ & _ & Hd' & t & Ht & _ & Hr).
  exists s', t, (filter (fun g => reaped need g = false) d).
  split; [exact E|]. split; [exact Ht|]. split; [apply Hr; auto|].
  split; [exact Hd'|]. rewrite list_elem_of_filter. intros [Hf _]. congruence.
Qed.

Section Claims.
Context `{Consts}.

(** *** The classification *)

Lemma have_data_or_undo_true r :
  have_data_or_undo r = true ↔
  Z.land (nStatus r) BLOCK_HAVE_DATA ≠ 0 ∨ Z.land (nStatus r) BLOCK_HAVE_UNDO ≠ 0.
Proof.
  unfold have_data_or_undo.
  rewrite orb_true_iff, !negb_true_iff, !Z.eqb_neq. reflexivity.
Qed.

(** C1: the second pass puts a block record into the Prunable Block Set
    if and only if its height plus the retention window is below the tip
    height, it has the data or the undo flag, and its file-id is not in the
    File Identifier Set built by the first pass.  In particular a block that
    shares its file-id with a block inside the window is never selected,
    however old it is. *)
Theorem C1_prunable_iff (tip : Z) (s : State) :
  ∃ setNeed setDelete s1 s2,
    first_pass tip s = (Next setNeed, s1)
    ∧ second_pass tip setNeed s1 = (Next setDelete, s2)
    ∧ (∀ k, k ∈ setDelete ↔
         ∃ r, mapBlockIndex s !! k = Some r
              ∧ nHeight r + MIN_HISTORY < tip
              ∧ (Z.land (nStatus r) BLOCK_HAVE_DATA ≠ 0
                 ∨ Z.land (nStatus r) BLOCK_HAVE_UNDO ≠ 0)
              ∧ nFile r ∉ setNeed)
    ∧ (∀ k r k' r',
         mapBlockIndex s !! k = Some r → mapBlockIndex s !! k' = Some r' →
         nHeight r' + MIN_HISTORY >= tip → nFile r = nFile r' →
         k ∉ setDelete).
Proof.
  destruct (first_pass_run tip s) as (t1 & E1 & _).
  destruct (second_pass_run tip (add_trace t1 s)) as (t2 & E2 & _).
  change (mapBlockIndex (add_trace t1 s)) with (mapBlockIndex s) in E2.
  eexists _, _, _, _. split; [exact E1|]. split; [exact E2|].
  assert (Hiff : ∀ k, k ∈ Prunable_Block_Set tip (mapBlockIndex s) ↔
            ∃ r, mapBlockIndex s !! k = Some r
              ∧ nHeight r + MIN_HISTORY < tip
              ∧ (Z.land (nStatus r) BLOCK_HAVE_DATA ≠ 0
                 ∨ Z.land (nStatus r) BLOCK_HAVE_UNDO ≠ 0)
              ∧ nFile r ∉ File_Identifier_Set tip (mapBlockIndex s)).
  { intros k. rewrite elem_of_Prunable_Block_Set.
    split; intros (r & Hl & Hh & Hf & Hn); exists r;
      (split; [exact Hl|]); (split; [exact Hh|]); (split; [|exact Hn]);
      apply have_data_or_undo_true; exact Hf. }
  split; [exact Hiff|].
  intros k r k' r' Hk Hk' Hwin Hfile Hin.
  apply Hiff in Hin as (r0 & Hl & _ & _ & Hn). apply Hn.
  apply elem_of_File_Identifier_Set. exists k', r'.
  split; [exact Hk'|]. split; [lia|]. congruence.
Qed.

(** C2: after the first pass the file-id of every record with
    height + retention window >= tip height is in the File Identifier
    Set, whatever the status flags of the record are. *)
Theorem C2_retention_coverage (tip : Z) (s : State) :
  ∃ setNeed s1,
    first_pass tip s = (Next setNeed, s1)
    ∧ ∀ k r, mapBlockIndex s !! k = Some r →
             nHeight r + MIN_HISTORY >= tip → nFile r ∈ setNeed.
Proof.
  destruct (first_pass_run tip s) as (t1 & E1 & _).
  eexists _, _. split; [exact E1|].
  intros k r Hk Hwin. apply elem_of_File_Identifier_Set.
  exists k, r. split; [exact Hk|]. split; [lia|reflexivity].
Qed.

(** *** Whole runs: what is touched, in which order, and how a run ends *)

Lemma prelude_ok_history e : prelude_ok e = true → MIN_HISTORY < Height e.
Proof.
  unfold prelude_ok. rewrite !andb_true_iff, negb_true_iff, Z.leb_gt. tauto.
Qed.

Lemma plain_log_is_log t : forallb plain_log t = true → forallb is_log t = true.
Proof.
  rewrite !forallb_forall. intros Hp ev Hev. specialize (Hp ev Hev).
  unfold plain_log in Hp. apply andb_true_iff in Hp. tauto.
Qed.

(** C3: with a tip at or below the retention window the run jumps to
    [fail] after logging "Not enough history to prune": the block records,
    the transaction index and the blocks directory are as before, the
    in-memory index is as loaded, and the run emits nothing but log lines,
    the unlock and the exit.  An event of the index mutation or the removal
    of a file occurs only in runs with the tip above the window. *)
Theorem C3_insufficient_history (e : Env) (s : State) :
  let s' := PurgeDB e s in
  ∃ t, trace s' = trace s ++ t ++ [EvUnlock; EvExit 0]
    ∧ (Height e <= MIN_HISTORY →
         blocktree s' = blocktree s
         ∧ txindex s' = txindex s
         ∧ blocks s' = blocks s
         ∧ (mapBlockIndex s' = mapBlockIndex s ∨ mapBlockIndex s' = blocktree s)
         ∧ forallb is_log t = true
         ∧ (try_lock e = true → LoadBlockIndex_ok e = true →
            ActivateBestChain_ok e = true →
            EvLog "Not enough history to prune" [] ∈ t))
    ∧ (∀ ev, ev ∈ t → is_index_event ev || is_remove ev = true →
             MIN_HISTORY < Height e).
Proof.
  intros s'. subst s'. destruct (prelude_ok e) eqn:Hpre.
  - pose proof (prelude_ok_history e Hpre) as Hgt.
    destruct (PurgeDB_ok e s Hpre) as (t1 & t2 & _ & _ & _ & _ & Ht & _).
    exists (t1 ++ t2). rewrite Ht, <- !app_assoc.
    split; [reflexivity|]. split; [lia|]. intros; exact Hgt.
  - destruct (PurgeDB_abort e s Hpre) as (msg & t & Hmsg & Erun & Lt).
    pose proof (plain_log_is_log t Lt) as Lt'.
    exists (t ++ [EvLog msg []]). rewrite Erun. split.
    { destruct (try_lock e && LoadBlockIndex_ok e); simpl;
        rewrite <- !app_assoc; reflexivity. }
    split.
    + intros Hh.
      split; [destruct (try_lock e && LoadBlockIndex_ok e); reflexivity|].
      split; [destruct (try_lock e && LoadBlockIndex_ok e); reflexivity|].
      split; [destruct (try_lock e && LoadBlockIndex_ok e); reflexivity|].
      split; [destruct (try_lock e && LoadBlockIndex_ok e); [right|left]; reflexivity|].
      split; [rewrite forallb_app, Lt'; reflexivity|].
      intros Hl Hi Ha. unfold failure_of in Hmsg.
      rewrite Hl, Hi, Ha in Hmsg. simpl in Hmsg.
      apply Z.leb_le in Hh. rewrite Hh in Hmsg. injection Hmsg as <-.
      apply elem_of_app. right. left.
    + intros ev Hev Hd. exfalso.
      apply elem_of_app in Hev as [Hev|Hev].
      * apply list_elem_of_In in Hev. rewrite forallb_forall in Lt'.
        specialize (Lt' ev Hev). destruct ev; discriminate.
      * apply list_elem_of_singleton in Hev. subst ev. discriminate.
Qed.

Lemma lookup_flipped D (m : gmap uint256 CBlockIndex) k :
  flipped D m !! k =
  (fun r => if bool_decide (k ∈ D) then clear_data_undo r else r) <$> m !! k.
Proof. unfold flipped. rewrite map_lookup_imap. destruct (m !! k); reflexivity. Qed.

Lemma flipped_same_but_flags D (m : gmap uint256 CBlockIndex) k :
  match m !! k, flipped D m !! k with
  | Some r, Some r' => same_but_flags r r'
  | None, None => True
  | _, _ => False
  end.
Proof.
  rewrite lookup_flipped. destruct (m !! k) as [r|]; simpl; [|exact I].
  case_bool_decide; [apply same_but_flags_clear | apply same_but_flags_refl].
Qed.

Lemma unchanged_same_but_flags (m : gmap uint256 CBlockIndex) k :
  match m !! k, m !! k with
  | Some r, Some r' => same_but_flags r r'
  | None, None => True
  | _, _ => False
  end.
Proof. destruct (m !! k); [apply same_but_flags_refl | exact I]. Qed.

(** Clearing the two flags leaves neither of them set. *)
Lemma land_clear_mask a b c : Z.land (Z.land a (Z.lnot (Z.lor b c))) b = 0.
Proof.
  apply Z.bits_inj'. intros n Hn.
  rewrite !Z.land_spec, Z.lnot_spec, Z.lor_spec, Z.bits_0 by exact Hn.
  destruct (Z.testbit a n), (Z.testbit b n), (Z.testbit c n); reflexivity.
Qed.

Lemma have_data_or_undo_clear r : have_data_or_undo (clear_data_undo r) = false.
Proof.
  unfold have_data_or_undo, clear_data_undo. simpl.
  rewrite land_clear_mask, (Z.lor_comm BLOCK_HAVE_DATA), land_clear_mask. reflexivity.
Qed.

(** C6: the trace of a run splits into a first part without any file
    removal and a second part without any event of the index mutation, so
    every file is removed after the last read, erase and write of the index
    mutation.  In a run that reaches the passes, every prunable block has
    a record with the data flag and the undo flag both off, which is the
    record from before with the two flags cleared; the first part holds
    the write of this record, and both copies of the index hold it at the
    end, whether or not the blocks directory exists; a missing directory
    is noticed in the second part and only leaves the directory as it
    is. *)
Theorem C6_mutation_before_reaping (e : Env) (s : State) :
  let s' := PurgeDB e s in
  ∃ t1 t2,
    trace s' = trace s ++ t1 ++ t2
    ∧ forallb not_remove t1 = true
    ∧ forallb not_index_event t2 = true
    ∧ (prelude_ok e = true →
       (∀ k r, k ∈ Prunable_Block_Set (Height e) (blocktree s) →
               blocktree s !! k = Some r →
               ∃ r', r' = clear_data_undo r
                     ∧ Z.land (nStatus r') BLOCK_HAVE_DATA = 0
                     ∧ Z.land (nStatus r') BLOCK_HAVE_UNDO = 0
                     ∧ nHeight r' = nHeight r
                     ∧ nFile r' = nFile r
                     ∧ EvWriteBlockIndex k r' ∈ t1
                     ∧ blocktree s' !! k = Some r'
                     ∧ mapBlockIndex s' !! k = Some r')
       ∧ (blocks s = None →
          blocks s' = None
          ∧ t2 = [EvLog "Could not open blocks directory" []; EvUnlock; EvExit 0])).
Proof.
  intros s'. subst s'. destruct (prelude_ok e) eqn:Hpre.
  - destruct (PurgeDB_ok e s Hpre)
      as (t1 & t2 & Hm & Hb & _ & Hd & Ht & L1 & Hw & _ & Hfin).
    exists t1, (t2 ++ [EvUnlock; EvExit 0]). split; [exact Ht|].
    split.
    { apply forallb_forall. intros ev Hev. rewrite forallb_forall in L1.
      specialize (L1 ev Hev). destruct ev; try reflexivity. discriminate. }
    split.
    { rewrite forallb_app. apply andb_true_iff. split; [|reflexivity].
      destruct (blocks s) as [d|]; [|subst t2; reflexivity].
      destruct Hfin as [L2 _]. apply forallb_forall. intros ev Hev.
      rewrite forallb_forall in L2. specialize (L2 ev Hev).
      destruct ev; try reflexivity; discriminate. }
    intros _. split.
    + intros k r Hk Hl. exists (clear_data_undo r). split; [reflexivity|].
      split; [apply land_clear_mask|].
      split; [cbn [clear_data_undo nStatus];
              rewrite (Z.lor_comm BLOCK_HAVE_DATA); apply land_clear_mask|].
      split; [reflexivity|]. split; [reflexivity|].
      split; [apply Hw; assumption|].
      rewrite Hm, Hb, lookup_flipped, Hl. simpl.
      rewrite bool_decide_true by exact Hk. split; reflexivity.
    + intros Hnone. rewrite Hnone in Hfin, Hd. subst t2. split; [exact Hd|reflexivity].
  - destruct (PurgeDB_abort e s Hpre) as (msg & t & Hmsg & Erun & Lt).
    exists (t ++ [EvLog msg []; EvUnlock; EvExit 0]), []. rewrite Erun.
    split.
    { destruct (try_lock e && LoadBlockIndex_ok e); simpl;
        rewrite app_nil_r; reflexivity. }
    split.
    { rewrite forallb_app. apply andb_true_iff. split; [|reflexivity].
      apply forallb_forall. intros ev Hev. rewrite forallb_forall in Lt.
      specialize (Lt ev Hev). destruct ev; try reflexivity. discriminate. }
    split; [reflexivity|discriminate].
Qed.

(** C9: a run keeps every block record of the index under its hash, with
    its height and its file-id, and changes no status bit other than the
    data and undo flags; no record is added or removed.  This holds for the
    persistent records and for the in-memory index as it was loaded. *)
Theorem C9_records_kept (e : Env) (s : State) :
  let s' := PurgeDB e s in
  (∀ k, match blocktree s !! k, blocktree s' !! k with
        | Some r, Some r' => same_but_flags r r'
        | None, None => True
        | _, _ => False
        end)
  ∧ dom (blocktree s') = dom (blocktree s)
  ∧ (mapBlockIndex s' = mapBlockIndex s
     ∨ ∀ k, match blocktree s !! k, mapBlockIndex s' !! k with
            | Some r, Some r' => same_but_flags r r'
            | None, None => True
            | _, _ => False
            end).
Proof.
  intros s'. subst s'.
  assert (Hdom : ∀ m m' : gmap uint256 CBlockIndex,
            (∀ k, match m !! k, m' !! k with
                  | Some r, Some r' => same_but_flags r r'
                  | None, None => True
                  | _, _ => False
                  end) → dom m' = dom m).
  { intros m m' Hrel. apply set_eq. intros k. rewrite !elem_of_dom.
    specialize (Hrel k). destruct (m !! k), (m' !! k); try contradiction;
      split; intros [? ?]; eauto; discriminate. }
  destruct (prelude_ok e) eqn:Hpre.
  - destruct (PurgeDB_ok e s Hpre) as (t1 & t2 & Hm & Hb & _).
    rewrite Hm, Hb.
    split; [intros k; apply flipped_same_but_flags|].
    split; [apply Hdom; intros k; apply flipped_same_but_flags|].
    right. intros k. apply flipped_same_but_flags.
  - destruct (PurgeDB_abort e s Hpre) as (msg & t & Hmsg & Erun & Lt).
    rewrite Erun.
    replace (blocktree (add_trace (t ++ [EvLog msg []; EvUnlock; EvExit 0])
               (if try_lock e && LoadBlockIndex_ok e
                then set_mapBlockIndex (blocktree s) s else s)))
      with (blocktree s) by (destruct (try_lock e && LoadBlockIndex_ok e); reflexivity).
    split; [intros k; apply unchanged_same_but_flags|].
    split; [reflexivity|].
    destruct (try_lock e && LoadBlockIndex_ok e); simpl.
    + right. intros k. apply unchanged_same_but_flags.
    + left. reflexivity.
Qed.

Lemma mutation_event_quiet ev : mutation_event ev = true → is_failure ev = false.
Proof.
  unfold mutation_event, plain_log. destruct ev; simpl; try reflexivity.
  rewrite orb_false_r. apply negb_true_iff.
Qed.

Lemma reap_event_quiet ev : reap_event ev = true → is_failure ev = false.
Proof.
  unfold reap_event, plain_log. destruct ev; simpl; try reflexivity.
  rewrite orb_false_r. apply negb_true_iff.
Qed.

Lemma failure_of_is_failure e s msg :
  failure_of e s = Some msg → is_failure (EvLog msg []) = true.
Proof.
  unfold failure_of.
  destruct (try_lock e), (LoadBlockIndex_ok e), (ActivateBestChain_ok e),
    (Height e <=? MIN_HISTORY), (blocks s); simpl; intros [= <-]; reflexivity.
Qed.

Lemma quiet_trace (P : Event → bool) t ev :
  (∀ ev, P ev = true → is_failure ev = false) →
  forallb P t = true → ev ∈ t → is_failure ev = true → False.
Proof.
  intros HP Ht Hev Hf. rewrite forallb_forall in Ht.
  apply list_elem_of_In in Hev. specialize (HP ev (Ht ev Hev)). congruence.
Qed.

(** C7, as the code has it: every run, failed or not, ends by releasing
    the lock and calling [exit(0)], so the exit status is 0 in all cases.  A
    failure shows in the log only: the run logs the message of the check
    that stopped it, and a run that no check stops logs none of the five
    failure messages. *)
Theorem C7_exit_status_and_log (e : Env) (s : State) :
  let s' := PurgeDB e s in
  exit_status s' = Some 0
  ∧ ∃ t, trace s' = trace s ++ t ++ [EvUnlock; EvExit 0]
         ∧ ∀ ev, (ev ∈ t ∧ is_failure ev = true) ↔
                 (∃ msg, failure_of e s = Some msg ∧ ev = EvLog msg []).
Proof.
  intros s'. subst s'.
  assert (Hexit : ∀ st t, trace st = trace s ++ t ++ [EvUnlock; EvExit 0] →
                          exit_status st = Some 0).
  { intros st t Ht. unfold exit_status. rewrite Ht.
    replace (trace s ++ t ++ [EvUnlock; EvExit 0])
      with ((trace s ++ t ++ [EvUnlock]) ++ [EvExit 0])
      by (rewrite <- !app_assoc; reflexivity).
    rewrite last_snoc. reflexivity. }
  destruct (prelude_ok e) eqn:Hpre.
  - destruct (PurgeDB_ok e s Hpre)
      as (t1 & t2 & _ & _ & _ & _ & Ht & L1 & _ & _ & Hfin).
    assert (Ht' : trace (PurgeDB e s) = trace s ++ (t1 ++ t2) ++ [EvUnlock; EvExit 0])
      by (rewrite Ht, <- !app_assoc; reflexivity).
    split; [exact (Hexit _ _ Ht')|]. exists (t1 ++ t2). split; [exact Ht'|].
    assert (Hfail : failure_of e s =
                    match blocks s with
                    | None => Some "Could not open blocks directory"%string
                    | Some _ => None
                    end).
    { unfold failure_of. unfold prelude_ok in Hpre.
      rewrite !andb_true_iff, negb_true_iff in Hpre.
      destruct Hpre as [[[-> ->] ->] ->]. reflexivity. }
    rewrite Hfail. intros ev. split.
    + intros [Hev Hf]. apply elem_of_app in Hev as [Hev|Hev].
      { exfalso. exact (quiet_trace _ _ _ mutation_event_quiet L1 Hev Hf). }
      destruct (blocks s) as [d|].
      * exfalso. destruct Hfin as [L2 _].
        exact (quiet_trace _ _ _ reap_event_quiet L2 Hev Hf).
      * subst t2. apply list_elem_of_singleton in Hev. eauto.
    + intros (msg & Hmsg & ->). destruct (blocks s) as [d|]; [discriminate|].
      injection Hmsg as <-. subst t2. split; [|reflexivity].
      apply elem_of_app. right. left.
  - destruct (PurgeDB_abort e s Hpre) as (msg & t & Hmsg & Erun & Lt).
    assert (Ht' : trace (PurgeDB e s) =
                  trace s ++ (t ++ [EvLog msg []]) ++ [EvUnlock; EvExit 0]).
    { rewrite Erun. destruct (try_lock e && LoadBlockIndex_ok e); simpl;
        rewrite <- !app_assoc; reflexivity. }
    split; [exact (Hexit _ _ Ht')|]. exists (t ++ [EvLog msg []]).
    split; [exact Ht'|]. intros ev. split.
    + intros [Hev Hf]. apply elem_of_app in Hev as [Hev|Hev].
      * exfalso. refine (quiet_trace plain_log t ev _ Lt Hev Hf).
        intros ev' Hp. unfold plain_log in Hp. apply andb_true_iff in Hp.
        apply negb_true_iff. tauto.
      * apply list_elem_of_singleton in Hev. eauto.
    + intros (msg' & Hmsg' & ->). rewrite Hmsg in Hmsg'. injection Hmsg' as <-.
      split; [apply elem_of_app; right; left|].
      exact (failure_of_is_failure e s msg Hmsg).
Qed.

(** The value returned by [ReadBlockFromDisk] has no influence on the
    third pass: only the transactions left in [block.vtx] matter. *)
Lemma third_pass_body_ignores_result (e1 e2 : Env) (k : uint256) (s : State) :
  (disk_block e1 k).2 = (disk_block e2 k).2 →
  third_pass_body e1 tt k s = third_pass_body e2 tt k s.
Proof.
  intros Hvtx. unfold third_pass_body.
  do 2 (erewrite bind_next by reflexivity). symmetry.
  do 2 (erewrite bind_next by reflexivity).
  destruct (disk_block e1 k) as [ok1 vtx1], (disk_block e2 k) as [ok2 vtx2].
  simpl in Hvtx. subst vtx2. reflexivity.
Qed.

(** *** Running the pass again *)

Lemma File_Identifier_Set_flipped tip D m :
  File_Identifier_Set tip (flipped D m) = File_Identifier_Set tip m.
Proof.
  apply set_eq. intros f. rewrite !elem_of_File_Identifier_Set. split.
  - intros (k & r' & Hl & Hp & Hf). rewrite lookup_flipped in Hl.
    destruct (m !! k) as [r|] eqn:Hk; [|discriminate]. simpl in Hl.
    injection Hl as <-. exists k, r. split; [exact Hk|].
    destruct (bool_decide (k ∈ D)); auto.
  - intros (k & r & Hl & Hp & Hf).
    exists k, (if bool_decide (k ∈ D) then clear_data_undo r else r).
    split; [rewrite lookup_flipped, Hl; reflexivity|].
    destruct (bool_decide (k ∈ D)); auto.
Qed.

Lemma Prunable_Block_Set_flipped tip m :
  Prunable_Block_Set tip (flipped (Prunable_Block_Set tip m) m) = ∅.
Proof.
  apply set_eq. intros k. split; [|intros Hk; set_solver].
  intros Hk. exfalso. apply elem_of_Prunable_Block_Set in Hk as (r' & Hl & Hh & Hf & Hn).
  rewrite File_Identifier_Set_flipped in Hn. rewrite lookup_flipped in Hl.
  destruct (m !! k) as [r|] eqn:Hk; [|discriminate]. simpl in Hl.
  case_bool_decide as HD; injection Hl as <-.
  - rewrite have_data_or_undo_clear in Hf. discriminate.
  - apply HD, elem_of_Prunable_Block_Set. exists r. auto.
Qed.

Lemma filter_idemp {A} (P : A → Prop) `{∀ x, Decision (P x)} (l : list A) :
  filter P (filter P l) = filter P l.
Proof. apply list_filter_filter_l. auto. Qed.

(** C8: after a first run that reached the passes, the two passes of the
    classification, with the same tip, give the same File Identifier Set
    and an empty Prunable Block Set, on the in-memory index the first run
    leaves and on the index the second run loads.  The second run leaves the index, the transaction index and the
    blocks directory as the first run left them and emits no event of the
    index mutation and no file removal.  Whatever the blocks directory
    holds when the second run starts (files that an interrupted first run
    did not get to), the second run leaves exactly what the first run would
    leave of it. *)
Theorem C8_second_run (e : Env) (s : State) :
  prelude_ok e = true →
  let s1 := PurgeDB e s in
  let s2 := PurgeDB e s1 in
  (∃ setNeed sa sb,
     first_pass (Height e) s1 = (Next setNeed, sa)
     ∧ second_pass (Height e) setNeed sa = (Next ∅, sb)
     ∧ setNeed = File_Identifier_Set (Height e) (blocktree s))
  ∧ (∃ setNeed sa sb,
     first_pass (Height e) (after_prelude e s1) = (Next setNeed, sa)
     ∧ second_pass (Height e) setNeed sa = (Next ∅, sb)
     ∧ setNeed = File_Identifier_Set (Height e) (blocktree s))
  ∧ blocktree s2 = blocktree s1
  ∧ mapBlockIndex s2 = mapBlockIndex s1
  ∧ txindex s2 = txindex s1
  ∧ blocks s2 = blocks s1
  ∧ (∃ t, trace s2 = trace s1 ++ t
          ∧ forallb not_index_event t = true ∧ forallb not_remove t = true)
  ∧ (∀ d, blocks (PurgeDB e (set_blocks (Some d) s1))
          = blocks (PurgeDB e (set_blocks (Some d) s))).
Proof.
  intros Hpre s1 s2.
  destruct (PurgeDB_ok e s Hpre)
    as (t1 & t2 & Hm1 & Hb1 & _ & Hd1 & _).
  fold s1 in Hm1, Hb1, Hd1.
  assert (Hneed : File_Identifier_Set (Height e) (blocktree s1)
                  = File_Identifier_Set (Height e) (blocktree s))
    by (rewrite Hb1; apply File_Identifier_Set_flipped).
  assert (Hdel : Prunable_Block_Set (Height e) (blocktree s1) = ∅)
    by (rewrite Hb1; apply Prunable_Block_Set_flipped).
  split.
  { destruct (first_pass_run (Height e) s1) as (ta & Ea & _).
    destruct (second_pass_run (Height e) (add_trace ta s1)) as (tb & Eb & _).
    change (mapBlockIndex (add_trace ta s1)) with (mapBlockIndex s1) in Eb.
    rewrite Hm1, <- Hb1 in Ea, Eb.
    rewrite Hdel in Eb. eexists _, _, _. split; [exact Ea|].
    split; [exact Eb|exact Hneed]. }
  split.
  { destruct (first_pass_run (Height e) (after_prelude e s1)) as (ta & Ea & _).
    destruct (second_pass_run (Height e) (add_trace ta (after_prelude e s1)))
      as (tb & Eb & _).
    change (mapBlockIndex (add_trace ta (after_prelude e s1))) with (blocktree s1) in Eb.
    change (mapBlockIndex (after_prelude e s1)) with (blocktree s1) in Ea.
    rewrite Hdel in Eb. eexists _, _, _. split; [exact Ea|].
    split; [exact Eb|exact Hneed]. }
  destruct (PurgeDB_ok e s1 Hpre)
    as (u1 & u2 & Hm2 & Hb2 & _ & Hd2 & Ht2 & L1 & _ & Hidle & Hfin).
  fold s2 in Hm2, Hb2, Hd2, Ht2, Hidle.
  rewrite Hdel, flipped_empty in Hm2, Hb2. rewrite Hneed in Hd2. rewrite Hneed in Hfin.
  destruct (Hidle Hdel) as [Hx2 Lu1].
  split; [exact Hb2|]. split; [congruence|]. split; [exact Hx2|].
  assert (Hsame : blocks s2 = blocks s1).
  { rewrite Hd2, Hd1. destruct (blocks s) as [d|]; [|reflexivity].
    simpl. f_equal. apply filter_idemp. }
  split; [exact Hsame|]. split.
  - exists (u1 ++ u2 ++ [EvUnlock; EvExit 0]). split; [exact Ht2|].
    assert (Hu1 : ∀ ev, ev ∈ u1 → is_log ev = true).
    { intros ev Hev. apply list_elem_of_In in Hev.
      pose proof (plain_log_is_log u1 Lu1) as Hl. rewrite forallb_forall in Hl. auto. }
    assert (Hu2 : ∀ ev, ev ∈ u2 → is_log ev = true).
    { intros ev Hev. rewrite Hd1 in Hfin. destruct (blocks s) as [d|]; simpl in Hfin.
      - destruct Hfin as [L2 Hr]. apply list_elem_of_In in Hev as Hev'.
        rewrite forallb_forall in L2. specialize (L2 ev Hev').
        destruct ev; try discriminate; [reflexivity|]. exfalso.
        apply Hr in Hev as [Hin Hreap].
        apply list_elem_of_filter in Hin as [Hkeep _]. congruence.
      - subst u2. apply list_elem_of_singleton in Hev. subst ev. reflexivity. }
    split; apply forallb_forall; intros ev Hev; apply list_elem_of_In in Hev;
      rewrite !elem_of_app in Hev;
      destruct Hev as [Hev|[Hev|Hev]];
      try (apply Hu1 in Hev; destruct ev; try discriminate; reflexivity);
      try (apply Hu2 in Hev; destruct ev; try discriminate; reflexivity);
      repeat (apply elem_of_cons in Hev as [-> | Hev]; [reflexivity|]);
      inversion Hev.
  - intros d.
    destruct (PurgeDB_ok e (set_blocks (Some d) s1) Hpre)
      as (? & ? & _ & _ & _ & Hda & _).
    destruct (PurgeDB_ok e (set_blocks (Some d) s) Hpre)
      as (? & ? & _ & _ & _ & Hdb & _).
    change (blocktree (set_blocks (Some d) s1)) with (blocktree s1) in Hda.
    rewrite Hneed in Hda. rewrite Hda, Hdb. reflexivity.
Qed.

End Claims.

(** ** The claims on concrete data *)

(** The scenario of the spec: tip 5000, window 1000, block A at height
    3900 shares file 7 with block B at height 4200; A is not selected. *)
Lemma C1_scenario :
  ∃ setNeed setDelete s1 s2,
    @first_pass example_consts 5000 scenario_state = (Next setNeed, s1)
    ∧ @second_pass example_consts 5000 setNeed s1 = (Next setDelete, s2)
    ∧ 7 ∈ setNeed ∧ 1%N ∉ setDelete.
Proof.
  destruct (@C1_prunable_iff example_consts 5000 scenario_state)
    as (need & del & s1 & s2 & E1 & E2 & Hiff & Hshare).
  exists need, del, s1, s2. split; [exact E1|]. split; [exact E2|]. split.
  - destruct (decide (7 ∈ need)) as [Hin|Hout]; [exact Hin|]. exfalso.
    assert (Hdel : 1%N ∈ del).
    { apply Hiff. exists blockA. split; [reflexivity|]. split; [simpl; lia|].
      split; [left; discriminate|exact Hout]. }
    revert Hdel. apply (Hshare 1%N blockA 2%N blockB);
      [reflexivity | reflexivity | simpl; lia | reflexivity].
  - apply (Hshare 1%N blockA 2%N blockB);
      [reflexivity | reflexivity | simpl; lia | reflexivity].
Defined.

(** Block B of the scenario has neither flag and still protects file 7. *)
Lemma C2_flagless_block_protects :
  ∃ setNeed s1,
    @first_pass example_consts 5000 scenario_state = (Next setNeed, s1)
    ∧ nStatus blockB = 0 ∧ 7 ∈ setNeed.
Proof.
  destruct (@C2_retention_coverage example_consts 5000 scenario_state)
    as (need & s1 & E1 & Hcov).
  exists need, s1. split; [exact E1|]. split; [reflexivity|].
  apply (Hcov 2%N blockB); [reflexivity | simpl; lia].
Defined.

(** A chain of height 500 with the window of 1000: nothing is touched. *)
Lemma C3_short_chain :
  let s' := @PurgeDB example_consts (env_ok 500) old_state in
  blocktree s' = blocktree old_state
  ∧ txindex s' = txindex old_state
  ∧ blocks s' = blocks old_state
  ∧ ∃ t, trace s' = t ++ [EvUnlock; EvExit 0]
         ∧ forallb is_log t = true
         ∧ EvLog "Not enough history to prune" [] ∈ t.
Proof.
  destruct (@C3_insufficient_history example_consts (env_ok 500) old_state)
    as (t & Ht & Hshort & _).
  destruct Hshort as (Hb & Hx & Hd & _ & Hlog & Hmsg); [simpl; lia|].
  split; [exact Hb|]. split; [exact Hx|]. split; [exact Hd|].
  exists t. split; [exact Ht|]. split; [exact Hlog|].
  apply Hmsg; reflexivity.
Defined.

(** A run stopped by lock contention and a run that completes end with the
    same exit status. *)
Lemma C7_same_exit_status :
  @failure_of example_consts (env_locked 5000) old_state
    = Some "Cannot obtain a lock on data directory. FeedBackCoin Core is probably already running."%string
  ∧ @failure_of example_consts (env_ok 5000) old_state = None
  ∧ exit_status (@PurgeDB example_consts (env_locked 5000) old_state)
    = exit_status (@PurgeDB example_consts (env_ok 5000) old_state).
Proof. split; [reflexivity|]. split; [reflexivity|]. vm_compute. reflexivity. Qed.

(** A directory with a name of the right form, an unrelated file and a name
    that is too short; the set of needed files is empty. *)
Lemma C4_example_directory :
  ∃ s' t d',
    final_operation ∅ (mkState ∅ ∅ ∅ (Some ["blk00001.dat"; "readme.txt"; "blk1.dat"]%string) [])
      = (Next tt, s')
    ∧ trace s' = t
    ∧ blocks s' = Some d'
    ∧ EvRemove "blk00001.dat" ∈ t
    ∧ "readme.txt"%string ∈ d' ∧ "blk1.dat"%string ∈ d'.
Proof.
  destruct (C4_file_reaper ∅ ["blk00001.dat"; "readme.txt"; "blk1.dat"]%string
              (mkState ∅ ∅ ∅ (Some ["blk00001.dat"; "readme.txt"; "blk1.dat"]%string) [])
              eq_refl)
    as (s' & t & d' & E & Ht & Hd' & _ & _ & Hkeep & _ & Hrm & _).
  exists s', t, d'. split; [exact E|]. split; [exact Ht|]. split; [exact Hd'|]. split.
  - apply Hrm. split; [left|apply not_elem_of_empty].
  - split; apply Hkeep; repeat constructor.
Defined.

(** The same file is kept when its index is in the set. *)
Lemma needed_file_is_kept :
  final_operation {[ 1 ]} (mkState ∅ ∅ ∅ (Some ["blk00001.dat"%string]) [])
  = (Next tt, mkState ∅ ∅ ∅ (Some ["blk00001.dat"%string])
                [EvLog "12" []; EvLog "blk" []; EvLog "dat" []]).
Proof. reflexivity. Qed.

(** The name of the spec, [blk000000001.dat], has 16 characters: the loop
    passes over it although its index 1 is not in the set. *)
Lemma C4_sixteen_character_name_kept :
  String.length "blk000000001.dat" = 16%nat
  ∧ CLib.sscanf_d_dat (CLib.advance 3 "blk000000001.dat") = Some 1
  ∧ final_operation ∅ (mkState ∅ ∅ ∅ (Some ["blk000000001.dat"%string]) [])
    = (Next tt, mkState ∅ ∅ ∅ (Some ["blk000000001.dat"%string]) []).
Proof. split; [reflexivity|]. split; reflexivity. Qed.

(** [%d] does not look at what follows the digits: the extension need not
    be ".dat". *)
Lemma sscanf_ignores_what_follows :
  CLib.sscanf_d_dat "00001.xyz" = Some 1 ∧ CLib.sscanf_d_dat "1abcdefgh" = Some 1.
Proof. split; reflexivity. Qed.

(** C5, on the code: no block can be read ([ReadBlockFromDisk] reports a
    failure for each of the two prunable blocks), and the third pass still
    clears the flags of both records, writes both records, and the files of
    both blocks are removed; no transaction index entry is erased. *)
Theorem C5_read_failure_is_ignored :
  let s' := @PurgeDB example_consts (env_unreadable 5000) old_state in
  (disk_block (env_unreadable 5000) 1%N).1 = false
  ∧ (disk_block (env_unreadable 5000) 2%N).1 = false
  ∧ blocktree old_state !! 1%N = Some (mkBlockIndex 100 1 24)
  ∧ blocktree old_state !! 2%N = Some (mkBlockIndex 200 2 24)
  ∧ blocktree s' !! 1%N = Some (mkBlockIndex 100 1 0)
  ∧ blocktree s' !! 2%N = Some (mkBlockIndex 200 2 0)
  ∧ In (EvWriteBlockIndex 1%N (mkBlockIndex 100 1 0)) (trace s')
  ∧ In (EvWriteBlockIndex 2%N (mkBlockIndex 200 2 0)) (trace s')
  ∧ txindex s' = txindex old_state
  ∧ blocks s' = Some ["readme.txt"%string]
  ∧ exit_status s' = Some 0.
Proof.
  vm_compute. repeat split; auto 20.
Qed.

(** A first run on two old blocks, then a second run: the second run
    changes nothing. *)
Lemma C8_example :
  let s1 := @PurgeDB example_consts (env_ok 5000) old_state in
  let s2 := @PurgeDB example_consts (env_ok 5000) s1 in
  blocks s1 = Some ["readme.txt"%string]
  ∧ blocktree s2 = blocktree s1
  ∧ txindex s2 = txindex s1
  ∧ blocks s2 = blocks s1.
Proof.
  destruct (@C8_second_run example_consts (env_ok 5000) old_state eq_refl)
    as (_ & _ & Hb & _ & Hx & Hd & _).
  split; [vm_compute; reflexivity|]. split; [exact Hb|]. split; [exact Hx|exact Hd].
Defined.

(** A first run that finds no blocks directory leaves the files where they
    are; once the directory is back, the second run removes them. *)
Lemma second_run_removes_orphans :
  let s1 := @PurgeDB example_consts (env_ok 5000) (set_blocks None old_state) in
  let s2 := @PurgeDB example_consts (env_ok 5000) (set_blocks (blocks old_state) s1) in
  blocks s1 = None
  ∧ blocktree s1 !! 1%N = Some (mkBlockIndex 100 1 0)
  ∧ blocks s2 = Some ["readme.txt"%string].
Proof. vm_compute. repeat split. Qed.

(** ** Further properties of the pass *)

Section More.
Context `{Consts}.

Lemma erase_loop_full vtx : ∀ s,
  let r := foreach (fun (_ : unit) txid => EraseTxIndex txid;; LogPrintf "telete tx" [])
             vtx tt s in
  r.1 = Next tt
  ∧ txindex r.2 = txindex s ∖ list_to_set vtx
  ∧ ∃ t, trace r.2 = trace s ++ t
         ∧ Forall (fun ev => is_log ev = true
                             ∨ ∃ txid, txid ∈ vtx ∧ ev = EvEraseTxIndex txid) t.
Proof.
  induction vtx as [|txid vtx IH]; intros s; simpl.
  - split; [reflexivity|]. split; [set_solver|].
    exists []. rewrite app_nil_r. split; [reflexivity|constructor].
  - erewrite bind_next by reflexivity.
    match goal with |- context [foreach _ vtx tt ?s1] =>
      destruct (IH s1) as (E & Hx & t & Ht & Hall) end.
    split; [exact E|]. split.
    + rewrite Hx. simpl. set_solver.
    + exists (EvEraseTxIndex txid :: EvLog "telete tx" [] :: t).
      rewrite Ht. simpl. rewrite <- !app_assoc. split; [reflexivity|].
      constructor; [right; exists txid; split; [left|reflexivity]|].
      constructor; [left; reflexivity|].
      eapply Forall_impl; [exact Hall|]. intros ev [Hl|(tx & Hin & ->)]; [left; exact Hl|].
      right. exists tx. split; [right; exact Hin|reflexivity].
Qed.

Lemma third_pass_body_full e k s :
  let r := third_pass_body e tt k s in
  r.1 = Next tt
  ∧ txindex r.2 = txindex s ∖ list_to_set (disk_block e k).2
  ∧ ∃ t, trace r.2 = trace s ++ t ∧ Forall (event_within e (fun k' => k' = k)) t.
Proof.
  unfold third_pass_body.
  do 2 (erewrite bind_next by reflexivity).
  destruct (disk_block e k) as [ok vtx] eqn:Hblock. cbv beta iota.
  match goal with |- context [(foreach _ vtx tt ≫= _) ?s1] =>
    destruct (erase_loop_full vtx s1) as (E & Hx & t & Ht & Hall) end.
  match type of E with (?r).1 = _ =>
    destruct r as [f s1'] eqn:Er; simpl in E, Hx, Ht; subst f end.
  erewrite bind_next by exact Er.
  erewrite bind_next by reflexivity.
  unfold WriteBlockIndex. simpl.
  assert (Hev : Forall (event_within e (fun k' => k' = k)) t).
  { eapply Forall_impl; [exact Hall|].
    intros ev [Hl|(tx & Hin & ->)]; [destruct ev; try discriminate; exact I|].
    exists k. split; [reflexivity|]. rewrite Hblock. exact Hin. }
  destruct (alter clear_data_undo k (mapBlockIndex s1') !! k) as [r|]; simpl.
  - split; [reflexivity|]. split; [exact Hx|].
    exists (EvLog "add telete tx" [] :: EvReadBlock k :: t ++ [EvWriteBlockIndex k r]).
    rewrite Ht, <- !app_assoc. split; [reflexivity|].
    constructor; [exact I|]. constructor; [reflexivity|].
    apply Forall_app. split; [exact Hev|]. constructor; [reflexivity|constructor].
  - split; [reflexivity|]. split; [exact Hx|].
    exists (EvLog "add telete tx" [] :: EvReadBlock k :: t).
    rewrite Ht, <- !app_assoc. split; [reflexivity|].
    constructor; [exact I|]. constructor; [reflexivity|exact Hev].
Qed.

Lemma event_within_mono e (D D' : uint256 → Prop) ev :
  (∀ k, D k → D' k) → event_within e D ev → event_within e D' ev.
Proof.
  intros HD. destruct ev; simpl; auto. intros (k & Hk & Hin). exists k. auto.
Qed.

Lemma third_pass_loop_full e l : ∀ s,
  let r := foreach (third_pass_body e) l tt s in
  r.1 = Next tt
  ∧ (∀ txid, txid ∈ txindex r.2 ↔
       txid ∈ txindex s ∧ ¬ ∃ k, k ∈ l ∧ txid ∈ (disk_block e k).2)
  ∧ ∃ t, trace r.2 = trace s ++ t ∧ Forall (event_within e (fun k => k ∈ l)) t.
Proof.
  induction l as [|k l IH]; intros s; simpl.
  - split; [reflexivity|]. split.
    + intros txid. split; [intros Hin; split; [exact Hin|] | tauto].
      intros (k & Hk & _). inversion Hk.
    + exists []. rewrite app_nil_r. split; [reflexivity|constructor].
  - destruct (third_pass_body_full e k s) as (E1 & Hx1 & t1 & Ht1 & Hall1).
    destruct (third_pass_body e tt k s) as [f s1] eqn:Er; simpl in E1, Hx1, Ht1; subst f.
    erewrite bind_next by exact Er.
    destruct (IH s1) as (E & Hx & t & Ht & Hall).
    split; [exact E|]. split.
    + intros txid. rewrite Hx, Hx1, elem_of_difference, elem_of_list_to_set. split.
      * intros [[Hin Hk] Hl]. split; [exact Hin|].
        intros (k' & Hk' & Hv). apply elem_of_cons in Hk' as [-> | Hk'];
          [exact (Hk Hv) | apply Hl; eauto].
      * intros [Hin Hno]. split; [split; [exact Hin|]|].
        -- intros Hv. apply Hno. exists k. split; [left|exact Hv].
        -- intros (k' & Hk' & Hv). apply Hno. exists k'. split; [right; exact Hk'|exact Hv].
    + exists (t1 ++ t). rewrite Ht, Ht1, app_assoc. split; [reflexivity|].
      apply Forall_app. split.
      * eapply Forall_impl; [exact Hall1|]. intros ev. apply event_within_mono.
        intros k' ->. left.
      * eapply Forall_impl; [exact Hall|]. intros ev. apply event_within_mono.
        intros k' Hk'. right. exact Hk'.
Qed.

(** A run that reaches the passes is the classification on the loaded
    index, followed by the third pass, the final operation and the code at
    [fail]. *)
Lemma PurgeDB_unfold e s :
  prelude_ok e = true →
  ∃ ta tb,
    forallb plain_log ta = true ∧ forallb plain_log tb = true
    ∧ PurgeDB e s =
        (at_fail
           (final_operation (File_Identifier_Set (Height e) (blocktree s))
              (third_pass e (Prunable_Block_Set (Height e) (blocktree s))
                 (add_trace tb (add_trace ta (after_prelude e s)))).2).2).2.
Proof.
  intros Hok.
  destruct (first_pass_run (Height e) (after_prelude e s)) as (ta & Ea & La).
  destruct (second_pass_run (Height e) (add_trace ta (after_prelude e s)))
    as (tb & Eb & Lb).
  change (mapBlockIndex (add_trace ta (after_prelude e s))) with (blocktree s) in Eb.
  change (mapBlockIndex (after_prelude e s)) with (blocktree s) in Ea.
  destruct (third_pass_run e (Prunable_Block_Set (Height e) (blocktree s))
              (add_trace tb (add_trace ta (after_prelude e s))))
    as (s3 & E3 & _); [reflexivity|].
  exists ta, tb. split; [exact La|]. split; [exact Lb|].
  unfold PurgeDB. rewrite (PurgeDB_body_ok e s Hok).
  erewrite bind_next by exact Ea.
  erewrite bind_next by exact Eb.
  erewrite bind_next by exact E3. rewrite E3. reflexivity.
Qed.

Lemma is_prunable_iff tip m k : k ∈ Prunable_Block_Set tip m ↔ is_prunable tip m k.
Proof.
  rewrite elem_of_Prunable_Block_Set. unfold is_prunable.
  split; intros (r & Hl & Hh & Hf & Hn); exists r;
    (split; [exact Hl|]); (split; [exact Hh|]).
  - split; [apply have_data_or_undo_true; exact Hf|].
    intros (k' & r' & Hl' & Hw & Hfile). apply Hn.
    apply elem_of_File_Identifier_Set. exists k', r'. auto.
  - split; [apply have_data_or_undo_true; exact Hf|].
    intros Hin. apply elem_of_File_Identifier_Set in Hin as (k' & r' & Hl' & Hw & Hfile).
    apply Hn. exists k', r'. auto.
Qed.

Lemma final_operation_frame need s :
  let s' := (at_fail (final_operation need s).2).2 in
  txindex s' = txindex s ∧ blocktree s' = blocktree s
  ∧ blocks s' = (filter (fun g => reaped need g = false) <$> blocks s)
  ∧ ∃ t, trace s' = trace s ++ t ∧ forallb not_index_event t = true.
Proof.
  destruct (blocks s) as [d|] eqn:Hd.
  - destruct (final_operation_run need d s Hd)
      as (s4 & E4 & _ & Hb4 & Hx4 & Hd4 & td & Ht4 & Ld & _).
    rewrite E4. simpl. rewrite Hx4, Hb4, Hd4, Ht4. repeat (split; [reflexivity|]).
    exists (td ++ [EvUnlock; EvExit 0]). rewrite <- !app_assoc. split; [reflexivity|].
    rewrite forallb_app. apply andb_true_iff. split; [|reflexivity].
    apply forallb_forall. intros ev Hev. rewrite forallb_forall in Ld.
    specialize (Ld ev Hev). destruct ev; try reflexivity; discriminate.
  - rewrite (final_operation_missing need s Hd). simpl. rewrite Hd.
    repeat (split; [reflexivity|]).
    exists [EvLog "Could not open blocks directory" []; EvUnlock; EvExit 0].
    rewrite <- !app_assoc. split; reflexivity.
Qed.

(** X1: the transaction index after a run: an entry is gone exactly when the
    run reached the passes and the entry belongs to a transaction that
    [ReadBlockFromDisk] delivered for a prunable block.  Entries of other
    blocks stay, and erasing an entry that is not there changes nothing. *)
Theorem PurgeDB_txindex (e : Env) (s : State) (txid : uint256) :
  txid ∈ txindex (PurgeDB e s) ↔
  txid ∈ txindex s
  ∧ ¬ (prelude_ok e = true
       ∧ ∃ k, is_prunable (Height e) (blocktree s) k ∧ txid ∈ (disk_block e k).2).
Proof.
  destruct (prelude_ok e) eqn:Hpre.
  - destruct (PurgeDB_unfold e s Hpre) as (ta & tb & _ & _ & Erun). rewrite Erun.
    destruct (final_operation_frame (File_Identifier_Set (Height e) (blocktree s))
      (third_pass e (Prunable_Block_Set (Height e) (blocktree s))
         (add_trace tb (add_trace ta (after_prelude e s)))).2) as (Hx & _).
    rewrite Hx. unfold third_pass.
    destruct (third_pass_loop_full e
                (elements (Prunable_Block_Set (Height e) (blocktree s)))
                (add_trace tb (add_trace ta (after_prelude e s)))) as (_ & Htx & _).
    rewrite Htx. simpl. split.
    + intros [Hin Hno]. split; [exact Hin|]. intros (_ & k & Hk & Hv). apply Hno.
      exists k. split; [|exact Hv]. apply elem_of_elements, is_prunable_iff. exact Hk.
    + intros [Hin Hno]. split; [exact Hin|]. intros (k & Hk & Hv). apply Hno.
      split; [reflexivity|]. exists k. split; [|exact Hv].
      apply is_prunable_iff, elem_of_elements. exact Hk.
  - destruct (PurgeDB_abort e s Hpre) as (msg & t & _ & Erun & _). rewrite Erun.
    replace (txindex (add_trace (t ++ [EvLog msg []; EvUnlock; EvExit 0])
               (if try_lock e && LoadBlockIndex_ok e
                then set_mapBlockIndex (blocktree s) s else s)))
      with (txindex s) by (destruct (try_lock e && LoadBlockIndex_ok e); reflexivity).
    split; [intros Hin; split; [exact Hin|intros [[=] _]] | tauto].
Qed.

(** X2: the third pass reads and rewrites prunable blocks only, and erases
    only transactions that a read of a prunable block delivered: a block
    inside the window, a block without data and undo, and a block that
    shares its file with a block inside the window are never read from disk
    and their records are never rewritten. *)
Theorem PurgeDB_touches_prunable_blocks_only (e : Env) (s : State) :
  ∃ t, trace (PurgeDB e s) = trace s ++ t
       ∧ Forall (event_within e
                   (fun k => prelude_ok e = true
                             ∧ is_prunable (Height e) (blocktree s) k)) t.
Proof.
  assert (Hplain : ∀ D t, forallb plain_log t = true → Forall (event_within e D) t).
  { intros D t Ht. apply Forall_forall. intros ev Hev. apply list_elem_of_In in Hev.
    rewrite forallb_forall in Ht. specialize (Ht ev Hev).
    destruct ev; try discriminate. exact I. }
  assert (Hquiet : ∀ D t, forallb not_index_event t = true → Forall (event_within e D) t).
  { intros D t Ht. apply Forall_forall. intros ev Hev. apply list_elem_of_In in Hev.
    rewrite forallb_forall in Ht. specialize (Ht ev Hev).
    destruct ev; try discriminate; exact I. }
  destruct (prelude_ok e) eqn:Hpre.
  - destruct (PurgeDB_unfold e s Hpre) as (ta & tb & La & Lb & Erun). rewrite Erun.
    destruct (final_operation_frame (File_Identifier_Set (Height e) (blocktree s))
      (third_pass e (Prunable_Block_Set (Height e) (blocktree s))
         (add_trace tb (add_trace ta (after_prelude e s)))).2)
      as (_ & _ & _ & td & Ht & Ld).
    rewrite Ht. unfold third_pass.
    destruct (third_pass_loop_full e
                (elements (Prunable_Block_Set (Height e) (blocktree s)))
                (add_trace tb (add_trace ta (after_prelude e s))))
      as (_ & _ & tc & Htc & Hall).
    rewrite Htc. simpl.
    exists ([EvLog "Are you sure you want to purge?!!!!" [];
             EvLog "Loading databases" [];
             EvLog "Tip is block %ld\n" [Height e]] ++ ta ++ tb ++ tc ++ td).
    rewrite <- !app_assoc. split; [reflexivity|].
    apply Forall_app. split; [repeat constructor|].
    apply Forall_app. split; [auto|].
    apply Forall_app. split; [auto|].
    apply Forall_app. split; [|auto].
    eapply Forall_impl; [exact Hall|]. intros ev. apply event_within_mono.
    intros k Hk. split; [reflexivity|]. apply is_prunable_iff, elem_of_elements. exact Hk.
  - destruct (PurgeDB_abort e s Hpre) as (msg & t & _ & Erun & Lt). rewrite Erun.
    exists (t ++ [EvLog msg []; EvUnlock; EvExit 0]). split.
    + destruct (try_lock e && LoadBlockIndex_ok e); reflexivity.
    + apply Forall_app. split; [auto|repeat constructor].
Qed.

(** X3: the fate of a file with a well-formed name in a run that reaches the
    final operation: the file is still in the blocks directory afterwards
    exactly when some record inside the retention window has the index of
    the file as its file-id.  A blk or rev file that no record inside the
    window refers to is removed, whether or not any block was pruned, and
    also when the index holds no record at all. *)
Theorem PurgeDB_file_fate (e : Env) (s : State) (d : list string) :
  prelude_ok e = true →
  blocks s = Some d →
  ∃ d', blocks (PurgeDB e s) = Some d'
    ∧ ∀ f, String.length f = 12%nat →
           substring 0 3 f = "blk"%string ∨ substring 0 3 f = "rev"%string →
           decimal_index_dat (CLib.advance 3 f) = true →
           (f ∈ d' ↔
              f ∈ d ∧ ∃ k r, blocktree s !! k = Some r
                             ∧ Height e <= nHeight r + MIN_HISTORY
                             ∧ nFile r = CLib.scan_digits 0 (CLib.advance 3 f)).
Proof.
  intros Hpre Hd.
  destruct (PurgeDB_ok e s Hpre) as (t1 & t2 & _ & _ & _ & Hd' & _).
  rewrite Hd in Hd'. simpl in Hd'. eexists. split; [exact Hd'|].
  intros f Hlen Htag Hidx.
  rewrite list_elem_of_filter, (reaped_well_formed _ f Hlen Htag Hidx).
  rewrite negb_false_iff, bool_decide_eq_true, elem_of_File_Identifier_Set. tauto.
Qed.

(** X4: after a run that reaches the final operation, a record that still has
    its data or its undo flag has not lost its files: no directory entry
    whose converted index is the file-id of such a record was removed.  The
    same holds for every record inside the retention window, flags or not. *)
Theorem PurgeDB_flagged_records_keep_files (e : Env) (s : State) (d : list string) :
  prelude_ok e = true →
  blocks s = Some d →
  ∃ d', blocks (PurgeDB e s) = Some d'
    ∧ ∀ k r' f,
        blocktree (PurgeDB e s) !! k = Some r' →
        (Z.land (nStatus r') BLOCK_HAVE_DATA ≠ 0
         ∨ Z.land (nStatus r') BLOCK_HAVE_UNDO ≠ 0
         ∨ Height e <= nHeight r' + MIN_HISTORY) →
        f ∈ d →
        CLib.sscanf_d_dat (CLib.advance 3 f) = Some (nFile r') →
        f ∈ d'.
Proof.
  intros Hpre Hd.
  destruct (PurgeDB_ok e s Hpre) as (t1 & t2 & _ & Hb & _ & Hd' & _).
  rewrite Hd in Hd'. simpl in Hd'. eexists. split; [exact Hd'|].
  intros k r' f Hk Hkeep Hin Hconv.
  apply list_elem_of_filter. split; [|exact Hin].
  unfold reaped. rewrite Hconv, andb_false_iff, negb_false_iff, bool_decide_eq_true.
  right. apply elem_of_File_Identifier_Set.
  rewrite Hb, lookup_flipped in Hk.
  destruct (blocktree s !! k) as [r|] eqn:Hr; [|discriminate]. simpl in Hk.
  assert (Hsame : nHeight r' = nHeight r ∧ nFile r' = nFile r)
    by (case_bool_decide; injection Hk as <-; split; reflexivity).
  destruct Hsame as [Hh Hf]. rewrite Hh, Hf in *.
  assert (Hflag : Height e <= nHeight r + MIN_HISTORY ∨ have_data_or_undo r' = true).
  { destruct Hkeep as [Hdata|[Hundo|Hw]]; [right|right|left; exact Hw];
      apply have_data_or_undo_true; auto. }
  destruct Hflag as [Hw|Hflag]; [exists k, r; auto|].
  case_bool_decide as HD; injection Hk as <-.
  { rewrite have_data_or_undo_clear in Hflag. discriminate. }
  destruct (Z.le_gt_cases (Height e) (nHeight r + MIN_HISTORY)) as [Hw|Hold];
    [exists k, r; auto|].
  destruct (decide (nFile r ∈ File_Identifier_Set (Height e) (blocktree s)))
    as [Hneed|Hfree]; [apply elem_of_File_Identifier_Set in Hneed; exact Hneed|].
  exfalso. apply HD, elem_of_Prunable_Block_Set. exists r.
  split; [exact Hr|]. split; [lia|]. split; [exact Hflag|exact Hfree].
Qed.

(** X5: after a run that reaches the final operation, every prunable block has
    lost both flags in its record and every 12-character blk or rev entry
    whose converted index is its file-id: the space of a pruned block is
    reclaimed in the same run. *)
Theorem PurgeDB_pruned_blocks_lose_files (e : Env) (s : State) (d : list string) :
  prelude_ok e = true →
  blocks s = Some d →
  ∃ d', blocks (PurgeDB e s) = Some d'
    ∧ ∀ k r, is_prunable (Height e) (blocktree s) k →
             blocktree s !! k = Some r →
             (∃ r', blocktree (PurgeDB e s) !! k = Some r'
                    ∧ Z.land (nStatus r') BLOCK_HAVE_DATA = 0
                    ∧ Z.land (nStatus r') BLOCK_HAVE_UNDO = 0)
             ∧ ∀ f, String.length f = 12%nat →
                    substring 0 3 f = "blk"%string ∨ substring 0 3 f = "rev"%string →
                    CLib.sscanf_d_dat (CLib.advance 3 f) = Some (nFile r) →
                    ¬ f ∈ d'.
Proof.
  intros Hpre Hd.
  destruct (PurgeDB_ok e s Hpre) as (t1 & t2 & _ & Hb & _ & Hd' & _).
  rewrite Hd in Hd'. simpl in Hd'. eexists. split; [exact Hd'|].
  intros k r Hk Hr. apply is_prunable_iff in Hk as HD.
  apply elem_of_Prunable_Block_Set in HD as HD'.
  destruct HD' as (r0 & Hr0 & _ & _ & Hfree). rewrite Hr in Hr0. injection Hr0 as <-.
  split.
  - exists (clear_data_undo r). rewrite Hb, lookup_flipped, Hr. simpl.
    rewrite bool_decide_true by exact HD. split; [reflexivity|].
    pose proof (have_data_or_undo_clear r) as Hc. unfold have_data_or_undo in Hc.
    apply orb_false_iff in Hc as [Hc1 Hc2].
    rewrite negb_false_iff, Z.eqb_eq in Hc1, Hc2. auto.
  - intros f Hlen Htag Hconv Hin. apply list_elem_of_filter in Hin as [Hkeep _].
    apply reaped_false in Hkeep. apply Hkeep.
    split; [exact Hlen|]. split; [exact Htag|]. exists (nFile r). auto.
Qed.

(** X6: the order in which the third pass visits the blocks of [setDelete] (the
    order of the addresses of the records) has no influence on what it
    leaves: two orders of the same blocks give the same index, in memory
    and persisted, the same transaction index and the same directory. *)
Theorem third_pass_order_irrelevant (e : Env) (l1 l2 : list uint256) (s : State) :
  l1 ≡ₚ l2 →
  mapBlockIndex s = blocktree s →
  let s1 := (foreach (third_pass_body e) l1 tt s).2 in
  let s2 := (foreach (third_pass_body e) l2 tt s).2 in
  mapBlockIndex s1 = mapBlockIndex s2
  ∧ blocktree s1 = blocktree s2
  ∧ txindex s1 = txindex s2
  ∧ blocks s1 = blocks s2.
Proof.
  intros Hperm Hinv s1 s2. subst s1 s2.
  destruct (third_pass_loop e l1 s Hinv) as (s1 & E1 & Hm1 & Hb1 & Hd1 & _).
  destruct (third_pass_loop e l2 s Hinv) as (s2 & E2 & Hm2 & Hb2 & Hd2 & _).
  destruct (third_pass_loop_full e l1 s) as (_ & Hx1 & _).
  destruct (third_pass_loop_full e l2 s) as (_ & Hx2 & _).
  rewrite E1, E2 in *. simpl in *.
  assert (Hset : (list_to_set l1 : gset uint256) = list_to_set l2).
  { apply set_eq. intros k. rewrite !elem_of_list_to_set. now rewrite Hperm. }
  rewrite Hm1, Hm2, Hb1, Hb2, Hd1, Hd2, Hset. repeat (split; [reflexivity|]).
  split; [|reflexivity].
  apply set_eq. intros txid. rewrite Hx1, Hx2.
  split; intros [Hin Hno]; (split; [exact Hin|]); intros (k & Hk & Hv); apply Hno;
    exists k; (split; [|exact Hv]); [rewrite Hperm | rewrite <- Hperm]; exact Hk.
Qed.

End More.

(** * Properties of the units *)

Module UnitsFacts.
Import BitcoinUnits.

(** ** Decimal digits *)

Lemma is_digit_range c : is_digit c = true ↔ (48 <= c <= 57)%N.
Proof. unfold is_digit. rewrite andb_true_iff, !N.leb_le. reflexivity. Qed.

Lemma is_digit_not_space c : is_digit c = true → isSpace c = false.
Proof.
  intros Hc. apply is_digit_range in Hc. unfold isSpace.
  repeat match goal with
         | |- context [(?a =? ?b)%N] => rewrite (proj2 (N.eqb_neq a b)) by lia
         | |- context [(?a <=? ?b)%N && (?c <=? ?d)%N] =>
             replace ((a <=? b)%N && (c <=? d)%N) with false
               by (symmetry; apply andb_false_iff; rewrite !N.leb_gt; lia)
         end.
  reflexivity.
Qed.

Lemma digits_value_app a l1 l2 :
  digits_value a (l1 ++ l2) = digits_value (digits_value a l1) l2.
Proof. revert a. induction l1 as [|c l1 IH]; intros a; simpl; [reflexivity|apply IH]. Qed.

Lemma digits_value_shift l : ∀ a,
  digits_value a l = a * 10 ^ Z.of_nat (length l) + digits_value 0 l.
Proof.
  induction l as [|c l IH]; intros a.
  - simpl. lia.
  - cbn [digits_value length]. rewrite (IH (10 * a + _)), (IH (10 * 0 + _)).
    rewrite Nat2Z.inj_succ, Z.pow_succ_r by lia. ring.
Qed.

Lemma digits_value_bound l :
  forallb is_digit l = true → 0 <= digits_value 0 l < 10 ^ Z.of_nat (length l).
Proof.
  induction l as [|c l IH] using rev_ind; intros Hd.
  - simpl. lia.
  - rewrite forallb_app, andb_true_iff in Hd. destruct Hd as [Hl Hc].
    simpl in Hc. rewrite andb_true_r in Hc. apply is_digit_range in Hc.
    specialize (IH Hl). rewrite digits_value_app, length_app. simpl.
    rewrite Nat2Z.inj_add, Z.pow_add_r by lia. change (10 ^ Z.of_nat 1) with 10. lia.
Qed.

Lemma digits_value_zeros k a : digits_value a (replicate k 48%N) = a * 10 ^ Z.of_nat k.
Proof.
  revert a. induction k as [|k IH]; intros a.
  - simpl. lia.
  - cbn [replicate digits_value]. rewrite IH, Nat2Z.inj_succ, Z.pow_succ_r by lia.
    change (Z.of_N 48 - 48) with 0. ring.
Qed.

Lemma forallb_replicate_zero k : forallb is_digit (replicate k 48%N) = true.
Proof. induction k as [|k IH]; simpl; [reflexivity|exact IH]. Qed.

Lemma digit_char_digit d : 0 <= d <= 9 → is_digit (digit_char d) = true
                                          ∧ Z.of_N (digit_char d) - 48 = d.
Proof.
  intros Hd. unfold digit_char. split; [apply is_digit_range|]; lia.
Qed.

(** The digits [number_digits] puts in front of [acc]. *)
Lemma number_digits_spec fuel : ∀ n acc,
  0 <= n < 2 ^ Z.of_nat fuel → (0 < fuel)%nat →
  ∃ d, number_digits fuel n acc = d ++ acc
       ∧ d ≠ [] ∧ forallb is_digit d = true
       ∧ digits_value 0 d = n
       ∧ ∀ k, (0 < k)%nat → n < 10 ^ Z.of_nat k → (length d <= k)%nat.
Proof.
  induction fuel as [|fuel IH]; intros n acc Hn Hfuel; [lia|].
  - cbn [number_digits]. rewrite Nat2Z.inj_succ, Z.pow_succ_r in Hn by lia.
    assert (Hmod : 0 <= n mod 10 <= 9) by (pose proof (Z.mod_pos_bound n 10); lia).
    destruct (digit_char_digit _ Hmod) as [Hdig Hval].
    destruct (Z.ltb_spec n 10) as [Hsmall|Hbig].
    + exists [digit_char (n mod 10)]. split; [reflexivity|]. split; [discriminate|].
      split; [simpl; rewrite Hdig; reflexivity|]. split.
      * simpl. rewrite Hval. rewrite Z.mod_small; lia.
      * intros k Hk _. simpl. lia.
    + assert (Hdiv : 0 <= n / 10 < 2 ^ Z.of_nat fuel).
      { split; [apply Z.div_pos; lia|].
        apply Z.div_lt_upper_bound; lia. }
      assert (Hpos : (0 < fuel)%nat).
      { destruct fuel; [|lia]. simpl in Hdiv.
        assert (1 <= n / 10) by (apply Z.div_le_lower_bound; lia). lia. }
      destruct (IH (n / 10) (digit_char (n mod 10) :: acc) Hdiv Hpos)
        as (d & Ed & Hne & Hall & Hv & Hlen).
      exists (d ++ [digit_char (n mod 10)]). rewrite Ed, <- app_assoc.
      split; [reflexivity|]. split; [destruct d; discriminate|].
      split; [rewrite forallb_app, Hall; simpl; rewrite Hdig; reflexivity|]. split.
      * rewrite digits_value_app, digits_value_shift, Hv. simpl.
        rewrite Hval. pose proof (Z.div_mod n 10). lia.
      * intros k Hk Hlt. rewrite length_app. simpl.
        destruct k as [|k]; [lia|]. destruct k as [|k].
        { change (10 ^ Z.of_nat 1) with 10 in Hlt. lia. }
        assert (length d <= S k)%nat; [|lia]. apply Hlen; [lia|].
        rewrite (Nat2Z.inj_succ (S k)), Z.pow_succ_r in Hlt by lia.
        apply Z.div_lt_upper_bound; lia.
Qed.

Lemma number_nonneg n :
  0 <= n →
  ∃ d, number n = d ∧ d ≠ [] ∧ forallb is_digit d = true
       ∧ digits_value 0 d = n
       ∧ ∀ k, (0 < k)%nat → n < 10 ^ Z.of_nat k → (length d <= k)%nat.
Proof.
  intros Hn. unfold number. rewrite (proj2 (Z.ltb_ge n 0)) by lia.
  assert (Hfuel : 0 <= n < 2 ^ Z.of_nat (S (Z.to_nat (Z.log2 n)))).
  { split; [lia|]. rewrite Nat2Z.inj_succ, Z2Nat.id by apply Z.log2_nonneg.
    destruct (Z.eq_dec n 0) as [-> | Hnz]; [reflexivity|].
    apply Z.log2_spec. lia. }
  destruct (number_digits_spec _ n [] Hfuel ltac:(lia)) as (d & Ed & Hrest).
  exists d. rewrite Ed, app_nil_r. split; [reflexivity|exact Hrest].
Qed.

Lemma number_length_lower n k :
  0 <= n → 10 ^ Z.of_nat k <= n → (k < length (number n))%nat.
Proof.
  intros Hn Hk. destruct (number_nonneg n Hn) as (d & -> & _ & Hall & Hv & _).
  pose proof (digits_value_bound d Hall) as Hb. rewrite Hv in Hb.
  apply Nat2Z.inj_lt. apply (Z.pow_lt_mono_r_iff 10); lia.
Qed.

(** ** Splitting at the dot *)

Lemma split_no_dot s : no_dot s → split 46 s = [s].
Proof.
  induction 1 as [|c s Hc Hs IH]; [reflexivity|].
  simpl. rewrite (proj2 (N.eqb_neq c 46) Hc), IH. reflexivity.
Qed.

Lemma split_at_dot a b : no_dot a → split 46 (a ++ 46%N :: b) = a :: split 46 b.
Proof.
  induction 1 as [|c a Hc Ha IH]; [reflexivity|].
  simpl. rewrite (proj2 (N.eqb_neq c 46) Hc), IH. reflexivity.
Qed.

Lemma split_length s :
  length (split 46 s) = S (length (filter (fun c => c = 46%N) s)).
Proof.
  induction s as [|c s IH]; [reflexivity|]. simpl.
  destruct (N.eqb_spec c 46) as [-> | Hc].
  - rewrite filter_cons_True by reflexivity. simpl. rewrite IH. reflexivity.
  - rewrite filter_cons_False by exact Hc.
    destruct (split 46 s) as [|p ps]; [discriminate|]. simpl in *. exact IH.
Qed.

Lemma digits_no_dot d : forallb is_digit d = true → no_dot d.
Proof.
  intros Hd. apply Forall_forall. intros c Hc ->.
  rewrite forallb_forall in Hd. apply list_elem_of_In in Hc.
  specialize (Hd _ Hc). discriminate.
Qed.

(** ** Signs *)

Lemma sign_no_dot sg : no_dot (sign_str sg).
Proof. destruct sg; repeat constructor; discriminate. Qed.

(** ** The conversion to a number *)

Lemma leading_digits_all d : forallb is_digit d = true → leading_digits d = (d, []).
Proof.
  induction d as [|c d IH]; [reflexivity|]. simpl.
  rewrite andb_true_iff. intros [Hc Hd]. rewrite Hc, (IH Hd). reflexivity.
Qed.

Lemma leading_digits_split s :
  let '(ds, rest) := leading_digits s in
  s = ds ++ rest ∧ forallb is_digit ds = true.
Proof.
  induction s as [|c s IH]; [split; reflexivity|]. simpl.
  destruct (is_digit c) eqn:Hc; [|split; reflexivity].
  destruct (leading_digits s) as [ds rest]. destruct IH as [-> Hds].
  split; [reflexivity|]. simpl. rewrite Hc. exact Hds.
Qed.

Lemma skip_spaces_length s : (length (skip_spaces s) <= length s)%nat.
Proof.
  induction s as [|c s IH]; [reflexivity|]. simpl.
  destruct (isSpace c); simpl; lia.
Qed.

Lemma toLongLong_sign_digits sg d :
  d ≠ [] → forallb is_digit d = true → (length d <= 18)%nat →
  toLongLong (sign_str sg ++ d) = (true, apply_sign sg (digits_value 0 d)).
Proof.
  intros Hne Hd Hlen.
  pose proof (digits_value_bound d Hd) as Hb.
  assert (Hpow : 10 ^ Z.of_nat (length d) <= 10 ^ 18) by (apply Z.pow_le_mono_r; lia).
  change (10 ^ 18) with 1000000000000000000 in Hpow.
  assert (Hskip : skip_spaces d = d).
  { destruct d as [|c d]; [reflexivity|]. simpl in *.
    apply andb_true_iff in Hd as [Hc _]. rewrite (is_digit_not_space c Hc). reflexivity. }
  assert (Hhead : ∀ c r, d = c :: r → c ≠ 45%N ∧ c ≠ 43%N).
  { intros c r ->. simpl in Hd. apply andb_true_iff in Hd as [Hc _].
    apply is_digit_range in Hc. lia. }
  unfold toLongLong.
  destruct sg; simpl sign_str; cbn [app].
  - rewrite Hskip. destruct d as [|c r]; [contradiction|].
    destruct (Hhead c r eq_refl) as [H45 H43].
    assert (Hm : match c :: r with
                 | 45%N :: r0 => (true, r0)
                 | 43%N :: r0 => (false, r0)
                 | _ => (false, c :: r)
                 end = (false, c :: r)).
    { destruct c as [|p]; [reflexivity|].
      do 6 (destruct p as [p|p|]; try reflexivity); congruence. }
    rewrite Hm, (leading_digits_all _ Hd). simpl apply_sign.
    rewrite bool_decide_false by discriminate. simpl forallb.
    rewrite (proj2 (Z.leb_le _ _)), (proj2 (Z.ltb_lt _ _)) by (change (2 ^ 63) with 9223372036854775808; lia).
    reflexivity.
  - cbn [skip_spaces]. change (isSpace 45) with false. cbv iota.
    rewrite (leading_digits_all _ Hd). simpl apply_sign.
    rewrite bool_decide_false by exact Hne. simpl forallb.
    rewrite (proj2 (Z.leb_le _ _)), (proj2 (Z.ltb_lt _ _)) by (change (2 ^ 63) with 9223372036854775808; lia).
    reflexivity.
  - cbn [skip_spaces]. change (isSpace 43) with false. cbv iota.
    rewrite (leading_digits_all _ Hd). simpl apply_sign.
    rewrite bool_decide_false by exact Hne. simpl forallb.
    rewrite (proj2 (Z.leb_le _ _)), (proj2 (Z.ltb_lt _ _)) by (change (2 ^ 63) with 9223372036854775808; lia).
    reflexivity.
Qed.

Lemma toLongLong_bound s ok v :
  toLongLong s = (ok, v) → - 10 ^ Z.of_nat (length s) < v < 10 ^ Z.of_nat (length s).
Proof.
  assert (Hpos : 0 < 10 ^ Z.of_nat (length s)) by (apply Z.pow_pos_nonneg; lia).
  unfold toLongLong. pose proof (skip_spaces_length s) as Hskip.
  set (s1 := skip_spaces s) in *.
  assert (Hgen : ∀ (neg : bool) s2, (length s2 <= length s)%nat →
            (let '(ds, rest) := leading_digits s2 in
             let v0 := if neg then - digits_value 0 ds else digits_value 0 ds in
             if negb (bool_decide (ds = [])) && forallb isSpace rest
                && (- 2 ^ 63 <=? v0) && (v0 <? 2 ^ 63)
             then (true, v0) else (false, 0)) = (ok, v) →
            - 10 ^ Z.of_nat (length s) < v < 10 ^ Z.of_nat (length s)).
  { intros neg s2 Hl. pose proof (leading_digits_split s2) as Hsp.
    destruct (leading_digits s2) as [ds rest]. destruct Hsp as [-> Hds].
    pose proof (digits_value_bound ds Hds) as Hb.
    assert (10 ^ Z.of_nat (length ds) <= 10 ^ Z.of_nat (length s)).
    { apply Z.pow_le_mono_r; [lia|]. rewrite length_app in Hl. lia. }
    cbv zeta.
    match goal with |- (if ?c then _ else _) = _ → _ => destruct c end;
      intros [= <- <-]; [destruct neg|]; lia. }
  destruct s1 as [|c r] eqn:Hs1; [apply (Hgen false []); simpl; lia|].
  simpl in Hskip.
  destruct c as [|p]; [apply (Hgen false (0%N :: r)); simpl; lia|].
  do 6 (destruct p as [p|p|];
        try (apply (Hgen false (_ :: r)); simpl; lia));
    first [apply (Hgen true r) | apply (Hgen false r)]; lia.
Qed.

(** ** Trimming the zeros *)

Lemma count_trim_take s : ∀ i,
  (i <= length s)%nat →
  take i s = take (i - count_trim i s) s ++ replicate (count_trim i s) 48%N.
Proof.
  induction i as [|i IH]; intros Hi; [reflexivity|].
  cbn [count_trim].
  destruct ((2 <=? i)%nat && bool_decide (s !! i = Some 48%N)) eqn:Hc.
  - apply andb_true_iff in Hc as [_ Hz]. apply bool_decide_eq_true in Hz.
    rewrite (take_S_r _ _ _ Hz), IH by lia.
    change (S i - S (count_trim i s))%nat with (i - count_trim i s)%nat.
    rewrite <- app_assoc. f_equal.
    change [48%N] with (replicate 1 48%N). rewrite <- replicate_add.
    f_equal. lia.
  - rewrite Nat.sub_0_r, app_nil_r. reflexivity.
Qed.

Lemma count_trim_keeps_two s : ∀ i, (Nat.min i 2 <= i - count_trim i s)%nat.
Proof.
  induction i as [|i IH]; [reflexivity|]. cbn [count_trim].
  destruct ((2 <=? i)%nat && bool_decide (s !! i = Some 48%N)) eqn:Hc; [|lia].
  apply andb_true_iff in Hc as [Hi _]. apply Nat.leb_le in Hi. lia.
Qed.

Lemma count_trim_stops s : ∀ i,
  (i - count_trim i s <= 2)%nat ∨ s !! (i - count_trim i s - 1)%nat ≠ Some 48%N.
Proof.
  induction i as [|i IH]; [left; simpl; lia|]. cbn [count_trim].
  destruct ((2 <=? i)%nat && bool_decide (s !! i = Some 48%N)) eqn:Hc.
  - exact IH.
  - apply andb_false_iff in Hc as [Hi|Hz].
    + left. apply Nat.leb_gt in Hi. lia.
    + right. apply bool_decide_eq_false in Hz.
      replace (S i - 0 - 1)%nat with i by lia. exact Hz.
Qed.

(** What lines 119-122 leave of a string [R], and how padding with zeros
    gives [R] back. *)
Lemma chop_trim R :
  let T := chop (count_trim (length R) R) R in
  R = T ++ replicate (length R - length T) 48%N
  ∧ (Nat.min (length R) 2 <= length T <= length R)%nat
  ∧ ((length T <= 2)%nat ∨ last T ≠ Some 48%N).
Proof.
  unfold chop. set (c := count_trim (length R) R).
  pose proof (count_trim_take R (length R) (Nat.le_refl _)) as Htake. fold c in Htake.
  pose proof (count_trim_keeps_two R (length R)) as Hkeep. fold c in Hkeep.
  pose proof (count_trim_stops R (length R)) as Hstop. fold c in Hstop.
  rewrite firstn_all in Htake.
  assert (Hlen : length (take (length R - c) R) = (length R - c)%nat)
    by (rewrite length_take; lia).
  rewrite Hlen. split.
  - replace (length R - (length R - c))%nat with c; [exact Htake|].
    assert (c <= length R)%nat; [|lia].
    apply (f_equal length) in Htake. rewrite length_app, length_replicate, Hlen in Htake. lia.
  - split; [lia|]. destruct Hstop as [Hs|Hs]; [left; exact Hs|].
    destruct (Nat.le_gt_cases (length R - c) 2) as [Hle|Hgt]; [left; exact Hle|].
    right. rewrite last_lookup, Hlen, lookup_take_lt by lia.
    replace (Nat.pred (length R - c)) with (length R - c - 1)%nat by lia. exact Hs.
Qed.

(** ** The tables *)

Section Tables.
Context `{UnitCodes}.

Lemma valid_tables unit :
  valid unit = true →
  (factor unit = 10000000000 ∧ decimals unit = 10)
  ∨ (factor unit = 10000000 ∧ decimals unit = 7)
  ∨ (factor unit = 10000 ∧ decimals unit = 5).
Proof.
  unfold valid, factor, decimals.
  destruct (unit =? FBC); [auto|]. destruct (unit =? mFBC); [auto|].
  destruct (unit =? uFBC); [auto|discriminate].
Qed.

Lemma valid_bounds unit :
  valid unit = true →
  0 < factor unit <= 10 ^ decimals unit ∧ 5 <= decimals unit <= 10.
Proof.
  intros Hv. destruct (valid_tables unit Hv) as [[-> ->]|[[-> ->]|[-> ->]]];
    (split; [split; [lia|]|lia]).
  - change (10 ^ 10) with 10000000000. lia.
  - change (10 ^ 7) with 10000000. lia.
  - change (10 ^ 5) with 100000. lia.
Qed.

(** The parts of a formatted amount. *)
Lemma format_parts unit n fPlus :
  valid unit = true →
  - 2 ^ 63 < n < 2 ^ 63 →
  ∃ q frac : list N,
    format unit n fPlus = sign_str (sign_of n fPlus) ++ q ++ 46%N :: frac
    ∧ q = number (Z.abs n / factor unit)
    ∧ q ≠ [] ∧ forallb is_digit q = true
    ∧ digits_value 0 q = Z.abs n / factor unit
    ∧ forallb is_digit frac = true
    ∧ 2 <= Z.of_nat (length frac) <= decimals unit
    ∧ ((length frac <= 2)%nat ∨ last frac ≠ Some 48%N)
    ∧ digits_value 0 frac * 10 ^ (decimals unit - Z.of_nat (length frac))
      = Z.abs n mod factor unit.
Proof.
  intros Hv Hn64. destruct (valid_bounds unit Hv) as [[Hf Hfd] Hdec].
  unfold format. rewrite Hv. cbn [negb].
  assert (Habs : (if n >? 0 then n else wrap64 (- n)) = Z.abs n).
  { destruct (Z.gtb_spec n 0); [lia|]. unfold wrap64.
    rewrite Z.mod_small by lia. lia. }
  rewrite Habs.
  assert (Hq0 : 0 <= Z.abs n / factor unit) by (apply Z.div_pos; lia).
  pose proof (Z.mod_pos_bound (Z.abs n) (factor unit) Hf) as Hr0.
  rewrite Z.quot_div_nonneg, Z.rem_mod_nonneg by lia.
  destruct (number_nonneg _ Hq0) as (q & Eq & Hqne & Hqd & Hqv & _).
  destruct (number_nonneg (Z.abs n mod factor unit) (proj1 Hr0))
    as (r & Er & Hrne & Hrd & Hrv & Hrlen).
  rewrite Eq, Er.
  assert (Hrl : (length r <= Z.to_nat (decimals unit))%nat).
  { apply Hrlen; [lia|]. rewrite Z2Nat.id by lia. lia. }
  set (R := rightJustified (decimals unit) 48 r).
  assert (HR : R = replicate (Z.to_nat (decimals unit) - length r) 48%N ++ r).
  { unfold R, rightJustified. f_equal. f_equal. lia. }
  assert (HRlen : length R = Z.to_nat (decimals unit)).
  { rewrite HR, length_app, length_replicate. lia. }
  assert (HRd : forallb is_digit R = true).
  { rewrite HR, forallb_app, forallb_replicate_zero, Hrd. reflexivity. }
  assert (HRv : digits_value 0 R = Z.abs n mod factor unit).
  { rewrite HR, digits_value_app, digits_value_zeros. simpl. exact Hrv. }
  destruct (chop_trim R) as (HT & HTlen & HTlast).
  set (T := chop (count_trim (length R) R) R) in *.
  assert (HTd : forallb is_digit T = true).
  { rewrite HT, forallb_app in HRd. apply andb_true_iff in HRd. tauto. }
  exists q, T. split.
  { unfold sign_of. simpl qs.
    destruct (n <? 0); [reflexivity|]. destruct (fPlus && (n >? 0)); reflexivity. }
  split; [reflexivity|]. split; [exact Hqne|]. split; [exact Hqd|].
  split; [exact Hqv|]. split; [exact HTd|]. split; [lia|]. split; [exact HTlast|].
  pose proof (f_equal (digits_value 0) HT) as Hval.
  rewrite digits_value_app, digits_value_zeros, HRv in Hval. rewrite Hval.
  f_equal. f_equal. lia.
Qed.

(** [parse] on a sign, digits, and possibly a dot and more digits. *)
Lemma parse_digits unit sg w (frac : option (list N)) val_out :
  valid unit = true →
  forallb is_digit w = true →
  forallb is_digit (default [] frac) = true →
  Z.of_nat (length (default [] frac)) <= decimals unit →
  Z.of_nat (length (sign_str sg) + length w) + decimals unit <= 18 →
  sign_str sg ++ w ++ from_option (fun d => 46%N :: d) [] frac ≠ [] →
  parse unit (sign_str sg ++ w ++ from_option (fun d => 46%N :: d) [] frac) val_out
  = (true, stored val_out (apply_sign sg
       (digits_value 0 w * 10 ^ decimals unit
        + digits_value 0 (default [] frac)
          * 10 ^ (decimals unit - Z.of_nat (length (default [] frac)))))).
Proof.
  intros Hv Hw Hd Hdlen Hsize Hne.
  destruct (valid_bounds unit Hv) as [_ Hdec].
  unfold parse. rewrite Hv. cbn [negb orb].
  rewrite bool_decide_false by exact Hne.
  set (d := default [] frac) in *.
  assert (Hsw : no_dot (sign_str sg ++ w)).
  { apply Forall_app. split; [apply sign_no_dot|apply digits_no_dot; exact Hw]. }
  assert (Hparts : split 46 (sign_str sg ++ w ++ from_option (fun d => 46%N :: d) [] frac)
                   = (sign_str sg ++ w) :: match frac with Some _ => [d] | None => [] end).
  { rewrite app_assoc. destruct frac as [d0|]; simpl.
    - rewrite (split_at_dot _ _ Hsw), (split_no_dot d0) by (apply digits_no_dot; exact Hd).
      reflexivity.
    - rewrite app_nil_r. apply split_no_dot. exact Hsw. }
  rewrite Hparts.
  assert (Hdec_ : (if (1 <? length ((sign_str sg ++ w)
                        :: match frac with Some _ => [d] | None => [] end))%nat
                   then default [] (((sign_str sg ++ w)
                        :: match frac with Some _ => [d] | None => [] end) !! 1%nat)
                   else []) = d).
  { unfold d. destruct frac; reflexivity. }
  assert (Hfew : (2 <? length ((sign_str sg ++ w)
                    :: match frac with Some _ => [d] | None => [] end))%nat = false)
    by (destruct frac; reflexivity).
  rewrite Hfew, Hdec_. cbn [lookup list_lookup default].
  rewrite (proj2 (Z.ltb_ge _ _)) by lia.
  unfold leftJustified, id. rewrite <- !app_assoc.
  set (D := w ++ d ++ replicate (Z.to_nat (decimals unit - Z.of_nat (length d))) 48%N).
  assert (HDlen : length D = (length w + Z.to_nat (decimals unit))%nat).
  { unfold D. rewrite !length_app, length_replicate. lia. }
  rewrite (proj2 (Z.ltb_ge _ _))
    by (rewrite length_app, HDlen; lia).
  assert (HDd : forallb is_digit D = true).
  { unfold D. rewrite !forallb_app, Hw, Hd, forallb_replicate_zero. reflexivity. }
  rewrite toLongLong_sign_digits; [| |exact HDd|].
  - assert (Hval : digits_value 0 D
                   = digits_value 0 w * 10 ^ decimals unit
                     + digits_value 0 d * 10 ^ (decimals unit - Z.of_nat (length d))).
    { unfold D.
      assert (Hk : Z.of_nat (Z.to_nat (decimals unit - Z.of_nat (length d)))
                   = decimals unit - Z.of_nat (length d)) by lia.
      rewrite !digits_value_app, digits_value_zeros, (digits_value_shift d), Hk.
      assert (Hp : 10 ^ decimals unit
                   = 10 ^ Z.of_nat (length d) * 10 ^ (decimals unit - Z.of_nat (length d))).
      { rewrite <- Z.pow_add_r by lia. f_equal. lia. }
      rewrite Hp. ring. }
    rewrite Hval. reflexivity.
  - intros HD. apply (f_equal length) in HD. rewrite HDlen in HD. simpl in HD. lia.
  - rewrite HDlen. lia.
Qed.

Lemma parse_refuses_lemma unit value val_out :
  valid unit = false
  ∨ value = []
  ∨ (2 <= length (filter (fun c => c = 46%N) value))%nat
  ∨ (∃ a b, value = a ++ 46%N :: b ∧ no_dot a ∧ no_dot b
            ∧ (decimals unit < Z.of_nat (length b)
               ∨ 18 < Z.of_nat (length a) + decimals unit))
  ∨ (no_dot value ∧ 18 < Z.of_nat (length value) + decimals unit) →
  parse unit value val_out = (false, val_out).
Proof.
  unfold parse. destruct (valid unit) eqn:Hv; [|reflexivity]. cbn [negb orb].
  pose proof (valid_bounds unit Hv) as [_ Hdec].
  intros [[=]|[->|Hcase]]; [reflexivity|].
  case_bool_decide; [reflexivity|].
  destruct Hcase as [Hdots|[(a & b & -> & Ha & Hb & Hbad)|[Hnd Hlong]]].
  - rewrite split_length.
    rewrite (proj2 (Nat.ltb_lt _ _)) by lia. reflexivity.
  - rewrite (split_at_dot _ _ Ha), (split_no_dot _ Hb). cbn.
    destruct (Z.ltb_spec (decimals unit) (Z.of_nat (length b))) as [Hprec|Hfit];
      [reflexivity|].
    destruct Hbad as [Hbad|Hbad]; [lia|].
    unfold leftJustified. rewrite !length_app, length_replicate.
    rewrite (proj2 (Z.ltb_lt _ _)) by lia. reflexivity.
  - rewrite (split_no_dot _ Hnd). cbn.
    rewrite (proj2 (Z.ltb_ge _ _)) by lia.
    unfold leftJustified. rewrite !length_app, length_replicate.
    rewrite (proj2 (Z.ltb_lt _ _)) by lia. reflexivity.
Qed.

Lemma apply_sign_of n fPlus x :
  (n = 0 → x = 0) → apply_sign (sign_of n fPlus) x = Z.sgn n * x.
Proof.
  intros Hz. unfold sign_of.
  destruct (Z.ltb_spec n 0) as [Hneg|Hpos]; simpl.
  - rewrite Z.sgn_neg by lia. lia.
  - destruct (Z.eq_dec n 0) as [-> | Hnz].
    + rewrite (Hz eq_refl). destruct fPlus; reflexivity.
    + rewrite Z.sgn_pos by lia. destruct (fPlus && (n >? 0)); simpl; lia.
Qed.

(** What [parse] makes of the result of [format]. *)
Lemma format_parse_lemma unit n fPlus val_out :
  valid unit = true →
  - 2 ^ 63 < n < 2 ^ 63 →
  Z.abs n < factor unit * 10 ^ (17 - decimals unit) →
  parse unit (format unit n fPlus) val_out
  = (true, stored val_out (Z.sgn n * (Z.abs n / factor unit * 10 ^ decimals unit
                                      + Z.abs n mod factor unit))).
Proof.
  intros Hv Hn64 Hn. destruct (valid_bounds unit Hv) as [[Hf _] Hdec].
  destruct (format_parts unit n fPlus Hv Hn64)
    as (q & frac & -> & Eq & Hqne & Hqd & Hqv & Hfd & Hflen & _ & Hfv).
  assert (Hq0 : 0 <= Z.abs n / factor unit) by (apply Z.div_pos; lia).
  destruct (number_nonneg _ Hq0) as (q' & Eq' & _ & _ & _ & Hqlen).
  rewrite <- Eq in Eq'. subst q'.
  assert (Hql : (length q <= Z.to_nat (17 - decimals unit))%nat).
  { apply Hqlen; [lia|]. rewrite Z2Nat.id by lia.
    apply Z.div_lt_upper_bound; lia. }
  pose proof (parse_digits unit (sign_of n fPlus) q (Some frac) val_out Hv Hqd Hfd) as Hp.
  cbn [from_option default] in Hp. unfold id in Hp. rewrite Hqv, Hfv in Hp. rewrite Hp.
  - rewrite apply_sign_of; [reflexivity|]. intros ->. reflexivity.
  - lia.
  - assert (length (sign_str (sign_of n fPlus)) <= 1)%nat
      by (destruct (sign_of n fPlus); simpl; lia).
    lia.
  - destruct (sign_str (sign_of n fPlus)), q; discriminate.
Qed.

Lemma plain_units unit :
  unit = FBC ∨ unit = mFBC →
  valid unit = true ∧ factor unit = 10 ^ decimals unit
  ∧ factor unit * 10 ^ (17 - decimals unit) = 10 ^ 17.
Proof.
  unfold valid, factor, decimals. intros [-> | ->].
  - rewrite Z.eqb_refl. repeat split.
  - destruct (mFBC =? FBC); [repeat split|]. rewrite Z.eqb_refl. repeat split.
Qed.

Lemma micro_unit unit :
  unit = uFBC → unit ≠ FBC → unit ≠ mFBC →
  valid unit = true ∧ factor unit = 10000 ∧ decimals unit = 5.
Proof.
  unfold valid, factor, decimals. intros -> Hf Hm.
  rewrite (proj2 (Z.eqb_neq _ _) Hf), (proj2 (Z.eqb_neq _ _) Hm), Z.eqb_refl.
  repeat split.
Qed.

(** *** The properties *)

(** X8: [parse] on decimal notation: an optional sign, digits, and possibly a
    dot and at most [decimals] more digits give the amount in base units,
    the digits after the dot counted from the left.  No digit is needed: a
    lone sign and a lone dot are amounts of zero.  The amount is what
    [val_out] points to afterwards, when it is not null. *)
Theorem parse_decimal_notation unit sg w d val_out :
  valid unit = true →
  forallb is_digit w = true →
  forallb is_digit d = true →
  Z.of_nat (length d) <= decimals unit →
  Z.of_nat (length (sign_str sg) + length w) + decimals unit <= 18 →
  parse unit (sign_str sg ++ w ++ 46%N :: d) val_out
  = (true, stored val_out (apply_sign sg
       (digits_value 0 w * 10 ^ decimals unit
        + digits_value 0 d * 10 ^ (decimals unit - Z.of_nat (length d)))))
  ∧ (sign_str sg ++ w ≠ [] →
     parse unit (sign_str sg ++ w) val_out
     = (true, stored val_out (apply_sign sg (digits_value 0 w * 10 ^ decimals unit)))).
Proof.
  intros Hv Hw Hd Hdlen Hsize. split.
  - pose proof (parse_digits unit sg w (Some d) val_out Hv Hw Hd Hdlen Hsize) as Hp.
    cbn [from_option default] in Hp. unfold id in Hp. apply Hp.
    destruct (sign_str sg), w; discriminate.
  - intros Hne.
    pose proof (parse_digits unit sg w None val_out Hv Hw eq_refl) as Hp.
    cbn [from_option default length digits_value] in Hp. unfold id in Hp.
    rewrite app_nil_r, Z.mul_0_l, Z.add_0_r in Hp.
    apply Hp; [destruct (valid_bounds unit Hv); lia | exact Hsize | exact Hne].
Qed.

(** X9: round trip: in the units FBC and mFBC, [parse] gives back every
    amount below [10 ^ 17] in absolute value from its formatted form, with
    or without the plus sign, into a [val_out] that is not null. *)
Theorem parse_format_round_trip unit n fPlus val_out :
  unit = FBC ∨ unit = mFBC →
  Z.abs n < 10 ^ 17 →
  parse unit (format unit n fPlus) val_out = (true, stored val_out n).
Proof.
  intros Hu Hn. destruct (plain_units unit Hu) as (Hv & Hf & Hrange).
  assert (Hn64 : - 2 ^ 63 < n < 2 ^ 63).
  { change (10 ^ 17) with 100000000000000000 in Hn.
    change (2 ^ 63) with 9223372036854775808. lia. }
  rewrite (format_parse_lemma unit n fPlus val_out Hv Hn64) by (rewrite Hrange; exact Hn).
  f_equal. f_equal. rewrite <- Hf.
  destruct (valid_bounds unit Hv) as [[Hpos _] _].
  assert (Hnz : factor unit ≠ 0) by (intros E; rewrite E in Hpos; discriminate).
  pose proof (Z.div_mod (Z.abs n) (factor unit) Hnz) as Hdm.
  replace (Z.abs n / factor unit * factor unit + Z.abs n mod factor unit)
    with (Z.abs n) by (rewrite (Z.mul_comm _ (factor unit)); exact Hdm).
  rewrite Z.mul_comm. apply Z.abs_sgn.
Qed.

(** X10: in the unit uFBC the factor is [10 ^ 4] while five decimals are
    printed and read: [parse] does not give back the amount that [format]
    printed but the amount plus 90000 for every 10000 base units in it,
    into a [val_out] that is not null. *)
Theorem parse_format_micro unit n fPlus val_out :
  unit = uFBC → unit ≠ FBC → unit ≠ mFBC →
  Z.abs n < 10 ^ 16 →
  parse unit (format unit n fPlus) val_out
  = (true, stored val_out (n + 90000 * Z.quot n 10000))
  ∧ (10000 <= Z.abs n → n + 90000 * Z.quot n 10000 ≠ n).
Proof.
  intros Hu Hf Hm Hn. destruct (micro_unit unit Hu Hf Hm) as (Hv & Hfac & Hdec).
  assert (Hn64 : - 2 ^ 63 < n < 2 ^ 63).
  { change (10 ^ 16) with 10000000000000000 in Hn.
    change (2 ^ 63) with 9223372036854775808. lia. }
  split.
  - rewrite (format_parse_lemma unit n fPlus val_out Hv Hn64)
      by (rewrite Hfac, Hdec; change (10000 * 10 ^ (17 - 5)) with (10 ^ 16); exact Hn).
    f_equal. f_equal. rewrite Hfac, Hdec. change (10 ^ 5) with 100000.
    pose proof (Z.div_mod (Z.abs n) 10000 ltac:(lia)) as Hdm.
    assert (Hq : Z.quot n 10000 = Z.sgn n * (Z.abs n / 10000)).
    { rewrite <- (Z.quot_div_nonneg (Z.abs n) 10000) by lia.
      destruct (Z.abs_spec n) as [[Hpos ->]|[Hneg ->]].
      - destruct (Z.eq_dec n 0) as [-> | Hnz]; [reflexivity|].
        rewrite Z.sgn_pos by lia. lia.
      - rewrite Z.sgn_neg, Z.quot_opp_l by lia. lia. }
    rewrite Hq. pose proof (Z.sgn_abs n). nia.
  - intros Hbig Heq.
    assert (Hz : Z.quot n 10000 = 0) by lia.
    apply Z.quot_small_iff in Hz; lia.
Qed.

(** X11: when [parse] returns true, the value that line 165 converted
    from the text of line 159 lies strictly between [- 10 ^ 18] and
    [10 ^ 18], so the conversion does not fail for lack of range in a
    [qint64].  A destination that is not null holds this value afterwards;
    through a null [val_out] nothing is stored. *)
Theorem parse_fits_qint64 unit value val_out out :
  parse unit value val_out = (true, out) →
  ∃ z, toLongLong (padded_text unit value) = (true, z)
       ∧ - 10 ^ 18 < z < 10 ^ 18
       ∧ out = stored val_out z.
Proof.
  unfold parse, padded_text. cbv zeta.
  destruct (negb (valid unit) || bool_decide (value = [])); [discriminate|].
  destruct (2 <? length (split 46 value))%nat; [discriminate|].
  set (whole := default [] (split 46 value !! 0%nat)).
  set (dec_ := if (1 <? length (split 46 value))%nat
               then default [] (split 46 value !! 1%nat) else []).
  destruct (decimals unit <? Z.of_nat (length dec_)); [discriminate|].
  set (str := whole ++ leftJustified (decimals unit) 48 dec_).
  destruct (Z.ltb_spec 18 (Z.of_nat (length str))) as [|Hlen18]; [discriminate|].
  destruct (toLongLong str) as [ok z] eqn:Hconv.
  pose proof (toLongLong_bound str ok z Hconv) as Hb.
  assert (Hp : 10 ^ Z.of_nat (length str) <= 10 ^ 18)
    by (apply Z.pow_le_mono_r; lia).
  intros [= -> <-]. exists z. split; [reflexivity|]. split; [lia|reflexivity].
Qed.

(** X12: what [parse] refuses before converting anything, leaving [*val_out]
    as it is: an invalid unit, the empty string, two dots or more, more
    digits after the dot than the unit has decimals, and a number that
    would take more than 18 characters once padded to all decimals. *)
Theorem parse_refuses unit value val_out :
  valid unit = false
  ∨ value = []
  ∨ (2 <= length (filter (fun c => c = 46%N) value))%nat
  ∨ (∃ a b, value = a ++ 46%N :: b ∧ no_dot a ∧ no_dot b
            ∧ (decimals unit < Z.of_nat (length b)
               ∨ 18 < Z.of_nat (length a) + decimals unit))
  ∨ (no_dot value ∧ 18 < Z.of_nat (length value) + decimals unit) →
  parse unit value val_out = (false, val_out).
Proof. apply parse_refuses_lemma. Qed.

(** X13: the form of a formatted amount, for every [qint64] but the least:
    the sign, the digits of the quotient by the factor, a dot, and between
    2 and [decimals] digits that stand for the remainder and end in a zero
    only when there are just two of them.  An invalid unit gives the empty
    string. *)
Theorem format_shape unit n fPlus :
  - 2 ^ 63 < n < 2 ^ 63 →
  (valid unit = false → format unit n fPlus = [])
  ∧ (valid unit = true →
     ∃ frac,
       format unit n fPlus
       = sign_str (sign_of n fPlus) ++ number (Z.abs n / factor unit) ++ 46%N :: frac
       ∧ forallb is_digit frac = true
       ∧ 2 <= Z.of_nat (length frac) <= decimals unit
       ∧ ((length frac <= 2)%nat ∨ last frac ≠ Some 48%N)
       ∧ digits_value 0 frac * 10 ^ (decimals unit - Z.of_nat (length frac))
         = Z.abs n mod factor unit).
Proof.
  intros Hn64. split.
  - intros Hv. unfold format. rewrite Hv. reflexivity.
  - intros Hv. destruct (format_parts unit n fPlus Hv Hn64)
      as (q & frac & E & -> & _ & _ & _ & Hfd & Hflen & Hlast & Hfv).
    exists frac. auto.
Qed.

(** X14: a formatted amount of [factor * 10 ^ (18 - decimals)] base units or
    more (10 ^ 18 in the unit FBC) cannot be read back: [parse] refuses it
    for its length and leaves [*val_out] as it is. *)
Theorem parse_refuses_large_format unit n fPlus val_out :
  valid unit = true →
  - 2 ^ 63 < n < 2 ^ 63 →
  factor unit * 10 ^ (18 - decimals unit) <= Z.abs n →
  parse unit (format unit n fPlus) val_out = (false, val_out).
Proof.
  intros Hv Hn64 Hn. destruct (valid_bounds unit Hv) as [[Hf _] Hdec].
  destruct (format_parts unit n fPlus Hv Hn64)
    as (q & frac & -> & -> & _ & Hqd & _ & Hfd & Hflen & _ & _).
  assert (Hq0 : 0 <= Z.abs n / factor unit) by (apply Z.div_pos; lia).
  assert (Hlow : (Z.to_nat (18 - decimals unit)
                  < length (number (Z.abs n / factor unit)))%nat).
  { apply number_length_lower; [exact Hq0|]. rewrite Z2Nat.id by lia.
    apply Z.div_le_lower_bound; lia. }
  apply parse_refuses_lemma. right. right. right. left.
  exists (sign_str (sign_of n fPlus) ++ number (Z.abs n / factor unit)), frac.
  split; [rewrite <- app_assoc; reflexivity|].
  split; [apply Forall_app; split; [apply sign_no_dot|apply digits_no_dot; exact Hqd]|].
  split; [apply digits_no_dot; exact Hfd|].
  right. rewrite length_app. lia.
Qed.

End Tables.

End UnitsFacts.

(** * Properties of the parameter conversion *)

Module RpcFacts.
Import RpcClient.

#[local] Arguments apply_rule : simpl never.

Lemma int_of_size_le k : int_of_size k <= Z.of_nat k.
Proof.
  unfold int_of_size. cbv zeta.
  pose proof (Z.mod_pos_bound (Z.of_nat k) (2 ^ 32) ltac:(lia)).
  pose proof (Z.mod_le (Z.of_nat k) (2 ^ 32) ltac:(lia) ltac:(lia)).
  destruct (_ <? _); lia.
Qed.

Lemma conversions_keys_NoDup : NoDup (rule_key <$> conversions).
Proof. apply (bool_decide_unpack _). vm_compute. exact I. Qed.

Section Conversion.
Variable read_string : string → option Value.
Variable get_value : Target → Value → Value + string.

Lemma ConvertTo_rec_in_bounds fuel T a v :
  in_bounds (ConvertTo_rec read_string get_value fuel T a v).
Proof.
  revert v. induction fuel as [|f IH]; intros v; simpl; [exact I|].
  destruct (a && is_null v); [exact I|].
  destruct v; try (destruct (get_value T _); exact I).
  destruct (read_string s); [apply IH|exact I].
Qed.

Lemma ConvertTo_rec_finishes fuel T a v :
  unwraps read_string → (nesting_bound v < fuel)%nat →
  finished (ConvertTo_rec read_string get_value fuel T a v).
Proof.
  intros Hs. revert v. induction fuel as [|f IH]; intros v Hf; [lia|]. simpl.
  destruct (a && is_null v); [exact I|].
  destruct v; try (destruct (get_value T _); exact I).
  destruct (read_string s) as [v2|] eqn:E; [|exact I].
  apply IH. destruct v2; simpl in *; try lia.
  apply Hs in E. lia.
Qed.

Lemma ConvertTo_rec_Ok fuel T a v v' :
  ConvertTo_rec read_string get_value fuel T a v = Ok v' →
  (a = true ∧ v' = VNull)
  ∨ ∃ u, is_str u = false ∧ get_value T u = inl v'.
Proof.
  revert v. induction fuel as [|f IH]; intros v; simpl; [discriminate|].
  destruct a, v; simpl;
    try (intros [= <-]; left; split; reflexivity);
    try (destruct (read_string s); [apply IH|discriminate]);
    match goal with
    | |- context [get_value T ?u] =>
        destruct (get_value T u) as [w|w] eqn:E; intros [= <-];
        right; exists u; split; [reflexivity|exact E]
    end.
Qed.

Lemma ConvertTo_rec_Throw fuel T a v what :
  ConvertTo_rec read_string get_value fuel T a v = Throw what →
  (∃ s, read_string s = None ∧ what = "Error parsing JSON:" +:+ s)
  ∨ ∃ u, is_str u = false ∧ get_value T u = inr what.
Proof.
  revert v. induction fuel as [|f IH]; intros v; simpl; [discriminate|].
  destruct a, v; simpl; try discriminate;
    try (destruct (read_string s) eqn:E;
         [apply IH|intros [= <-]; left; exists s; split; [exact E|reflexivity]]);
    match goal with
    | |- context [get_value T ?u] =>
        destruct (get_value T u) as [w|w] eqn:E; intros [= <-];
        right; exists u; split; [reflexivity|exact E]
    end.
Qed.

(** *** One line of [RPCConvertValues] *)

Lemma apply_rule_Ok m n m' i T a ps ps' :
  apply_rule read_string get_value m n (m', i, T, a) ps = Ok ps' →
  (m = m' ∧ Z.of_nat i < n
   ∧ ∃ v v', ps !! i = Some v
             ∧ ConvertTo read_string get_value T a v = Ok v'
             ∧ ps' = <[i := v']> ps)
  ∨ (¬ (m = m' ∧ Z.of_nat i < n) ∧ ps' = ps).
Proof.
  unfold apply_rule.
  destruct (String.eqb_spec m m') as [->|Hm]; simpl.
  - destruct (Z.ltb_spec (Z.of_nat i) n) as [Hi|Hi].
    + unfold convert_at. destruct (ps !! i) as [v|] eqn:E; [|discriminate].
      destruct (ConvertTo read_string get_value T a v) as [v'| | |] eqn:Ec; try discriminate.
      intros [= <-]. left. split; [reflexivity|]. split; [exact Hi|].
      exists v, v'. split; [reflexivity|]. split; [exact Ec|reflexivity].
    + intros [= <-]. right. split; [lia|reflexivity].
  - intros [= <-]. right. split; [intros [? _]; contradiction|reflexivity].
Qed.

Lemma apply_rule_skip m n m' i T a ps :
  ¬ (m = m' ∧ Z.of_nat i < n) →
  apply_rule read_string get_value m n (m', i, T, a) ps = Ok ps.
Proof.
  intros Hn. unfold apply_rule.
  destruct (String.eqb_spec m m') as [->|Hm]; simpl; [|reflexivity].
  destruct (Z.ltb_spec (Z.of_nat i) n) as [Hi|Hi]; [|reflexivity].
  exfalso. apply Hn. split; [reflexivity|exact Hi].
Qed.

Lemma apply_rule_hit m n i T a ps v :
  Z.of_nat i < n → ps !! i = Some v →
  apply_rule read_string get_value m n (m, i, T, a) ps
  = match ConvertTo read_string get_value T a v with
    | Ok v' => Ok (<[i := v']> ps)
    | Throw what => Throw what
    | Unfinished => Unfinished
    | OutOfBounds => OutOfBounds
    end.
Proof.
  intros Hi Hv. unfold apply_rule. rewrite String.eqb_refl. simpl.
  destruct (Z.ltb_spec (Z.of_nat i) n); [|lia].
  unfold convert_at. rewrite Hv. reflexivity.
Qed.

(** *** The lines in sequence *)

Lemma apply_rules_frame m n rs ps ps' :
  apply_rules read_string get_value m n rs ps = Ok ps' →
  length ps' = length ps
  ∧ ∀ j, (m, j) ∉ rule_key <$> rs → ps' !! j = ps !! j.
Proof.
  revert ps. induction rs as [|[[[m' i] T] a] rs IH]; intros ps; simpl.
  - intros [= <-]. split; [reflexivity|]. intros; reflexivity.
  - destruct (apply_rule read_string get_value m n (m', i, T, a) ps) as [ps1| | |] eqn:E;
      try discriminate.
    intros Hr. destruct (IH _ Hr) as [Hl Hf].
    apply apply_rule_Ok in E
      as [(-> & Hi & v & v' & Hv & Hc & ->) | [Hn ->]].
    + split; [rewrite Hl; apply length_insert|].
      intros j Hj. rewrite Hf by (intros ?; apply Hj; right; assumption).
      apply list_lookup_insert_ne. intros ->. apply Hj. left.
    + split; [exact Hl|]. intros j Hj. apply Hf.
      intros ?; apply Hj; right; assumption.
Qed.

Lemma apply_rules_converted m n rs ps ps' :
  NoDup (rule_key <$> rs) →
  apply_rules read_string get_value m n rs ps = Ok ps' →
  ∀ i T a, (m, i, T, a) ∈ rs → Z.of_nat i < n →
    ∃ v v', ps !! i = Some v
            ∧ ConvertTo read_string get_value T a v = Ok v'
            ∧ ps' !! i = Some v'.
Proof.
  revert ps. induction rs as [|[[[m' i'] T'] a'] rs IH]; intros ps Hnd; simpl.
  - intros _ i T a Hin. inversion Hin.
  - apply NoDup_cons in Hnd as [Hhd Hnd].
    destruct (apply_rule read_string get_value m n (m', i', T', a') ps) as [ps1| | |] eqn:E;
      try discriminate.
    intros Hr i T a Hin Hi.
    apply elem_of_cons in Hin as [[= <- <- <- <-] | Hin].
    + apply apply_rule_Ok in E
        as [(_ & _ & v & v' & Hv & Hc & ->) | [Hn _]].
      * exists v, v'. split; [exact Hv|]. split; [exact Hc|].
        destruct (apply_rules_frame _ _ _ _ _ Hr) as [_ Hf].
        rewrite (Hf i Hhd). apply list_lookup_insert_eq.
        apply lookup_lt_Some in Hv. exact Hv.
      * exfalso. apply Hn. split; [reflexivity|exact Hi].
    + destruct (IH _ Hnd Hr i T a Hin Hi) as (v & v' & Hv & Hc & Hp).
      exists v, v'. split; [|split; [exact Hc|exact Hp]].
      rewrite <- Hv. symmetry.
      apply apply_rule_Ok in E
        as [(-> & _ & v0 & v0' & _ & _ & ->) | [_ ->]]; [|reflexivity].
      apply list_lookup_insert_ne. intros ->. apply Hhd.
      apply (list_elem_of_fmap_2 rule_key) in Hin. exact Hin.
Qed.

Lemma apply_rules_is_Ok m n rs ps :
  NoDup (rule_key <$> rs) →
  (∀ i T a, (m, i, T, a) ∈ rs → Z.of_nat i < n →
     ∃ v, ps !! i = Some v ∧ is_Ok (ConvertTo read_string get_value T a v)) →
  is_Ok (apply_rules read_string get_value m n rs ps).
Proof.
  revert ps. induction rs as [|[[[m' i'] T'] a'] rs IH]; intros ps Hnd Hall; simpl.
  - exact I.
  - apply NoDup_cons in Hnd as [Hhd Hnd].
    assert (Hstep : ∃ ps1,
      apply_rule read_string get_value m n (m', i', T', a') ps = Ok ps1
      ∧ ∀ j, (m, j) ≠ (m', i') → ps1 !! j = ps !! j).
    { destruct (decide (m = m' ∧ Z.of_nat i' < n)) as [[<- Hi]|Hn].
      - destruct (Hall i' T' a' ltac:(left) Hi) as (v & Hv & Hok).
        rewrite (apply_rule_hit _ _ _ _ _ _ v Hi Hv).
        destruct (ConvertTo read_string get_value T' a' v) as [v'| | |]; try contradiction.
        eexists. split; [reflexivity|]. intros j Hj.
        apply list_lookup_insert_ne. intros ->. apply Hj. reflexivity.
      - exists ps. split; [apply apply_rule_skip; exact Hn|]. reflexivity. }
    destruct Hstep as (ps1 & -> & Hsame).
    apply IH; [exact Hnd|]. intros i T a Hin Hi.
    destruct (Hall i T a ltac:(right; exact Hin) Hi) as (v & Hv & Hok).
    exists v. split; [|exact Hok]. rewrite Hsame; [exact Hv|].
    intros Heq. apply Hhd. change (m', i') with (rule_key (m', i', T', a')).
    rewrite <- Heq. apply (list_elem_of_fmap_2 rule_key) in Hin. exact Hin.
Qed.

Lemma apply_rules_Throw m n rs ps what :
  NoDup (rule_key <$> rs) →
  apply_rules read_string get_value m n rs ps = Throw what →
  ∃ i T a v, (m, i, T, a) ∈ rs ∧ Z.of_nat i < n ∧ ps !! i = Some v
             ∧ ConvertTo read_string get_value T a v = Throw what.
Proof.
  revert ps. induction rs as [|[[[m' i'] T'] a'] rs IH]; intros ps Hnd; simpl.
  - discriminate.
  - apply NoDup_cons in Hnd as [Hhd Hnd].
    destruct (apply_rule read_string get_value m n (m', i', T', a') ps) as [ps1|w| |] eqn:E;
      try discriminate.
    + intros Hr. destruct (IH _ Hnd Hr) as (i & T & a & v & Hin & Hi & Hv & Hc).
      exists i, T, a, v. split; [right; exact Hin|]. split; [exact Hi|].
      split; [|exact Hc]. rewrite <- Hv. symmetry.
      apply apply_rule_Ok in E
        as [(-> & _ & v0 & v0' & _ & _ & ->) | [_ ->]]; [|reflexivity].
      apply list_lookup_insert_ne. intros ->. apply Hhd.
      apply (list_elem_of_fmap_2 rule_key) in Hin. exact Hin.
    + intros [= <-]. revert E. unfold apply_rule.
      destruct (String.eqb_spec m m') as [->|Hm]; simpl; [|discriminate].
      destruct (Z.ltb_spec (Z.of_nat i') n) as [Hi|Hi]; [|discriminate].
      unfold convert_at. destruct (ps !! i') as [v|] eqn:Hv; [|discriminate].
      destruct (ConvertTo read_string get_value T' a' v) as [v'|w'| |] eqn:Hc; try discriminate.
      intros [= ->]. exists i', T', a', v.
      split; [left|]. split; [exact Hi|]. split; [exact Hv|exact Hc].
Qed.

Lemma apply_rules_in_bounds m n rs ps :
  n <= Z.of_nat (length ps) →
  in_bounds (apply_rules read_string get_value m n rs ps).
Proof.
  revert ps. induction rs as [|[[[m' i'] T'] a'] rs IH]; intros ps Hn; simpl.
  - exact I.
  - destruct (apply_rule read_string get_value m n (m', i', T', a') ps) as [ps1| | |] eqn:E;
      try exact I.
    + apply IH. apply apply_rule_Ok in E
        as [(_ & _ & v & v' & _ & _ & ->) | [_ ->]]; [|exact Hn].
      rewrite length_insert. exact Hn.
    + revert E. unfold apply_rule.
      destruct (String.eqb m m' && (Z.of_nat i' <? n)) eqn:Hc; [|discriminate].
      apply andb_true_iff in Hc as [_ Hi]. apply Z.ltb_lt in Hi.
      unfold convert_at.
      destruct (ps !! i') as [v|] eqn:Hv.
      * pose proof (ConvertTo_rec_in_bounds (S (nesting_bound v)) T' a' v) as Hb.
        unfold ConvertTo.
        destruct (ConvertTo_rec read_string get_value _ T' a' v); try discriminate. contradiction.
      * apply lookup_ge_None in Hv. lia.
Qed.

Lemma apply_rules_finishes m n rs ps :
  unwraps read_string →
  finished (apply_rules read_string get_value m n rs ps).
Proof.
  intros Hs. revert ps. induction rs as [|[[[m' i'] T'] a'] rs IH]; intros ps; simpl.
  - exact I.
  - destruct (apply_rule read_string get_value m n (m', i', T', a') ps) as [ps1| | |] eqn:E;
      try exact I; [apply IH|].
    revert E. unfold apply_rule.
    destruct (String.eqb m m' && (Z.of_nat i' <? n)); [|discriminate].
    unfold convert_at. destruct (ps !! i') as [v|]; [|discriminate].
    pose proof (ConvertTo_rec_finishes (S (nesting_bound v)) T' a' v Hs
                  ltac:(lia)) as Hb.
    unfold ConvertTo.
    destruct (ConvertTo_rec read_string get_value _ T' a' v); try discriminate. contradiction.
Qed.

(** *** [ConvertTo] *)

(** X15: with a parser whose string results are shorter than what it reads,
    [ConvertTo] returns or throws: the nesting of reinterpreted strings
    ends. *)
Theorem ConvertTo_finishes T fAllowNull value :
  unwraps read_string →
  finished (ConvertTo read_string get_value T fAllowNull value).
Proof.
  intros Hs. apply ConvertTo_rec_finishes; [exact Hs|lia].
Qed.

(** X16: what [ConvertTo] returns is the null value, when [fAllowNull] is
    set, or what the typed accessor built from a value that is not a
    string: a string is never left as it is. *)
Theorem ConvertTo_returns_typed T fAllowNull value value' :
  ConvertTo read_string get_value T fAllowNull value = Ok value' →
  (fAllowNull = true ∧ value' = VNull)
  ∨ ∃ u, is_str u = false ∧ get_value T u = inl value'.
Proof. apply ConvertTo_rec_Ok. Qed.

(** X17: what [ConvertTo] throws is the parse error with the rejected text, or
    the exception of the typed accessor on a value that is not a string. *)
Theorem ConvertTo_throws T fAllowNull value what :
  ConvertTo read_string get_value T fAllowNull value = Throw what →
  (∃ s, read_string s = None ∧ what = "Error parsing JSON:" +:+ s)
  ∨ ∃ u, is_str u = false ∧ get_value T u = inr what.
Proof. apply ConvertTo_rec_Throw. Qed.

(** *** [RPCConvertValues] *)

(** X18: the array returned has one value for each parameter, and a position
    for which the method has no line holds the parameter as a string. *)
Theorem RPCConvertValues_frame strMethod strParams params :
  RPCConvertValues read_string get_value strMethod strParams = Ok params →
  length params = length strParams
  ∧ ∀ j, (strMethod, j) ∉ rule_key <$> conversions →
         params !! j = VStr <$> strParams !! j.
Proof.
  unfold RPCConvertValues. cbv zeta. intros Hr.
  destruct (apply_rules_frame _ _ _ _ _ Hr) as [Hl Hf].
  split; [rewrite Hl; apply length_fmap|].
  intros j Hj. rewrite (Hf j Hj). apply list_lookup_fmap.
Qed.

(** X19: a method that no line names gets its parameters as strings, whatever
    they are. *)
Theorem RPCConvertValues_unlisted_method strMethod strParams :
  strMethod ∉ rule_method <$> conversions →
  RPCConvertValues read_string get_value strMethod strParams
  = Ok (VStr <$> strParams).
Proof.
  intros Hm. unfold RPCConvertValues. cbv zeta.
  generalize (int_of_size (length (VStr <$> strParams))) as n.
  generalize (VStr <$> strParams) as ps.
  revert Hm. generalize conversions as rs.
  induction rs as [|[[[m' i'] T'] a'] rs IH]; intros Hm ps n; simpl; [reflexivity|].
  rewrite apply_rule_skip.
  - apply IH. intros Hin. apply Hm. right. exact Hin.
  - intros [-> _]. apply Hm. left.
Qed.

(** X20: when the call returns, each parameter that a line of the method
    names holds the conversion of its string. *)
Theorem RPCConvertValues_converted strMethod strParams params i T fAllowNull :
  RPCConvertValues read_string get_value strMethod strParams = Ok params →
  (strMethod, i, T, fAllowNull) ∈ conversions →
  Z.of_nat i < int_of_size (length strParams) →
  ∃ s value, strParams !! i = Some s
             ∧ ConvertTo read_string get_value T fAllowNull (VStr s) = Ok value
             ∧ params !! i = Some value.
Proof.
  unfold RPCConvertValues. cbv zeta. rewrite length_fmap. intros Hr Hin Hi.
  destruct (apply_rules_converted _ _ _ _ _ conversions_keys_NoDup Hr
              i T fAllowNull Hin Hi) as (v & v' & Hv & Hc & Hp).
  rewrite list_lookup_fmap in Hv.
  destruct (strParams !! i) as [s|]; [|discriminate]. injection Hv as <-.
  exists s, v'. split; [reflexivity|]. split; [exact Hc|exact Hp].
Qed.

(** X21: the call returns if and only if each conversion that a line of the
    method asks for returns on the string of its parameter. *)
Theorem RPCConvertValues_returns_iff strMethod strParams :
  is_Ok (RPCConvertValues read_string get_value strMethod strParams)
  ↔ ∀ i T fAllowNull s,
      (strMethod, i, T, fAllowNull) ∈ conversions →
      Z.of_nat i < int_of_size (length strParams) →
      strParams !! i = Some s →
      is_Ok (ConvertTo read_string get_value T fAllowNull (VStr s)).
Proof.
  unfold RPCConvertValues. cbv zeta. rewrite length_fmap. split.
  - intros Hok i T a s Hin Hi Hs.
    destruct (apply_rules read_string get_value _ _ _ _) as [ps'| | |] eqn:Hr; try contradiction.
    destruct (apply_rules_converted _ _ _ _ _ conversions_keys_NoDup Hr
                i T a Hin Hi) as (v & v' & Hv & Hc & _).
    rewrite list_lookup_fmap, Hs in Hv. injection Hv as <-.
    rewrite Hc. exact I.
  - intros Hall. apply apply_rules_is_Ok; [exact conversions_keys_NoDup|].
    intros i T a Hin Hi.
    pose proof (int_of_size_le (length strParams)) as Hle.
    destruct (strParams !! i) as [s|] eqn:Hs.
    + exists (VStr s). split; [rewrite list_lookup_fmap, Hs; reflexivity|].
      apply (Hall i T a s Hin Hi Hs).
    + apply lookup_ge_None in Hs. lia.
Qed.

(** X22: an exception of the call is the exception of a conversion that a
    line of the method asks for, on the string of its parameter. *)
Theorem RPCConvertValues_throws strMethod strParams what :
  RPCConvertValues read_string get_value strMethod strParams = Throw what →
  ∃ i T fAllowNull s,
    (strMethod, i, T, fAllowNull) ∈ conversions
    ∧ strParams !! i = Some s
    ∧ ConvertTo read_string get_value T fAllowNull (VStr s) = Throw what.
Proof.
  unfold RPCConvertValues. cbv zeta. intros Hr.
  destruct (apply_rules_Throw _ _ _ _ _ conversions_keys_NoDup Hr)
    as (i & T & a & v & Hin & _ & Hv & Hc).
  rewrite list_lookup_fmap in Hv.
  destruct (strParams !! i) as [s|] eqn:Hs; [|discriminate]. injection Hv as <-.
  exists i, T, a, s. split; [exact Hin|]. split; [exact Hs|exact Hc].
Qed.

(** X23: no line indexes the array outside its elements, whatever the number
    of parameters and its conversion to [int]. *)
Theorem RPCConvertValues_in_bounds strMethod strParams :
  in_bounds (RPCConvertValues read_string get_value strMethod strParams).
Proof.
  unfold RPCConvertValues. cbv zeta. apply apply_rules_in_bounds.
  apply int_of_size_le.
Qed.

(** X24: with a parser whose string results are shorter than what it reads,
    the call returns or throws. *)
Theorem RPCConvertValues_finishes strMethod strParams :
  unwraps read_string →
  finished (RPCConvertValues read_string get_value strMethod strParams).
Proof. intros Hs. apply apply_rules_finishes. exact Hs. Qed.

End Conversion.

(** ** [CommandLineRPC] *)

Lemma abs_nonneg code n : abs code = Some n → 0 <= n.
Proof. unfold abs. destruct (code =? _); [discriminate|]. intros [= <-]. lia. Qed.

Lemma finish_error what n :
  finish ("error: " +:+ what) n
  = Exits n (Some (if n =? 0 then stdout else stderr, "error: " +:+ what)).
Proof. reflexivity. Qed.

Section CommandLineFacts.
Variable read_string : string → option Value.
Variable get_value : Target → Value → Value + string.
Variable IsSwitchChar : ascii → bool.
Variable RPC_MISC_ERROR : Z.
Variable CallRPC : string → list Value → Status (list (string * Value)).
Variable find_value : list (string * Value) → string → Value.
Variable write_string : Value → bool → string.
Variable get_obj : Value → list (string * Value) + string.
Variable get_int : Value → Z + string.

#[local] Abbreviation try_block :=
  (try_block read_string get_value IsSwitchChar CallRPC find_value write_string
     get_obj get_int).
#[local] Abbreviation CommandLineRPC :=
  (CommandLineRPC read_string get_value IsSwitchChar RPC_MISC_ERROR CallRPC
     find_value write_string get_obj get_int).
#[local] Abbreviation parse_reply := (parse_reply find_value write_string get_obj get_int).

Lemma skip_switches_tail a a' rest :
  tail (skip_switches IsSwitchChar a rest) = tail (skip_switches IsSwitchChar a' rest).
Proof.
  destruct rest as [|b rest]; [reflexivity|]. simpl.
  destruct (IsSwitchChar (first_char b)); reflexivity.
Qed.

Lemma skip_switches_app a switches rest :
  Forall (fun arg => is_switch IsSwitchChar arg = true) switches →
  tail (skip_switches IsSwitchChar a (switches ++ rest))
  = tail (skip_switches IsSwitchChar a rest).
Proof.
  intros Hsw. revert a. induction Hsw as [|b sw Hb _ IH]; intros a; [reflexivity|].
  simpl. unfold is_switch in Hb. rewrite Hb. rewrite IH. apply skip_switches_tail.
Qed.

Lemma skip_switches_cons a rest : ∃ a', skip_switches IsSwitchChar a rest
                                        = a' :: tail (skip_switches IsSwitchChar a rest).
Proof.
  revert a. induction rest as [|b rest IH]; intros a; simpl; [eexists; reflexivity|].
  destruct (IsSwitchChar (first_char b)); [apply IH|eexists; reflexivity].
Qed.

Lemma skip_switches_head_tail a rest b rest' :
  tail (skip_switches IsSwitchChar a rest) = b :: rest' →
  is_switch IsSwitchChar b = false.
Proof.
  revert a. induction rest as [|c rest IH]; intros a; simpl; [discriminate|].
  destruct (IsSwitchChar (first_char c)) eqn:E; [apply IH|].
  simpl. intros [= <- _]. exact E.
Qed.

Lemma try_block_tail argv0 rest :
  try_block (argv0 :: rest)
  = match tail (skip_switches IsSwitchChar argv0 rest) with
    | strMethod :: strParams =>
        match RPCConvertValues read_string get_value strMethod strParams with
        | Ok params =>
            match CallRPC strMethod params with
            | Normal reply => parse_reply reply
            | Raised e => Raised e
            | Hang => Hang
            | Undefined => Undefined
            | Stuck => Stuck
            end
        | Throw what => Raised (StdException what)
        | Unfinished => Stuck
        | OutOfBounds => Stuck
        end
    | [] => Raised (StdException "too few parameters")
    end.
Proof.
  unfold RpcClient.try_block.
  destruct (skip_switches_cons argv0 rest) as [a' ->]. simpl.
  destruct (tail _); reflexivity.
Qed.

Lemma parse_reply_Normal reply strPrint nRet :
  parse_reply reply = Normal (strPrint, nRet) →
  0 <= nRet ∧ (nRet ≠ 0 → ∃ text, strPrint = "error: " +:+ text).
Proof.
  unfold RpcClient.parse_reply. cbv zeta.
  destruct (negb (is_null (find_value reply "error"))).
  - destruct (get_obj _) as [obj|]; [|discriminate].
    destruct (get_int _) as [code|]; [|discriminate].
    destruct (abs code) as [n|] eqn:E; [|discriminate].
    intros [= <- <-]. split; [apply (abs_nonneg _ _ E)|].
    intros _. eexists. reflexivity.
  - intros [= <- <-]. split; [lia|]. intros Hn. contradiction.
Qed.

Lemma try_block_raised argv e :
  try_block argv = Raised e →
  (∃ what, e = StdException what)
  ∨ ∃ strMethod params, CallRPC strMethod params = Raised e.
Proof.
  destruct argv as [|argv0 rest].
  - intros [= <-]. left. eexists. reflexivity.
  - rewrite try_block_tail.
    destruct (tail _) as [|strMethod strParams].
    + intros [= <-]. left. eexists. reflexivity.
    + destruct (RPCConvertValues _ _ _ _) as [params|what| |]; try discriminate.
      * destruct (CallRPC strMethod params) as [reply|e'| | |] eqn:Ec;
          try discriminate.
        -- unfold RpcClient.parse_reply. cbv zeta.
           destruct (negb _); [|discriminate].
           destruct (get_obj _) as [obj|what]; [|intros [= <-]; left; eexists; reflexivity].
           destruct (get_int _) as [code|what]; [|intros [= <-]; left; eexists; reflexivity].
           destruct (abs code); discriminate.
        -- intros [= <-]. right. exists strMethod, params. exact Ec.
      * intros [= <-]. left. eexists. reflexivity.
Qed.

(** X25: the arguments that begin with a switch character and come before the
    method are skipped, and [argv[0]] is not looked at. *)
Theorem CommandLineRPC_skips_switches argv0 argv0' switches rest :
  Forall (fun arg => is_switch IsSwitchChar arg = true) switches →
  CommandLineRPC (argv0 :: switches ++ rest) = CommandLineRPC (argv0' :: rest).
Proof.
  intros Hsw. unfold RpcClient.CommandLineRPC.
  rewrite !try_block_tail, (skip_switches_app _ _ _ Hsw),
    (skip_switches_tail argv0 argv0'). reflexivity.
Qed.

(** X26: without a method after the switches, the call returns the absolute
    value of [RPC_MISC_ERROR] and prints that there are too few
    parameters, whatever the server would answer. *)
Theorem CommandLineRPC_too_few_parameters argv nRet :
  Forall (fun arg => is_switch IsSwitchChar arg = true) (tail argv) →
  abs RPC_MISC_ERROR = Some nRet →
  CommandLineRPC argv
  = Exits nRet (Some (if nRet =? 0 then stdout else stderr,
                      "error: too few parameters"%string)).
Proof.
  intros Hsw Habs. unfold RpcClient.CommandLineRPC.
  destruct argv as [|argv0 rest].
  - simpl. rewrite Habs. reflexivity.
  - simpl in Hsw. rewrite try_block_tail.
    rewrite <- (app_nil_r rest), (skip_switches_app _ _ _ Hsw). simpl.
    rewrite Habs. reflexivity.
Qed.

(** X27: when the conversion of the parameters throws, the call returns the
    absolute value of [RPC_MISC_ERROR] and prints the [what()] of the
    exception, whatever the server would answer. *)
Theorem CommandLineRPC_conversion_error argv0 strMethod strParams what nRet :
  is_switch IsSwitchChar strMethod = false →
  RPCConvertValues read_string get_value strMethod strParams = Throw what →
  abs RPC_MISC_ERROR = Some nRet →
  CommandLineRPC (argv0 :: strMethod :: strParams)
  = Exits nRet (Some (if nRet =? 0 then stdout else stderr, "error: " +:+ what)).
Proof.
  intros Hm Hc Habs. unfold RpcClient.CommandLineRPC, RpcClient.try_block.
  simpl. unfold is_switch in Hm. rewrite Hm, Hc, Habs. reflexivity.
Qed.

(** X28: the value returned is not negative; when it is not zero, a text that
    begins with [error: ] has been printed on [stderr]; when it is zero,
    nothing is printed on [stderr]. *)
Theorem CommandLineRPC_exit_code argv nRet printed :
  CommandLineRPC argv = Exits nRet printed →
  0 <= nRet
  ∧ (nRet ≠ 0 → ∃ text, printed = Some (stderr, "error: " +:+ text))
  ∧ (nRet = 0 → ∀ text, printed ≠ Some (stderr, text)).
Proof.
  unfold RpcClient.CommandLineRPC.
  destruct (try_block argv) as [[strPrint n]|e| | |] eqn:Ht; try discriminate.
  - destruct argv as [|argv0 rest]; [discriminate|].
    rewrite try_block_tail in Ht.
    destruct (tail _) as [|strMethod strParams]; [discriminate|].
    destruct (RPCConvertValues _ _ _ _) as [params| | |]; try discriminate.
    destruct (CallRPC strMethod params) as [reply| | | |]; try discriminate.
    apply parse_reply_Normal in Ht as [Hn Hp].
    unfold finish. intros [= <- <-]. split; [exact Hn|]. split.
    + intros Hnz. destruct (Hp Hnz) as [text ->]. exists text.
      destruct (Z.eqb_spec n 0); [contradiction|]. reflexivity.
    + intros ->. intros text. destruct (String.eqb strPrint ""); discriminate.
  - destruct e as [what| |]; try discriminate.
    destruct (abs RPC_MISC_ERROR) as [n|] eqn:E; [|discriminate].
    rewrite finish_error. intros [= <- <-].
    split; [apply (abs_nonneg _ _ E)|]. split.
    + intros Hnz. exists what. destruct (Z.eqb_spec n 0); [contradiction|].
      reflexivity.
    + intros ->. intros text. discriminate.
Qed.

(** X29: an exception that leaves the call was thrown by [CallRPC] and is not
    a [std::exception]; it is reported before it is thrown again unless it
    is the interruption of the thread. *)
Theorem CommandLineRPC_propagates argv e logged :
  CommandLineRPC argv = Propagates e logged →
  (∃ strMethod params, CallRPC strMethod params = Raised e)
  ∧ (e = ThreadInterrupted ∧ logged = false
     ∨ e = OtherException ∧ logged = true).
Proof.
  unfold RpcClient.CommandLineRPC.
  destruct (try_block argv) as [[strPrint n]|e'| | |] eqn:Ht; try discriminate.
  destruct e' as [what| |].
  - destruct (abs RPC_MISC_ERROR); discriminate.
  - intros [= <- <-]. apply try_block_raised in Ht as [[what [=]]|Hc].
    split; [exact Hc|]. left. split; reflexivity.
  - intros [= <- <-]. apply try_block_raised in Ht as [[what [=]]|Hc].
    split; [exact Hc|]. right. split; reflexivity.
Qed.

End CommandLineFacts.

End RpcFacts.

(** ** The further properties on concrete data *)

(** The index obtained from a 12-character name fits an [int]. *)
Lemma reaper_index_fits_int_example :
  CLib.sscanf_d_dat (CLib.advance 3 "blk-0001.dat") = Some (-1)
  ∧ - 2 ^ 31 <= -1 < 2 ^ 31.
Proof.
  split; [reflexivity|].
  exact (reaper_index_fits_int "blk-0001.dat" (-1) eq_refl eq_refl).
Defined.

(** In the scenario, file 7 is referred to by block B inside the window
    and stays; file 1 holds an old block only and goes. *)
Lemma PurgeDB_file_fate_example :
  ∃ d', blocks (@PurgeDB example_consts (env_ok 5000) mixed_state) = Some d'
        ∧ "blk00007.dat"%string ∈ d'
        ∧ d' = ["blk00007.dat"; "readme.txt"]%string.
Proof.
  destruct (@PurgeDB_file_fate example_consts (env_ok 5000) mixed_state _ eq_refl eq_refl)
    as (d' & Hd' & Hfate).
  exists d'. split; [exact Hd'|]. split.
  - apply (Hfate "blk00007.dat"%string eq_refl (or_introl eq_refl) eq_refl).
    split; [repeat constructor|]. exists 2%N, blockB.
    split; [reflexivity|]. split; [simpl; lia|reflexivity].
  - vm_compute in Hd'. injection Hd' as <-. reflexivity.
Defined.

(** Block A keeps its flags and its file 7 is still there. *)
Lemma PurgeDB_flagged_records_keep_files_example :
  ∃ d', blocks (@PurgeDB example_consts (env_ok 5000) mixed_state) = Some d'
        ∧ blocktree (@PurgeDB example_consts (env_ok 5000) mixed_state) !! 1%N
          = Some blockA
        ∧ "blk00007.dat"%string ∈ d'.
Proof.
  destruct (@PurgeDB_flagged_records_keep_files example_consts (env_ok 5000)
              mixed_state _ eq_refl eq_refl) as (d' & Hd' & Hkeep).
  exists d'. split; [exact Hd'|].
  assert (Hrec : blocktree (@PurgeDB example_consts (env_ok 5000) mixed_state) !! 1%N
                 = Some blockA) by (vm_compute; reflexivity).
  split; [exact Hrec|].
  apply (Hkeep 1%N blockA "blk00007.dat"%string Hrec).
  - left. discriminate.
  - repeat constructor.
  - reflexivity.
Defined.

(** Block 3 is prunable: its record loses the flags and both files with
    index 1 are gone. *)
Lemma PurgeDB_pruned_blocks_lose_files_example :
  ∃ d', blocks (@PurgeDB example_consts (env_ok 5000) mixed_state) = Some d'
        ∧ blocktree (@PurgeDB example_consts (env_ok 5000) mixed_state) !! 3%N
          = Some (mkBlockIndex 100 1 0)
        ∧ ¬ "blk00001.dat"%string ∈ d' ∧ ¬ "rev00001.dat"%string ∈ d'.
Proof.
  destruct (@PurgeDB_pruned_blocks_lose_files example_consts (env_ok 5000)
              mixed_state _ eq_refl eq_refl) as (d' & Hd' & Hprune).
  exists d'. split; [exact Hd'|].
  split; [vm_compute; reflexivity|].
  assert (Hp : @is_prunable example_consts 5000 mixed_index 3%N).
  { exists (mkBlockIndex 100 1 24). split; [reflexivity|]. split; [simpl; lia|].
    split; [left; discriminate|].
    intros (k' & r' & Hl & Hw & Hf).
    assert (Hin : (k', r') ∈ map_to_list mixed_index)
      by (apply elem_of_map_to_list; exact Hl).
    vm_compute in Hin.
    repeat (apply elem_of_cons in Hin as [[= -> ->] | Hin];
            [simpl in Hw, Hf; try lia; try discriminate|]).
    inversion Hin. }
  destruct (Hprune 3%N (mkBlockIndex 100 1 24) Hp eq_refl) as [_ Hgone].
  split; apply Hgone; first [reflexivity | left; reflexivity | right; reflexivity].
Defined.

(** Two old blocks visited in either order. *)
Lemma third_pass_order_irrelevant_example :
  let s := after_prelude (env_ok 5000) old_state in
  let s1 := (foreach (@third_pass_body example_consts (env_ok 5000)) [1%N; 2%N] tt s).2 in
  let s2 := (foreach (@third_pass_body example_consts (env_ok 5000)) [2%N; 1%N] tt s).2 in
  blocktree s1 = blocktree s2 ∧ txindex s1 = txindex s2
  ∧ blocktree s1 !! 1%N = Some (mkBlockIndex 100 1 0).
Proof.
  destruct (@third_pass_order_irrelevant example_consts (env_ok 5000)
              [1%N; 2%N] [2%N; 1%N]
              (after_prelude (env_ok 5000) old_state)
              (perm_swap 2%N 1%N []) eq_refl) as (_ & Hb & Hx & _).
  split; [exact Hb|]. split; [exact Hx|]. vm_compute. reflexivity.
Defined.

Lemma parse_decimal_notation_example :
  @BitcoinUnits.parse unit_codes 0 (BitcoinUnits.qs "-1.5") (Some 7)
  = (true, Some (-15000000000))
  ∧ @BitcoinUnits.parse unit_codes 1 (BitcoinUnits.qs "-") (Some 7) = (true, Some 0).
Proof.
  split.
  - exact (proj1 (@UnitsFacts.parse_decimal_notation unit_codes 0 BitcoinUnits.Minus
                    [49%N] [53%N] (Some 7) eq_refl eq_refl eq_refl
                    ltac:(vm_compute; discriminate) ltac:(vm_compute; discriminate))).
  - exact (proj2 (@UnitsFacts.parse_decimal_notation unit_codes 1 BitcoinUnits.Minus
                    [] [] (Some 7) eq_refl eq_refl eq_refl
                    ltac:(vm_compute; discriminate) ltac:(vm_compute; discriminate))
                 ltac:(discriminate)).
Defined.

Lemma parse_format_round_trip_example :
  @BitcoinUnits.format unit_codes 0 (-15000000000) true = BitcoinUnits.qs "-1.50"
  ∧ @BitcoinUnits.parse unit_codes 0 (@BitcoinUnits.format unit_codes 0 (-15000000000) true)
      (Some 7)
    = (true, Some (-15000000000)).
Proof.
  split; [vm_compute; reflexivity|].
  exact (@UnitsFacts.parse_format_round_trip unit_codes 0 (-15000000000) true (Some 7)
           (or_introl eq_refl) eq_refl).
Defined.

Lemma parse_format_micro_example :
  @BitcoinUnits.format unit_codes 2 15000 false = BitcoinUnits.qs "1.05"
  ∧ @BitcoinUnits.parse unit_codes 2 (@BitcoinUnits.format unit_codes 2 15000 false)
      (Some 7)
    = (true, Some 105000).
Proof.
  split; [vm_compute; reflexivity|].
  exact (proj1 (@UnitsFacts.parse_format_micro unit_codes 2 15000 false (Some 7) eq_refl
                  ltac:(discriminate) ltac:(discriminate) eq_refl)).
Defined.

(** A text of 18 digits, read without a destination and into a
    destination that holds 7. *)
Lemma parse_fits_qint64_example :
  (∃ z, BitcoinUnits.toLongLong
          (@BitcoinUnits.padded_text unit_codes 0
             (BitcoinUnits.qs "99999999.9999999999")) = (true, z)
        ∧ - 10 ^ 18 < z < 10 ^ 18
        ∧ None = BitcoinUnits.stored None z)
  ∧ (∃ z, BitcoinUnits.toLongLong
            (@BitcoinUnits.padded_text unit_codes 0
               (BitcoinUnits.qs "99999999.9999999999")) = (true, z)
          ∧ - 10 ^ 18 < z < 10 ^ 18
          ∧ Some 999999999999999999 = BitcoinUnits.stored (Some 7) z).
Proof.
  split.
  - exact (@UnitsFacts.parse_fits_qint64 unit_codes 0
             (BitcoinUnits.qs "99999999.9999999999") None None eq_refl).
  - exact (@UnitsFacts.parse_fits_qint64 unit_codes 0
             (BitcoinUnits.qs "99999999.9999999999") (Some 7)
             (Some 999999999999999999) eq_refl).
Defined.

Lemma parse_refuses_example :
  @BitcoinUnits.parse unit_codes 0 (BitcoinUnits.qs "1.2.3") (Some 7) = (false, Some 7)
  ∧ @BitcoinUnits.parse unit_codes 2 (BitcoinUnits.qs "0.123456") None = (false, None).
Proof.
  split.
  - apply UnitsFacts.parse_refuses. right. right. left. vm_compute. lia.
  - apply UnitsFacts.parse_refuses. right. right. right. left.
    exists [48%N], (BitcoinUnits.qs "123456").
    split; [reflexivity|]. split; [repeat constructor; discriminate|].
    split; [repeat constructor; discriminate|]. left. vm_compute. reflexivity.
Defined.

Lemma parse_refuses_large_format_example :
  @BitcoinUnits.format unit_codes 0 (10 ^ 18) false = BitcoinUnits.qs "100000000.00"
  ∧ @BitcoinUnits.parse unit_codes 0 (@BitcoinUnits.format unit_codes 0 (10 ^ 18) false)
      (Some 7)
    = (false, Some 7).
Proof.
  split; [vm_compute; reflexivity|].
  exact (@UnitsFacts.parse_refuses_large_format unit_codes 0 (10 ^ 18) false (Some 7) eq_refl
           ltac:(vm_compute; split; reflexivity) ltac:(vm_compute; discriminate)).
Defined.

Lemma format_shape_example :
  @BitcoinUnits.format unit_codes 1 (- 2 ^ 63 + 1) false
  = BitcoinUnits.qs "-922337203685.4775807"
  ∧ ∃ frac,
      @BitcoinUnits.format unit_codes 1 (- 2 ^ 63 + 1) false
      = [45%N] ++ BitcoinUnits.number 922337203685 ++ 46%N :: frac
      ∧ forallb BitcoinUnits.is_digit frac = true
      ∧ 2 <= Z.of_nat (length frac) <= 7
      ∧ ((length frac <= 2)%nat ∨ last frac ≠ Some 48%N)
      ∧ BitcoinUnits.digits_value 0 frac * 10 ^ (7 - Z.of_nat (length frac))
        = 4775807.
Proof.
  split; [vm_compute; reflexivity|].
  exact (proj2 (@UnitsFacts.format_shape unit_codes 1 (- 2 ^ 63 + 1) false
                  ltac:(vm_compute; split; reflexivity)) eq_refl).
Defined.

(** *** The parameter conversion with the example parser *)

Lemma strip_closing_quote_length s s' :
  strip_closing_quote s = Some s' → String.length s = S (String.length s').
Proof.
  revert s'. induction s as [|c rest IH]; intros s'; [discriminate|].
  cbn [strip_closing_quote]. destruct rest as [|c' rest'].
  - destruct (Ascii.eqb c quote); [|discriminate]. intros [= <-]. reflexivity.
  - destruct (strip_closing_quote (String c' rest')) as [t|]; [|discriminate].
    intros [= <-]. cbn [String.length]. f_equal. apply IH. reflexivity.
Qed.

Lemma example_read_string_unwraps : RpcClient.unwraps example_read_string.
Proof.
  intros s s'. unfold example_read_string.
  destruct (String.eqb s "true"); [discriminate|].
  destruct (String.eqb s "false"); [discriminate|].
  destruct (String.eqb s "null"); [discriminate|].
  destruct s as [|c rest]; [discriminate|].
  destruct (Ascii.eqb c quote).
  - destruct (strip_closing_quote rest) as [t|] eqn:E; [|discriminate].
    intros [= <-]. apply strip_closing_quote_length in E.
    cbn [String.length]. lia.
  - destruct (all_digits (String c rest)); discriminate.
Qed.

(** A number between quotes is unwrapped twice. *)
Lemma ConvertTo_finishes_example :
  RpcClient.ConvertTo example_read_string example_get_value
    RpcClient.T_int64 false (RpcClient.VStr (quoted "12"))
  = RpcClient.Ok (RpcClient.VInt 12)
  ∧ RpcClient.finished
      (RpcClient.ConvertTo example_read_string example_get_value
         RpcClient.T_int64 false (RpcClient.VStr (quoted "12"))).
Proof.
  split; [vm_compute; reflexivity|].
  exact (RpcFacts.ConvertTo_finishes example_read_string example_get_value
           RpcClient.T_int64 false (RpcClient.VStr (quoted "12"))
           example_read_string_unwraps).
Defined.

Lemma ConvertTo_returns_typed_example :
  RpcClient.ConvertTo example_read_string example_get_value
    RpcClient.T_bool false (RpcClient.VStr "true")
  = RpcClient.Ok (RpcClient.VBool true)
  ∧ ((false = true ∧ RpcClient.VBool true = RpcClient.VNull)
     ∨ ∃ u, RpcClient.is_str u = false
            ∧ example_get_value RpcClient.T_bool u = inl (RpcClient.VBool true)).
Proof.
  split; [vm_compute; reflexivity|].
  exact (RpcFacts.ConvertTo_returns_typed example_read_string example_get_value
           RpcClient.T_bool false (RpcClient.VStr "true") (RpcClient.VBool true)
           eq_refl).
Defined.

Lemma ConvertTo_throws_example :
  RpcClient.ConvertTo example_read_string example_get_value
    RpcClient.T_int64 false (RpcClient.VStr "abc")
  = RpcClient.Throw "Error parsing JSON:abc"
  ∧ ((∃ s, example_read_string s = None
           ∧ "Error parsing JSON:abc"%string = "Error parsing JSON:" +:+ s)
     ∨ ∃ u, RpcClient.is_str u = false
            ∧ example_get_value RpcClient.T_int64 u = inr "Error parsing JSON:abc"%string).
Proof.
  split; [vm_compute; reflexivity|].
  exact (RpcFacts.ConvertTo_throws example_read_string example_get_value
           RpcClient.T_int64 false (RpcClient.VStr "abc") _ eq_refl).
Defined.

(** [sendfrom] has lines for its parameters 3 and 4 only. *)
Lemma RPCConvertValues_frame_example :
  let params := [RpcClient.VStr "from"; RpcClient.VStr "to"; RpcClient.VStr "1.5";
                 RpcClient.VInt 6; RpcClient.VInt 100] in
  RpcClient.RPCConvertValues example_read_string example_get_value "sendfrom"
    ["from"; "to"; "1.5"; "6"; "100"]%string = RpcClient.Ok params
  ∧ length params = 5%nat
  ∧ params !! 2%nat = Some (RpcClient.VStr "1.5").
Proof.
  destruct (RpcFacts.RPCConvertValues_frame example_read_string example_get_value
              "sendfrom" ["from"; "to"; "1.5"; "6"; "100"]%string _ eq_refl)
    as [Hl Hf].
  split; [reflexivity|]. split; [exact Hl|].
  apply (Hf 2%nat). apply (bool_decide_unpack _). vm_compute. exact I.
Defined.

Lemma RPCConvertValues_unlisted_method_example :
  RpcClient.RPCConvertValues example_read_string example_get_value "getblockcount"
    ["12"; "true"]%string
  = RpcClient.Ok [RpcClient.VStr "12"; RpcClient.VStr "true"].
Proof.
  apply (RpcFacts.RPCConvertValues_unlisted_method example_read_string
           example_get_value "getblockcount" ["12"; "true"]%string).
  apply (bool_decide_unpack _). vm_compute. exact I.
Defined.

Lemma RPCConvertValues_converted_example :
  ∃ s value,
    ["from"; "to"; "1.5"; "6"; "100"]%string !! 3%nat = Some s
    ∧ RpcClient.ConvertTo example_read_string example_get_value
        RpcClient.T_int64 false (RpcClient.VStr s) = RpcClient.Ok value
    ∧ [RpcClient.VStr "from"; RpcClient.VStr "to"; RpcClient.VStr "1.5";
       RpcClient.VInt 6; RpcClient.VInt 100] !! 3%nat = Some value.
Proof.
  apply (RpcFacts.RPCConvertValues_converted example_read_string example_get_value
           "sendfrom" ["from"; "to"; "1.5"; "6"; "100"]%string _ 3%nat
           RpcClient.T_int64 false eq_refl).
  - unfold RpcClient.conversions. repeat first [left | right].
  - vm_compute. reflexivity.
Defined.

Lemma RPCConvertValues_throws_example :
  RpcClient.RPCConvertValues example_read_string example_get_value "getblockhash"
    ["abc"]%string = RpcClient.Throw "Error parsing JSON:abc"
  ∧ ∃ i T fAllowNull s,
      ("getblockhash"%string, i, T, fAllowNull) ∈ RpcClient.conversions
      ∧ ["abc"%string] !! i = Some s
      ∧ RpcClient.ConvertTo example_read_string example_get_value T fAllowNull
          (RpcClient.VStr s) = RpcClient.Throw "Error parsing JSON:abc".
Proof.
  split; [vm_compute; reflexivity|].
  exact (RpcFacts.RPCConvertValues_throws example_read_string example_get_value
           "getblockhash" ["abc"%string] _ eq_refl).
Defined.

Lemma RPCConvertValues_finishes_example :
  RpcClient.RPCConvertValues example_read_string example_get_value "getblock"
    [quoted "hash"; quoted "true"]
  = RpcClient.Ok [RpcClient.VStr (quoted "hash"); RpcClient.VBool true]
  ∧ RpcClient.finished
      (RpcClient.RPCConvertValues example_read_string example_get_value "getblock"
         [quoted "hash"; quoted "true"]).
Proof.
  split; [vm_compute; reflexivity|].
  exact (RpcFacts.RPCConvertValues_finishes example_read_string example_get_value
           "getblock" [quoted "hash"; quoted "true"] example_read_string_unwraps).
Defined.

(** *** [CommandLineRPC] with the example server *)

Lemma CommandLineRPC_skips_switches_example :
  example_CommandLineRPC ["cli"; "-testnet"; "-rpcwait"; "getblockcount"]%string
  = example_CommandLineRPC ["other"; "getblockcount"]%string
  ∧ example_CommandLineRPC ["other"; "getblockcount"]%string
    = RpcClient.Exits 0 (Some (RpcClient.stdout, "7 blocks"%string)).
Proof.
  split; [|vm_compute; reflexivity].
  apply (RpcFacts.CommandLineRPC_skips_switches example_read_string
           example_get_value example_IsSwitchChar (-1) example_CallRPC
           example_find_value example_write_string example_get_obj
           example_get_int "cli" "other" ["-testnet"; "-rpcwait"]%string
           ["getblockcount"%string]).
  repeat constructor.
Defined.

Lemma CommandLineRPC_too_few_parameters_example :
  example_CommandLineRPC ["cli"; "-testnet"]%string
  = RpcClient.Exits 1
      (Some (RpcClient.stderr, "error: too few parameters"%string)).
Proof.
  apply (RpcFacts.CommandLineRPC_too_few_parameters example_read_string
           example_get_value example_IsSwitchChar (-1) example_CallRPC
           example_find_value example_write_string example_get_obj
           example_get_int ["cli"; "-testnet"]%string 1).
  - repeat constructor.
  - reflexivity.
Defined.

Lemma CommandLineRPC_conversion_error_example :
  example_CommandLineRPC ["cli"; "getblockhash"; "abc"]%string
  = RpcClient.Exits 1
      (Some (RpcClient.stderr, "error: Error parsing JSON:abc"%string)).
Proof.
  apply (RpcFacts.CommandLineRPC_conversion_error example_read_string
           example_get_value example_IsSwitchChar (-1) example_CallRPC
           example_find_value example_write_string example_get_obj
           example_get_int "cli" "getblockhash" ["abc"%string]
           "Error parsing JSON:abc" 1); reflexivity.
Defined.

(** A method that the example server does not know: its error code is
    -32601. *)
Lemma CommandLineRPC_exit_code_example :
  example_CommandLineRPC ["cli"; "unknown"]%string
  = RpcClient.Exits 32601 (Some (RpcClient.stderr, "error: (json)"%string))
  ∧ 0 <= 32601
  ∧ (32601 ≠ 0 →
     ∃ text, Some (RpcClient.stderr, "error: (json)"%string)
             = Some (RpcClient.stderr, "error: " +:+ text))
  ∧ (32601 = 0 →
     ∀ text, Some (RpcClient.stderr, "error: (json)"%string)
             ≠ Some (RpcClient.stderr, text)).
Proof.
  split; [vm_compute; reflexivity|].
  exact (RpcFacts.CommandLineRPC_exit_code example_read_string
           example_get_value example_IsSwitchChar (-1) example_CallRPC
           example_find_value example_write_string example_get_obj
           example_get_int ["cli"; "unknown"]%string 32601 _ eq_refl).
Defined.

Lemma CommandLineRPC_propagates_example :
  example_CommandLineRPC ["cli"; "stop"]%string
  = RpcClient.Propagates RpcClient.ThreadInterrupted false
  ∧ (∃ strMethod params,
       example_CallRPC strMethod params
       = RpcClient.Raised RpcClient.ThreadInterrupted)
  ∧ (RpcClient.ThreadInterrupted = RpcClient.ThreadInterrupted ∧ false = false
     ∨ RpcClient.ThreadInterrupted = RpcClient.OtherException ∧ false = true).
Proof.
  split; [vm_compute; reflexivity|].
  exact (RpcFacts.CommandLineRPC_propagates example_read_string
           example_get_value example_IsSwitchChar (-1) example_CallRPC
           example_find_value example_write_string example_get_obj
           example_get_int ["cli"; "stop"]%string _ _ eq_refl).
Defined.
